(** * Programming-Task: fetch DC Comics heroes, group them, lay them out on PDF pages

    A shallow embedding of [main.py], [pdf.py] and [superhero_client.py].

    Conventions.
    - Python [int] is [Z]; Python [float] is modelled by exact rationals [Q]
      (every constant of the layout is a whole number of points).
    - A Python [dict] whose iteration order matters is an association list in
      insertion order.
    - The reportlab canvas is modelled by the list of calls made on it.
      Module [PDF] takes every call into reportlab to return; module [Render]
      is the same engine over a backend in which any call may raise.
    - The HTTP session is modelled by the outcome of [session.send] for each
      route. *)

From Stdlib Require Import List String Ascii ZArith QArith Bool Lia Lqa Permutation Sorted.
Import ListNotations.

Local Open Scope string_scope.

(** ** Python string helpers *)

Module Py.

(** [s * n] for a one-piece string [s]. *)
Fixpoint str_mul (s : string) (n : nat) : string :=
  match n with
  | O => EmptyString
  | S n' => s ++ str_mul s n'
  end.

(** [sep.join(l)]. *)
Definition join (sep : string) (l : list string) : string := String.concat sep l.

(** [s.replace(c, by)] for a one-character pattern [c]. *)
Fixpoint replace_char (c : ascii) (by_ : string) (s : string) : string :=
  match s with
  | EmptyString => EmptyString
  | String a rest =>
      if Ascii.eqb a c then by_ ++ replace_char c by_ rest
      else String a (replace_char c by_ rest)
  end.

(** The newline character. *)
Definition nl : ascii := ascii_of_nat 10.

End Py.

(** ** reportlab.lib.units *)

Module Units.
Local Open Scope Q_scope.

(** [reportlab.lib.units.inch]: the number of points in an inch. *)
Definition inch : Q := 72.

End Units.

(** ** superhero.SuperHero *)

Module SuperHero.

(** [_print_list] accepts either a plain string or a list of strings. *)
Inductive str_or_list : Type :=
| Str (s : string)
| Lst (l : list string).

(** Modelled from the spec: the class [SuperHero] (file [superhero.py]) is not
    among the sources.  The record carries the attributes that [pdf.py] reads
    ([occupation], [picture], [full_name], [alter_egos], [aliases],
    [place_of_birth]) together with the identifier of the spec's HeroRecord. *)
Record t : Type := mk {
  id : Z;
  full_name : string;
  occupation : list string;
  aliases : str_or_list;
  alter_egos : str_or_list;
  place_of_birth : string;
  picture : string
}.

End SuperHero.

Definition hero : Type := SuperHero.t.

(** ** Insertion-ordered dictionaries, as [pdf.py] uses them *)

Module Dict.

Definition t : Type := list (string * list hero).

(** [key in d]. *)
Fixpoint mem (key : string) (d : t) : bool :=
  match d with
  | [] => false
  | (k, _) :: rest => if String.eqb key k then true else mem key rest
  end.

(** [d[key]], [None] standing for [KeyError]. *)
Fixpoint get (key : string) (d : t) : option (list hero) :=
  match d with
  | [] => None
  | (k, v) :: rest => if String.eqb key k then Some v else get key rest
  end.

(** [d.update({key: v})]: an existing key keeps its position, a new key goes
    to the end. *)
Fixpoint update (key : string) (v : list hero) (d : t) : t :=
  match d with
  | [] => [(key, v)]
  | (k, w) :: rest =>
      if String.eqb key k then (k, v) :: rest else (k, w) :: update key v rest
  end.

(** [d[key].append(x)] for a key that is present. *)
Fixpoint append (key : string) (x : hero) (d : t) : t :=
  match d with
  | [] => []
  | (k, w) :: rest =>
      if String.eqb key k then (k, (w ++ [x])%list) :: rest
      else (k, w) :: append key x rest
  end.

Definition keys (d : t) : list string := map fst d.

End Dict.

(** ** pdf.PDF: the grouper *)

Module Grouper.

(** [super_hero.occupation[0]]; [None] stands for [IndexError]. *)
Definition first_occupation (h : hero) : option string :=
  hd_error (SuperHero.occupation h).

(** One iteration of the loop of [_prepare_data]. *)
Definition prepare_step (d : Dict.t) (super_hero : hero) : option Dict.t :=
  match first_occupation super_hero with
  | None => None
  | Some group =>
      if negb (Dict.mem group d)
      then Some (Dict.update group [super_hero] d)
      else Some (Dict.append group super_hero d)
  end.

(** [_prepare_data], started on the dictionary [d] ([self.data]). *)
Fixpoint prepare_from (d : Dict.t) (super_heroes : list hero) : option Dict.t :=
  match super_heroes with
  | [] => Some d
  | super_hero :: rest =>
      match prepare_step d super_hero with
      | None => None
      | Some d' => prepare_from d' rest
      end
  end.

(** [_prepare_data] as the constructor calls it, on [self.data = {}]. *)
Definition _prepare_data (super_heroes : list hero) : option Dict.t :=
  prepare_from [] super_heroes.

(** The grouping key of every record that has one, in input order. *)
Definition keys_of (super_heroes : list hero) : list string :=
  flat_map (fun h => match first_occupation h with
                     | Some k => [k]
                     | None => []
                     end) super_heroes.

(** The keys [ks] in order of first occurrence, those of [seen] left out. *)
Fixpoint first_occurrences (seen : list string) (ks : list string) : list string :=
  match ks with
  | [] => []
  | k :: rest =>
      if existsb (String.eqb k) seen then first_occurrences seen rest
      else k :: first_occurrences (seen ++ [k]) rest
  end.

(** The records whose first occupation is [key], in input order. *)
Definition members_of (key : string) (super_heroes : list hero) : list hero :=
  filter (fun h => match first_occupation h with
                   | Some k => String.eqb k key
                   | None => false
                   end) super_heroes.

End Grouper.

(** ** pdf.PDF: the layout engine *)

Module PDF.
Import Units.
Local Open Scope Q_scope.

(** What the engine does to the outside world: the calls on
    [reportlab]'s canvas, the paragraphs drawn on it, and the final
    line on standard output. *)
Inductive call : Type :=
| NewCanvas (file : string)
| SetFont (font : string) (size : Q)
| DrawString (x y : Q) (text : string)
| DrawImage (image : string) (x y width height : Q)
| DrawOn (markup : string) (x y : Q)
| ShowPage
| Save
| Print (line : string).

(** The attributes of a [PDF] object. *)
Record t : Type := mk {
  data : Dict.t;
  file_name : string;
  title : string;
  _bottom : Q;
  _page_items : Z;
  _font : string;
  _right_info : Q;
  _right_image : Q
}.

Definition set_bottom (b : Q) (s : t) : t :=
  mk (data s) (file_name s) (title s) b (_page_items s) (_font s)
     (_right_info s) (_right_image s).

Definition set_page_items (n : Z) (s : t) : t :=
  mk (data s) (file_name s) (title s) (_bottom s) n (_font s)
     (_right_info s) (_right_image s).

Definition set_right_info (x : Q) (s : t) : t :=
  mk (data s) (file_name s) (title s) (_bottom s) (_page_items s) (_font s)
     x (_right_image s).

Definition set_right_image (x : Q) (s : t) : t :=
  mk (data s) (file_name s) (title s) (_bottom s) (_page_items s) (_font s)
     (_right_info s) x.

(** A method of the object: it returns a value, leaves the object in a new
    state and makes some calls. *)
Record outcome (A : Type) : Type := Outcome {
  value : A;
  state : t;
  calls : list call
}.
Arguments Outcome {A}.
Arguments value {A}.
Arguments state {A}.
Arguments calls {A}.

Definition M (A : Type) : Type := t -> outcome A.

Definition ret {A : Type} (a : A) : M A := fun s => Outcome a s [].

Definition bind {A B : Type} (m : M A) (k : A -> M B) : M B :=
  fun s =>
    let r := m s in
    let r' := k (value r) (state r) in
    Outcome (value r') (state r') (calls r ++ calls r').

Notation "x <- m ;; k" := (bind m (fun x => k))
  (at level 61, m at next level, right associativity).
Notation "m ;; k" := (bind m (fun _ => k))
  (at level 61, right associativity).

(** Reading an attribute, assigning one, calling the backend. *)
Definition gets {A : Type} (f : t -> A) : M A := fun s => Outcome (f s) s [].
Definition modify (f : t -> t) : M unit := fun s => Outcome tt (f s) [].
Definition emit (c : call) : M unit := fun s => Outcome tt s [c].

(** [for x in l: body(x)]. *)
Fixpoint for_each {A : Type} (l : list A) (body : A -> M unit) : M unit :=
  match l with
  | [] => ret tt
  | x :: rest => body x ;; for_each rest body
  end.

(** [self.data[key]].  Every key the engine looks up comes from iterating
    [self.data] itself, so the [KeyError] branch is never taken
    (see [getitem_of_key]). *)
Definition getitem (d : Dict.t) (key : string) : list hero :=
  match Dict.get key d with
  | Some v => v
  | None => []
  end.

(** The state [__init__] leaves once [_prepare_data] has filled [self.data]. *)
Definition init_state (file_name title : string) (d : Dict.t) : t :=
  mk d file_name title (11 * inch) 0 "Helvetica" (2 * inch + inch / 2) inch.

(** [PDF(file_name, title, super_heroes)]; [None] when [_prepare_data]
    raises. *)
Definition __init__ (file_name title : string) (super_heroes : list hero)
  : option t :=
  match Grouper._prepare_data super_heroes with
  | Some d => Some (init_state file_name title d)
  | None => None
  end.

(** The markup [_draw_info_paragraph] builds:
    [msg.replace('\n', '<br />')], then ['<b>{}:</b> {}'.format(title, message)]. *)
Definition info_markup (title msg : string) : string :=
  let message := Py.replace_char Py.nl "<br />" msg in
  ("<b>" ++ title ++ ":</b> " ++ message)%string.

(** The separator line, ['_'*80]. *)
Definition rule : string := Py.str_mul "_" 80.

Section Engine.

(** [Paragraph(msg, style).wrap(max_width, max_height)[1]]: the height the
    backend gives to the wrapped text. *)
Variable wrap : string -> Q -> Q -> Q.

(** [hero == heroes[-1]]: the [==] of class [SuperHero], whose definition is
    not among the sources. *)
Variable hero_eq : hero -> hero -> bool.

(** The height of [msg] wrapped to the default box of [_draw_paragraph],
    [max_width=5*inch] by [max_height=11*inch]. *)
Definition rendered_height (msg : string) : Q :=
  wrap msg (5 * inch) (11 * inch).

Definition _draw_paragraph (msg : string) (x y : Q) : M unit :=
  let h := rendered_height msg in
  let y := y - h in
  emit (DrawOn msg x y) ;;
  b <- gets _bottom ;;
  modify (set_bottom (b - h - 12)).

Definition _draw_info_paragraph (title msg : string) : M unit :=
  let message := info_markup title msg in
  x <- gets _right_info ;;
  y <- gets _bottom ;;
  _draw_paragraph message x y.

Definition _draw_heading (msg : string) (font_size : Q) : M unit :=
  font <- gets _font ;;
  emit (SetFont font font_size) ;;
  b <- gets _bottom ;;
  emit (DrawString inch b msg) ;;
  b <- gets _bottom ;;
  modify (set_bottom (b - inch / 2)).

Definition _print_list (s : SuperHero.str_or_list) : string :=
  match s with
  | SuperHero.Str s => s
  | SuperHero.Lst l => Py.join ", " l
  end.

Definition _shared_occupation (key : string) : M bool :=
  d <- gets data ;;
  ret ((1 <? Z.of_nat (List.length (getitem d key)))%Z && negb (String.eqb key "-")).

(** The body of [for key in self.data] before the loop over the members. *)
Definition group_head (key : string) : M unit :=
  modify (set_right_info (2 * inch + inch / 2)) ;;
  modify (set_right_image inch) ;;
  shared <- _shared_occupation key ;;
  if shared then
    ri <- gets _right_info ;;
    modify (set_right_info (ri + inch / 2)) ;;
    rm <- gets _right_image ;;
    modify (set_right_image (rm + inch / 2)) ;;
    _draw_heading key 16 ;;
    n <- gets _page_items ;;
    modify (set_page_items (n + 1))
  else ret tt.

(** The four labelled paragraphs of a hero. *)
Definition hero_paragraphs (h : hero) : M unit :=
  _draw_info_paragraph "Full name" (SuperHero.full_name h) ;;
  _draw_info_paragraph "Alter Egos" (_print_list (SuperHero.alter_egos h)) ;;
  _draw_info_paragraph "Aliases" (_print_list (SuperHero.aliases h)) ;;
  _draw_info_paragraph "Place of Birth" (SuperHero.place_of_birth h).

(** The body of [for hero in heroes] up to the call of [drawImage]: the
    counter, the slot of the image, the image.  It returns [image_bottom]. *)
Definition hero_image (h : hero) : M Q :=
  n <- gets _page_items ;;
  modify (set_page_items (n + 1)) ;;
  b <- gets _bottom ;;
  let image_bottom := b - 640 / 5 in
  font <- gets _font ;;
  emit (SetFont font 11) ;;
  rm <- gets _right_image ;;
  emit (DrawImage (SuperHero.picture h) rm (image_bottom + 20)
                  (480 / 5) (640 / 5)) ;;
  ret image_bottom.

(** The body of [for hero in heroes] up to [self._bottom = image_bottom]. *)
Definition hero_draw (h : hero) : M unit :=
  image_bottom <- hero_image h ;;
  hero_paragraphs h ;;
  modify (set_bottom image_bottom).

(** [if self._shared_occupation(key) and hero == heroes[-1]: ...].  Inside
    the loop [heroes] is not empty, so the default of [last] is unused. *)
Definition hero_separator (key : string) (heroes : list hero) (h : hero)
  : M unit :=
  shared <- _shared_occupation key ;;
  if shared && hero_eq h (last heroes h) then
    b <- gets _bottom ;;
    emit (DrawString inch b rule) ;;
    modify (set_bottom (b - inch / 4))
  else ret tt.

(** [self._bottom -= inch/4]. *)
Definition hero_gap : M unit :=
  b <- gets _bottom ;;
  modify (set_bottom (b - inch / 4)).

(** [if self._page_items == 5: ...]. *)
Definition page_check : M unit :=
  n <- gets _page_items ;;
  if (n =? 5)%Z then
    emit ShowPage ;;
    modify (set_page_items 0) ;;
    modify (set_bottom (11 * inch))
  else ret tt.

(** The whole body of [for hero in heroes]. *)
Definition place_hero (key : string) (heroes : list hero) (h : hero)
  : M unit :=
  hero_draw h ;;
  hero_separator key heroes h ;;
  hero_gap ;;
  page_check.

(** The whole body of [for key in self.data]. *)
Definition layout_group (key : string) : M unit :=
  group_head key ;;
  d <- gets data ;;
  let heroes := getitem d key in
  for_each heroes (place_hero key heroes).

Definition create_pdf : M unit :=
  f <- gets file_name ;;
  emit (NewCanvas (f ++ ".pdf")%string) ;;
  ttl <- gets title ;;
  _draw_heading ttl 18 ;;
  d <- gets data ;;
  for_each (Dict.keys d) layout_group ;;
  emit Save ;;
  emit (Print ("Created Superheroes PDF '" ++ f ++ ".pdf'")%string).

End Engine.

(** The markup of the four paragraphs of a hero, in the order
    [create_pdf] draws them. *)
Definition full_name_markup (h : hero) : string :=
  info_markup "Full name" (SuperHero.full_name h).
Definition alter_egos_markup (h : hero) : string :=
  info_markup "Alter Egos" (_print_list (SuperHero.alter_egos h)).
Definition aliases_markup (h : hero) : string :=
  info_markup "Aliases" (_print_list (SuperHero.aliases h)).
Definition birth_markup (h : hero) : string :=
  info_markup "Place of Birth" (SuperHero.place_of_birth h).

Definition hero_markups (h : hero) : list string :=
  [full_name_markup h; alter_egos_markup h; aliases_markup h; birth_markup h].

(** Every paragraph the engine draws for a dictionary. *)
Definition markups_of (d : Dict.t) : list string :=
  flat_map (fun kv => flat_map hero_markups (snd kv)) d.

(** A method that leaves [self.data] as it found it. *)
Definition keeps_data {A : Type} (m : M A) : Prop :=
  forall s : t, data (state (m s)) = data s.

(** Reading a trace. *)
Definition is_show_page (c : call) : bool :=
  match c with ShowPage => true | _ => false end.

Definition is_rule (c : call) : bool :=
  match c with
  | DrawString _ _ text => String.eqb text rule
  | _ => false
  end.

End PDF.

(** ** superhero_client.SuperHeroClient *)

Module Client.
Local Open Scope Z_scope.

(** A decoded JSON document (or the raw text of a response) as a Python
    value. *)
#[local] Unset Elimination Schemes.
Inductive pyval : Type :=
| PNone
| PBool (b : bool)
| PNum (q : Q)
| PStr (s : string)
| PList (l : list pyval)
| PDict (d : list (string * pyval)).
#[local] Set Elimination Schemes.

(** Python's truth value: [not v] is [negb (truthy v)]. *)
Definition truthy (v : pyval) : bool :=
  match v with
  | PNone => false
  | PBool b => b
  | PNum q => negb (Qnum q =? 0)
  | PStr s => negb (String.eqb s EmptyString)
  | PList l => match l with [] => false | _ => true end
  | PDict d => match d with [] => false | _ => true end
  end.

(** The exceptions that can travel through [main].  [RetryError] is what
    [requests] raises when the retries on 502, 503 and 504 are used up, and
    it is not an [HTTPError]. *)
Inductive exn : Type :=
| HTTPError (status : Z)
| RetryError
| ConnectionError
| KeyError (key : string)
| TypeError
| OtherError (name : string).

Definition is_HTTPError (e : exn) : bool :=
  match e with HTTPError _ => true | _ => false end.

(** The two routes the client builds: ['/biography/{}.json'] and
    ['/id/{}.json']. *)
Inductive route : Type :=
| BiographyRoute (hero_id : Z)
| IdRoute (hero_id : Z).

(** A response as [_make_request] reads it: [json = None] when [r.json()]
    raises [ValueError]. *)
Record response : Type := mkResponse {
  status_code : Z;
  json : option pyval;
  text : string
}.

(** What [self.session.send(prepped)] does: it returns a response or raises. *)
Inductive sent : Type :=
| Returns (r : response)
| Raises (e : exn).

(** What can be observed of a run: the requests sent, the records of the
    logger, the lines printed. *)
Inductive event : Type :=
| Send (rt : route)
| LogDebugResponse (res_json : pyval)
| LogDebugNotFound (rt : route)
| LogError (status : Z)
| LogDebugDetails (details : pyval)
| PrintError (e : exn).

(** A computation that returns or raises, with what it let observe. *)
Definition result (A : Type) : Type := (exn + A) * list event.

(** The statuses the mounted [Retry] retries. *)
Definition status_forcelist : list Z := [502; 503; 504].

(** [Response.raise_for_status] of [requests]: it raises for 4XX and 5XX. *)
Definition raise_for_status (status : Z) : exn + unit :=
  if (400 <=? status) && (status <? 600) then inl (HTTPError status)
  else inr tt.

(** A status that is an error (4XX or 5XX) and that the transport does not
    retry. *)
Definition permanent_failure (status : Z) : Prop :=
  400 <= status < 600 /\ ~ In status status_forcelist.

Section Session.

(** The data source: the outcome of the request for each route. *)
Variable send : route -> sent.

Definition _make_request (rt : route) : result pyval :=
  match send rt with
  | Raises e => (inl e, [Send rt])
  | Returns r =>
      if status_code r =? 200 then
        match json r with
        | Some res_json => (inr res_json, [Send rt; LogDebugResponse res_json])
        | None => (inr (PStr (text r)), [Send rt])
        end
      else if status_code r =? 404 then
        (inr PNone, [Send rt; LogDebugNotFound rt])
      else if status_code r >=? 400 then
        let details :=
          match json r with
          | Some j => [LogDebugDetails j]
          | None => []
          end in
        let log := ([Send rt; LogError (status_code r)] ++ details)%list in
        match raise_for_status (status_code r) with
        | inl e => (inl e, log)
        | inr _ => (inr PNone, log)
        end
      else (inr PNone, [Send rt])
  end.

Definition make_request (rt : route) : result pyval := _make_request rt.

Definition get_biography (hero_id : Z) : result pyval :=
  _make_request (BiographyRoute hero_id).

Definition get_super_hero (hero_id : Z) : result pyval :=
  _make_request (IdRoute hero_id).

End Session.

End Client.

(** ** main.main: the fetcher *)

Module Main.
Import Client.
Local Open Scope Z_scope.

(** [v[key]] for a string key: a dictionary is looked up, any other value
    cannot be indexed by a string. *)
Fixpoint dict_lookup (key : string) (d : list (string * pyval)) : option pyval :=
  match d with
  | [] => None
  | (k, v) :: rest => if String.eqb key k then Some v else dict_lookup key rest
  end.

Definition subscript (v : pyval) (key : string) : exn + pyval :=
  match v with
  | PDict d =>
      match dict_lookup key d with
      | Some x => inr x
      | None => inl (KeyError key)
      end
  | _ => inl TypeError
  end.

(** [v == s] for a string literal [s]. *)
Definition eq_str (v : pyval) (s : string) : bool :=
  match v with
  | PStr s' => String.eqb s' s
  | _ => false
  end.

(** The local variables of [main]; [accepted] is a history variable that
    remembers the identifiers of the appended records. *)
Record vars : Type := mkVars {
  super_heroes : list hero;
  hero_id : Z;
  accepted : list Z
}.

Definition start : vars := mkVars [] 0 [].

(** How an iteration ends: the loop goes on, or an exception leaves [main]. *)
Inductive step : Type :=
| Continue (s : vars)
| Uncaught (e : exn) (s : vars).

(** [except HTTPError as err: print(err)]. *)
Definition handle (e : exn) (s : vars) (log : list event) : step * list event :=
  if is_HTTPError e then (Continue s, (log ++ [PrintError e])%list)
  else (Uncaught e s, log).

Section Fetch.

Variable send : route -> sent.

(** [SuperHero.from_api], which is not among the sources: it builds a record
    or raises. *)
Variable from_api : pyval -> exn + hero.

(** The body of the [while] loop. *)
Definition iteration (s : vars) : step * list event :=
  let i := hero_id s + 1 in
  let s := mkVars (super_heroes s) i (accepted s) in
  let (rb, lb) := get_biography send i in
  match rb with
  | inl e => handle e s lb
  | inr biography =>
      if negb (truthy biography) then (Continue s, lb)
      else
        match subscript biography "publisher" with
        | inl e => handle e s lb
        | inr publisher =>
            if eq_str publisher "DC Comics" then
              let (rh, lh) := get_super_hero send i in
              let log := (lb ++ lh)%list in
              match rh with
              | inl e => handle e s log
              | inr h =>
                  if negb (truthy h) then (Continue s, log)
                  else
                    match from_api h with
                    | inl e => handle e s log
                    | inr super_hero =>
                        (Continue (mkVars (super_heroes s ++ [super_hero])%list
                                          i (accepted s ++ [i])%list), log)
                    end
              end
            else (Continue s, lb)
        end
  end.

(** How a run of the loop stands after at most [fuel] iterations. *)
Inductive run : Type :=
| Collected (s : vars)
| Aborted (e : exn) (s : vars)
| Running (s : vars).

Definition vars_of (r : run) : vars :=
  match r with
  | Collected s | Aborted _ s | Running s => s
  end.

(** [while (len(super_heroes) < 10): ...]. *)
Fixpoint loop (fuel : nat) (s : vars) : run * list event :=
  if Z.of_nat (List.length (super_heroes s)) <? 10 then
    match fuel with
    | O => (Running s, [])
    | S fuel' =>
        match iteration s with
        | (Continue s', log) =>
            let (r, log') := loop fuel' s' in (r, (log ++ log')%list)
        | (Uncaught e s', log) => (Aborted e s', log)
        end
    end
  else (Collected s, []).

(** The fetch of [main]. *)
Definition fetch (fuel : nat) : run * list event := loop fuel start.

(** [main]: fetch, then build the PDF object and lay it out.  [None] while
    the fetch is still running, or when it or the constructor raised. *)
Definition main (wrap : string -> Q -> Q -> Q) (hero_eq : hero -> hero -> bool)
  (fuel : nat) : option (PDF.outcome unit) :=
  match fst (fetch fuel) with
  | Collected s =>
      match PDF.__init__ "super_heroes" "The Super Heroes API - DC Comics"
                         (super_heroes s) with
      | Some pdf => Some (PDF.create_pdf wrap hero_eq pdf)
      | None => None
      end
  | _ => None
  end.

End Fetch.

(** The routes requested in a log, in order. *)
Fixpoint requests (log : list event) : list route :=
  match log with
  | [] => []
  | Send rt :: rest => rt :: requests rest
  | _ :: rest => requests rest
  end.

Definition route_id (rt : route) : Z :=
  match rt with
  | BiographyRoute i | IdRoute i => i
  end.

(** The identifiers of the biography requests of a log, in order. *)
Definition biography_requests (log : list event) : list Z :=
  flat_map (fun rt => match rt with
                      | BiographyRoute i => [i]
                      | IdRoute _ => []
                      end) (requests log).

(** The publisher the data source reports for an identifier: what
    [biography['publisher']] evaluates to when the lookup succeeds with a
    true value. *)
Definition source_publisher (send : route -> sent) (i : Z) : option pyval :=
  match fst (get_biography send i) with
  | inr biography =>
      if truthy biography then
        match subscript biography "publisher" with
        | inr p => Some p
        | inl _ => None
        end
      else None
  | inl _ => None
  end.

(** [1; 2; ...; n]. *)
Definition ids_upto (n : nat) : list Z := map Z.of_nat (seq 1 n).

(** The data source answers a request of the iteration for identifier [i]
    with a permanent failure: the biography request, or, the biography being
    one of the target publisher, the request for the full record. *)
Definition fails_permanently (send : route -> sent) (i : Z) (rt : route)
  (status : Z) : Prop :=
  permanent_failure status /\
  exists r, send rt = Returns r /\ status_code r = status /\
    (rt = BiographyRoute i \/
     (rt = IdRoute i /\
      source_publisher send i = Some (PStr "DC Comics"))).

(** The failure was raised, caught and printed: the request raised the
    [HTTPError] of the status, the client had logged the error, and the last
    thing the iteration did was the [print(err)] of [main]'s handler. *)
Definition caught_and_printed (send : route -> sent) (rt : route) (status : Z)
  (log : list event) : Prop :=
  fst (_make_request send rt) = inl (HTTPError status) /\
  In (LogError status) log /\
  last log (Send rt) = PrintError (HTTPError status).

(** The failure was not raised: the request returned [None] after the
    client's ``not found'' record, no error was logged and nothing was
    printed. *)
Definition not_found_skipped (send : route -> sent) (rt : route)
  (log : list event) : Prop :=
  fst (_make_request send rt) = inr PNone /\
  In (LogDebugNotFound rt) log /\
  (forall e, ~ In (PrintError e) log) /\
  (forall c, ~ In (LogError c) log).

(** The record [h] of the output comes from the identifier [i]: the data
    source reports the publisher 'DC Comics' for [i], and [h] is what
    [from_api] made of the full record of [i]. *)
Definition made_from (send : route -> sent) (from_api : pyval -> exn + hero)
  (h : hero) (i : Z) : Prop :=
  source_publisher send i = Some (PStr "DC Comics") /\
  exists v, fst (get_super_hero send i) = inr v /\ truthy v = true /\
            from_api v = inr h.

(** What holds of the variables of [main] and of the requests sent so far,
    whenever the loop tests its condition. *)
Definition fetch_invariant (send : route -> sent)
  (from_api : pyval -> exn + hero) (s : vars) (log : list event) : Prop :=
  (List.length (super_heroes s) <= 10)%nat /\
  Forall2 (made_from send from_api) (super_heroes s) (accepted s) /\
  (exists k : nat, hero_id s = Z.of_nat k /\ biography_requests log = ids_upto k) /\
  NoDup (requests log) /\
  (forall rt, In rt (requests log) -> 1 <= route_id rt <= hero_id s).

End Main.

(** ** Reading what the engine drew *)

Module Trace.
Import PDF.

(** The images of a trace, in order. *)
Definition pictures (cs : list call) : list string :=
  flat_map (fun c => match c with
                     | DrawImage p _ _ _ _ => [p]
                     | _ => []
                     end) cs.

(** The markup of the paragraphs of a trace, in order. *)
Definition paragraphs (cs : list call) : list string :=
  flat_map (fun c => match c with
                     | DrawOn m _ _ => [m]
                     | _ => []
                     end) cs.

(** The number of page breaks of a trace. *)
Definition page_breaks (cs : list call) : nat :=
  List.length (filter is_show_page cs).

(** The calls that open or close the document. *)
Definition is_document_call (c : call) : bool :=
  match c with
  | NewCanvas _ | Save | Print _ => true
  | _ => false
  end.

(** The members [create_pdf] visits: [self.data[key]] for each [key] of
    [self.data], in order. *)
Definition members (d : Dict.t) : list hero :=
  flat_map (getitem d) (Dict.keys d).

(** [_shared_occupation(key)] as a function of the dictionary. *)
Definition shared (d : Dict.t) (key : string) : bool :=
  (1 <? Z.of_nat (List.length (getitem d key)))%Z && negb (String.eqb key "-").

(** An image drawn at the left margin [image], a paragraph at the left
    margin [info]; nothing is asked of the other calls. *)
Definition at_margins (info image : Q) (c : call) : Prop :=
  match c with
  | DrawImage _ x _ _ _ => x = image
  | DrawOn _ x _ => x = info
  | _ => True
  end.

(** A method that leaves the attribute [f] as it found it. *)
Definition keeps {A B : Type} (f : PDF.t -> B) (m : M A) : Prop :=
  forall s : PDF.t, f (state (m s)) = f s.

(** The height at which an image is drawn. *)
Definition image_heights (cs : list call) : list Q :=
  flat_map (fun c => match c with
                     | DrawImage _ _ y _ _ => [y]
                     | _ => []
                     end) cs.

(** The cursor leaves room for the items a page can still take: with [p]
    items on the page it is at least 756 - 146 p points, 756 being the cursor
    under the title of the first page and 146 the height of a hero. *)
Definition roomy (s : PDF.t) : Prop :=
  (0 <= _page_items s <= 4)%Z /\
  (756 - 146 * inject_Z (_page_items s) <= _bottom s)%Q.

(** [c in s] for a character and a string. *)
Fixpoint occurs (c : ascii) (s : string) : bool :=
  match s with
  | EmptyString => false
  | String a rest => Ascii.eqb a c || occurs c rest
  end.

End Trace.

(** ** What the fetcher does with one identifier *)

Module Visit.
Import Client Main.
Local Open Scope Z_scope.

(** The outcome of the loop body for an identifier. *)
Inductive verdict : Type :=
| Appends (h : hero)
| Skips
| Fatal (e : exn).

Section Source.

Variable send : route -> sent.
Variable from_api : pyval -> exn + hero.

(** The loop body run for the identifier [i] with nothing collected yet. *)
Definition visit (i : Z) : step * list event :=
  iteration send from_api (mkVars [] (i - 1) []).

Definition verdict_of (i : Z) : verdict :=
  match fst (visit i) with
  | Continue s =>
      match super_heroes s with
      | h :: _ => Appends h
      | [] => Skips
      end
  | Uncaught e _ => Fatal e
  end.

(** The records the identifiers [ids] contribute, in order. *)
Definition matches (ids : list Z) : list hero :=
  flat_map (fun i => match verdict_of i with
                     | Appends h => [h]
                     | _ => []
                     end) ids.

(** No identifier of [ids] makes the loop body raise past [main]. *)
Definition harmless (ids : list Z) : Prop :=
  forall i e, In i ids -> verdict_of i <> Fatal e.

End Source.

(** [h + 1; ...; h + n]. *)
Definition ids_from (h : Z) (n : nat) : list Z :=
  map (fun k => h + Z.of_nat k) (seq 1 n).

End Visit.

(** ** superhero_client: the level of the logger *)

Module LogConfig.

(** The levels of [logging]. *)
Inductive level : Type :=
| CRITICAL | ERROR | WARNING | INFO | DEBUG | NOTSET.

(** [logging._nameToLevel]: the names [Logger.setLevel] accepts; any other
    string makes it raise [ValueError]. *)
Definition level_of_name (name : string) : option level :=
  if String.eqb name "CRITICAL" then Some CRITICAL
  else if String.eqb name "FATAL" then Some CRITICAL
  else if String.eqb name "ERROR" then Some ERROR
  else if String.eqb name "WARN" then Some WARNING
  else if String.eqb name "WARNING" then Some WARNING
  else if String.eqb name "INFO" then Some INFO
  else if String.eqb name "DEBUG" then Some DEBUG
  else if String.eqb name "NOTSET" then Some NOTSET
  else None.

(** The truth value of a string. *)
Definition nonempty (s : string) : bool := negb (String.eqb s EmptyString).

Section Environment.

(** [os.environ.get(name)]. *)
Variable environ : string -> option string.

(** [str.upper]. *)
Variable upper : string -> string.

(** The statements of the module that choose the level: the level the logger
    ends with and the warnings logged on the way. *)
Definition configure : level * list string :=
  let log_level :=
    upper (match environ "LOG_LEVEL" with
           | Some v => v
           | None => "INFO"
           end) in
  let '(log_level, warnings) :=
    match environ "DEBUG" with
    | Some v =>
        if nonempty v then
          ("DEBUG",
           if nonempty log_level
           then ["Overriding LOG_LEVEL setting with DEBUG"]
           else [])
        else (log_level, [])
    | None => (log_level, [])
    end in
  match level_of_name log_level with
  | Some l => (l, warnings)
  | None =>
      (INFO,
       (warnings ++ ["LOG_LEVEL is not valid - Log Level set to INFO"])%list)
  end.

End Environment.

End LogConfig.

(** ** The layout engine over a backend that can raise *)

(** [PDF] above takes every call into [reportlab] to return.  Here each of
    them may raise instead, which ends [create_pdf] at that call: building a
    [Paragraph] from markup the parser refuses, loading an image, saving the
    file.  The methods are the ones of [PDF], call for call. *)
Module Render.
Import Units PDF.
Local Open Scope Q_scope.

(** What [create_pdf] asks of the world outside the object: to build a
    [Paragraph] from markup and wrap it, and the calls of the trace. *)
Inductive request : Type :=
| Build (markup : string)
| Call (c : call).

(** A method that may raise: from the calls made so far and the object it
    gives the request that raised, or its value, with the object as the
    method left it and the calls it made itself. *)
Definition attempt (A : Type) : Type :=
  list call -> PDF.t -> outcome (request + A).

Definition bind {A B : Type} (m : attempt A) (k : A -> attempt B)
  : attempt B :=
  fun pre s =>
    let r := m pre s in
    match value r with
    | inl e => Outcome (inl e) (state r) (calls r)
    | inr a =>
        let r' := k a (pre ++ calls r)%list (state r) in
        Outcome (value r') (state r') (calls r ++ calls r')%list
    end.

Notation "x <~ m ;;; k" := (bind m (fun x => k))
  (at level 61, m at next level, right associativity).
Notation "m ;;; k" := (bind m (fun _ => k))
  (at level 61, right associativity).

(** A method that calls nothing outside the object: reading an attribute,
    assigning one, [_shared_occupation]. *)
Definition lift {A : Type} (m : M A) : attempt A :=
  fun _ s => let r := m s in Outcome (inr (value r)) (state r) (calls r).

Fixpoint for_each {A : Type} (l : list A) (body : A -> attempt unit)
  : attempt unit :=
  match l with
  | [] => lift (ret tt)
  | x :: rest => body x ;;; for_each rest body
  end.

(** The request [e] raised where the run that does not raise makes the call
    [c]: the call itself, or the [Paragraph] of the markup it draws. *)
Definition blames (e : request) (c : call) : Prop :=
  match e with
  | Call c' => c' = c
  | Build markup => exists x y, c = DrawOn markup x y
  end.

(** [xm] is [m] over a backend that can raise: a run of [xm] that returns
    is the run of [m]; one that raises has made the calls of [m] up to the
    one that raised, and no other. *)
Definition refines {A : Type} (xm : attempt A) (m : M A) : Prop :=
  forall pre s,
    match value (xm pre s) with
    | inr a =>
        a = value (m s) /\
        state (xm pre s) = state (m s) /\
        calls (xm pre s) = calls (m s)
    | inl e =>
        exists c rest,
          calls (m s) = (calls (xm pre s) ++ c :: rest)%list /\ blames e c
    end.

Section Backend.

(** Whether the backend raises at a request, given the calls made before
    it. *)
Variable raises : list call -> request -> bool.

Variable wrap : string -> Q -> Q -> Q.
Variable hero_eq : hero -> hero -> bool.

(** A call on the canvas, or [print]. *)
Definition perform (c : call) : attempt unit :=
  fun pre s =>
    if raises pre (Call c) then Outcome (inl (Call c)) s []
    else Outcome (inr tt) s [c].

(** [message = Paragraph(msg, style=message_style)] and
    [_, h = message.wrap(max_width, max_height)]: the height [h]. *)
Definition build (msg : string) : attempt Q :=
  fun pre s =>
    if raises pre (Build msg) then Outcome (inl (Build msg)) s []
    else Outcome (inr (rendered_height wrap msg)) s [].

Definition _draw_paragraph (msg : string) (x y : Q) : attempt unit :=
  h <~ build msg ;;;
  let y := y - h in
  perform (DrawOn msg x y) ;;;
  b <~ lift (gets _bottom) ;;;
  lift (modify (set_bottom (b - h - 12))).

Definition _draw_info_paragraph (title msg : string) : attempt unit :=
  let message := info_markup title msg in
  x <~ lift (gets _right_info) ;;;
  y <~ lift (gets _bottom) ;;;
  _draw_paragraph message x y.

Definition _draw_heading (msg : string) (font_size : Q) : attempt unit :=
  font <~ lift (gets _font) ;;;
  perform (SetFont font font_size) ;;;
  b <~ lift (gets _bottom) ;;;
  perform (DrawString inch b msg) ;;;
  b <~ lift (gets _bottom) ;;;
  lift (modify (set_bottom (b - inch / 2))).

(** The body of [for key in self.data] before the loop over the members. *)
Definition group_head (key : string) : attempt unit :=
  lift (modify (set_right_info (2 * inch + inch / 2))) ;;;
  lift (modify (set_right_image inch)) ;;;
  shared <~ lift (_shared_occupation key) ;;;
  if shared then
    ri <~ lift (gets _right_info) ;;;
    lift (modify (set_right_info (ri + inch / 2))) ;;;
    rm <~ lift (gets _right_image) ;;;
    lift (modify (set_right_image (rm + inch / 2))) ;;;
    _draw_heading key 16 ;;;
    n <~ lift (gets _page_items) ;;;
    lift (modify (set_page_items (n + 1)))
  else lift (ret tt).

Definition hero_paragraphs (h : hero) : attempt unit :=
  _draw_info_paragraph "Full name" (SuperHero.full_name h) ;;;
  _draw_info_paragraph "Alter Egos"
         (_print_list (SuperHero.alter_egos h)) ;;;
  _draw_info_paragraph "Aliases" (_print_list (SuperHero.aliases h)) ;;;
  _draw_info_paragraph "Place of Birth" (SuperHero.place_of_birth h).

Definition hero_image (h : hero) : attempt Q :=
  n <~ lift (gets _page_items) ;;;
  lift (modify (set_page_items (n + 1))) ;;;
  b <~ lift (gets _bottom) ;;;
  let image_bottom := b - 640 / 5 in
  font <~ lift (gets _font) ;;;
  perform (SetFont font 11) ;;;
  rm <~ lift (gets _right_image) ;;;
  perform (DrawImage (SuperHero.picture h) rm (image_bottom + 20)
                          (480 / 5) (640 / 5)) ;;;
  lift (ret image_bottom).

Definition hero_draw (h : hero) : attempt unit :=
  image_bottom <~ hero_image h ;;;
  hero_paragraphs h ;;;
  lift (modify (set_bottom image_bottom)).

Definition hero_separator (key : string) (heroes : list hero) (h : hero)
  : attempt unit :=
  shared <~ lift (_shared_occupation key) ;;;
  if shared && hero_eq h (last heroes h) then
    b <~ lift (gets _bottom) ;;;
    perform (DrawString inch b rule) ;;;
    lift (modify (set_bottom (b - inch / 4)))
  else lift (ret tt).

Definition hero_gap : attempt unit :=
  b <~ lift (gets _bottom) ;;;
  lift (modify (set_bottom (b - inch / 4))).

Definition page_check : attempt unit :=
  n <~ lift (gets _page_items) ;;;
  if (n =? 5)%Z then
    perform ShowPage ;;;
    lift (modify (set_page_items 0)) ;;;
    lift (modify (set_bottom (11 * inch)))
  else lift (ret tt).

Definition place_hero (key : string) (heroes : list hero) (h : hero)
  : attempt unit :=
  hero_draw h ;;;
  hero_separator key heroes h ;;;
  hero_gap ;;;
  page_check.

Definition layout_group (key : string) : attempt unit :=
  group_head key ;;;
  d <~ lift (gets data) ;;;
  let heroes := getitem d key in
  for_each heroes (place_hero key heroes).

Definition create_pdf : attempt unit :=
  f <~ lift (gets file_name) ;;;
  perform (NewCanvas (f ++ ".pdf")%string) ;;;
  ttl <~ lift (gets title) ;;;
  _draw_heading ttl 18 ;;;
  d <~ lift (gets data) ;;;
  for_each (Dict.keys d) layout_group ;;;
  perform Save ;;;
  perform (Print ("Created Superheroes PDF '" ++ f ++ ".pdf'")%string).

(** [main]: the fetch, then the PDF object and its [create_pdf], the first
    thing to call the backend.  [None] while the fetch is still running, or
    when it or the constructor raised. *)
Definition main (send : Client.route -> Client.sent)
  (from_api : Client.pyval -> Client.exn + hero) (fuel : nat)
  : option (outcome (request + unit)) :=
  match fst (Main.fetch send from_api fuel) with
  | Main.Collected s =>
      match PDF.__init__ "super_heroes" "The Super Heroes API - DC Comics"
                         (Main.super_heroes s) with
      | Some pdf => Some (create_pdf [] pdf)
      | None => None
      end
  | _ => None
  end.

End Backend.

(** A backend that never raises. *)
Definition never (pre : list call) (e : request) : bool := false.

End Render.

(** * Concrete inputs *)

Module Sample.
Import SuperHero.
Local Open Scope Q_scope.

(** A value comparison of two records, the [==] a class gets from a
    field-wise [__eq__]. *)
Fixpoint list_eqb (l1 l2 : list string) : bool :=
  match l1, l2 with
  | [], [] => true
  | a :: r1, b :: r2 => String.eqb a b && list_eqb r1 r2
  | _, _ => false
  end.

Definition str_or_list_eqb (a b : str_or_list) : bool :=
  match a, b with
  | Str s1, Str s2 => String.eqb s1 s2
  | Lst l1, Lst l2 => list_eqb l1 l2
  | _, _ => false
  end.

Definition value_eq (a b : hero) : bool :=
  Z.eqb (id a) (id b)
  && String.eqb (full_name a) (full_name b)
  && list_eqb (occupation a) (occupation b)
  && str_or_list_eqb (aliases a) (aliases b)
  && str_or_list_eqb (alter_egos a) (alter_egos b)
  && String.eqb (place_of_birth a) (place_of_birth b)
  && String.eqb (picture a) (picture b).

Definition batman : hero :=
  mk 70 "Bruce Wayne" ["Businessman"]
     (Lst ["Insider"; "Matches Malone"]) (Str "No alter egos found.")
     "Crest Hill, Bristol Township; Gotham County" "70-batman.jpg".

Definition nightwing : hero :=
  mk 490 "Dick Grayson" ["Vigilante"; "Police officer"]
     (Lst ["Robin"; "Batman"]) (Lst ["Batman II"; "Robin"])
     "-" "490-nightwing.jpg".

Definition huntress : hero :=
  mk 338 "Helena Bertinelli" ["Vigilante"]
     (Str "Huntress") (Str "No alter egos found.")
     "Gotham City" "338-huntress.jpg".

Definition aquaman : hero :=
  mk 38 "Orin" ["Protector of the Seas and Oceans"]
     (Lst ["Arthur Curry"; "Dweller in the depths"]) (Str "No alter egos found.")
     "Atlantis" "38-aquaman.jpg".

Definition flash : hero :=
  mk 263 "Barry Allen" ["Forensic scientist"]
     (Str "Flash") (Str "No alter egos found.")
     "Fallville, Iowa" "263-flash.jpg".

Definition cyborg : hero :=
  mk 194 "Victor Stone" ["-"]
     (Str "Vic") (Str "No alter egos found.") "-" "194-cyborg.jpg".

Definition raven : hero :=
  mk 542 "Rachel Roth" ["-"]
     (Str "Pride") (Str "No alter egos found.") "Azarath" "542-raven.jpg".

Definition killer_croc : hero :=
  mk 389 "Waylon Jones" ["unknown"]
     (Str "Croc") (Str "No alter egos found.") "-" "389-killer-croc.jpg".

Definition bane : hero :=
  mk 60 "-" ["unknown"]
     (Str "-") (Str "No alter egos found.") "Santa Prisca" "60-bane.jpg".

(** A backend that renders every paragraph on one line of 12 points. *)
Definition one_line (msg : string) (max_width max_height : Q) : Q := 12.

(** A backend that gives a paragraph one line per 40 characters. *)
Definition by_length (msg : string) (max_width max_height : Q) : Q :=
  12 * inject_Z (Z.of_nat (String.length msg) / 40 + 1).

(** A backend that agrees with [one_line] on markup and differs on text that
    does not start with a tag. *)
Definition one_line_markup (msg : string) (max_width max_height : Q) : Q :=
  match msg with
  | String "<" _ => 12
  | _ => 24
  end.

(** Four heroes alone in their groups, then two vigilantes. *)
Definition six_heroes : list hero :=
  [batman; aquaman; flash; cyborg; nightwing; huntress].

Definition six_grouped : Dict.t :=
  [("Businessman", [batman]);
   ("Protector of the Seas and Oceans", [aquaman]);
   ("Forensic scientist", [flash]);
   ("-", [cyborg]);
   ("Vigilante", [nightwing; huntress])].

Definition vigilantes : Dict.t := [("Vigilante", [nightwing; huntress])].

Definition placeholders : Dict.t := [("-", [cyborg; raven])].

Definition unknowns : Dict.t := [("unknown", [killer_croc; bane])].

(** The same record twice in one group. *)
Definition twins : Dict.t := [("Vigilante", [huntress; huntress])].

Definition pdf_of (d : Dict.t) : PDF.t :=
  PDF.init_state "super_heroes" "The Super Heroes API - DC Comics" d.

(** A data source: identifiers divisible by 3 are DC Comics heroes, 4 is not
    found, 5 fails with 500, 7 fails with 403 on the full record, the others
    are Marvel heroes. *)
Definition biography_of (publisher : string) : Client.pyval :=
  Client.PDict [("fullName", Client.PStr "Somebody");
                ("publisher", Client.PStr publisher)].

Definition record_of (i : Z) : Client.pyval :=
  Client.PDict [("id", Client.PNum (inject_Z i));
                ("name", Client.PStr "Somebody")].

Definition source (rt : Client.route) : Client.sent :=
  match rt with
  | Client.BiographyRoute i =>
      if (i =? 4)%Z then Client.Returns (Client.mkResponse 404 None "Not Found")
      else if (i =? 5)%Z then
        Client.Returns (Client.mkResponse 500 None "Internal Server Error")
      else if ((i mod 3 =? 0) || (i =? 7))%Z then
        Client.Returns (Client.mkResponse 200 (Some (biography_of "DC Comics")) "OK")
      else
        Client.Returns (Client.mkResponse 200 (Some (biography_of "Marvel Comics")) "OK")
  | Client.IdRoute i =>
      if (i =? 7)%Z then Client.Returns (Client.mkResponse 403 None "Forbidden")
      else Client.Returns (Client.mkResponse 200 (Some (record_of i)) "OK")
  end.

(** A stand-in for [SuperHero.from_api]. *)
Definition from_api (v : Client.pyval) : Client.exn + hero :=
  match Main.subscript v "id" with
  | inr (Client.PNum q) =>
      inr (mk (Qnum q) "Somebody" ["-"] (Str "-") (Str "-") "-" "-")
  | inr _ => inl Client.TypeError
  | inl e => inl e
  end.

(** Records whose biography lacks the publisher, or is not JSON at all. *)
Definition broken_source (rt : Client.route) : Client.sent :=
  match rt with
  | Client.BiographyRoute i =>
      if (i =? 2)%Z then
        Client.Returns (Client.mkResponse 200 None "<html>maintenance</html>")
      else
        Client.Returns
          (Client.mkResponse 200
             (Some (Client.PDict [("fullName", Client.PStr "Somebody")])) "OK")
  | Client.IdRoute i =>
      Client.Returns (Client.mkResponse 200 (Some (record_of i)) "OK")
  end.

(** A data source without any hero of the target publisher. *)
Definition marvel_source (rt : Client.route) : Client.sent :=
  Client.Returns (Client.mkResponse 200 (Some (biography_of "Marvel Comics")) "OK").

(** Groups of one member and a group keyed by the placeholder. *)
Definition unshared : Dict.t :=
  [("Businessman", [batman]);
   ("Protector of the Seas and Oceans", [aquaman]);
   ("-", [cyborg; raven]);
   ("Forensic scientist", [flash]);
   ("Vigilante", [huntress])].

(** An environment that sets [DEBUG] and asks for errors only. *)
Definition debug_environ (name : string) : option string :=
  if String.eqb name "DEBUG" then Some "1"
  else if String.eqb name "LOG_LEVEL" then Some "ERROR"
  else None.

(** A record whose name is not markup: its '<' opens no tag. *)
Definition riddler : hero :=
  mk 558 "Edward <Nigma" ["Professional criminal"]
     (Lst ["Edward Nashton"; "E. Nigma"]) (Str "No alter egos found.")
     "Gotham City" "558-riddler.jpg".

Definition with_riddler : Dict.t :=
  [("Businessman", [batman]);
   ("Professional criminal", [riddler]);
   ("Forensic scientist", [flash])].

(** Markup in which every '<' opens one of the tags [_draw_info_paragraph]
    writes. *)
Fixpoint well_formed (s : string) : bool :=
  match s with
  | EmptyString => true
  | String c rest =>
      (negb (Ascii.eqb c "<")
       || String.prefix "b>" rest || String.prefix "/b>" rest
       || String.prefix "br />" rest)
      && well_formed rest
  end.

(** A backend whose [Paragraph] raises on markup that is not well formed,
    and one that cannot write the file. *)
Definition strict (pre : list PDF.call) (e : Render.request) : bool :=
  match e with
  | Render.Build markup => negb (well_formed markup)
  | Render.Call _ => false
  end.

Definition read_only (pre : list PDF.call) (e : Render.request) : bool :=
  match e with
  | Render.Call PDF.Save => true
  | _ => false
  end.

End Sample.

(** * Properties *)

Local Open Scope list_scope.

(** ** The grouper *)

Section GrouperFacts.
Import Grouper.

Lemma mem_keys (key : string) (d : Dict.t) :
  Dict.mem key d = existsb (String.eqb key) (Dict.keys d).
Proof.
  induction d as [|[k v] d IH]; simpl; [reflexivity|].
  destruct (String.eqb key k); [reflexivity | exact IH].
Qed.

Lemma existsb_eqb_In (key : string) (l : list string) :
  existsb (String.eqb key) l = true <-> In key l.
Proof.
  rewrite existsb_exists. split.
  - intros [x [Hin Heq]]. apply String.eqb_eq in Heq. now subst.
  - intros Hin. exists key. split; [exact Hin | apply String.eqb_refl].
Qed.

Lemma keys_update_fresh (key : string) (v : list hero) (d : Dict.t) :
  Dict.mem key d = false -> Dict.update key v d = (d ++ [(key, v)])%list.
Proof.
  induction d as [|[k w] d IH]; simpl; [reflexivity|].
  destruct (String.eqb key k); [discriminate|].
  intros H. now rewrite IH.
Qed.

Lemma keys_append (key : string) (x : hero) (d : Dict.t) :
  Dict.keys (Dict.append key x d) = Dict.keys d.
Proof.
  induction d as [|[k w] d IH]; simpl; [reflexivity|].
  destruct (String.eqb key k); simpl; [reflexivity | now rewrite IH].
Qed.

Lemma getitem_app_fresh (key k : string) (v : list hero) (d : Dict.t) :
  Dict.mem k d = false ->
  PDF.getitem (d ++ [(k, v)]) key =
  if String.eqb key k then v else PDF.getitem d key.
Proof.
  unfold PDF.getitem.
  induction d as [|[k' w] d IH]; simpl.
  - intros _. destruct (String.eqb key k); reflexivity.
  - destruct (String.eqb k k') eqn:Ek; [discriminate|].
    intros Hm. destruct (String.eqb key k') eqn:Ek'.
    + apply String.eqb_eq in Ek'. subst k'.
      destruct (String.eqb key k) eqn:E; [|reflexivity].
      apply String.eqb_eq in E. subst k. rewrite String.eqb_refl in Ek.
      discriminate.
    + now apply IH.
Qed.

Lemma getitem_append (key k : string) (x : hero) (d : Dict.t) :
  Dict.mem k d = true ->
  PDF.getitem (Dict.append k x d) key =
  if String.eqb key k then (PDF.getitem d key ++ [x])%list
  else PDF.getitem d key.
Proof.
  unfold PDF.getitem.
  induction d as [|[k' w] d IH]; simpl; [discriminate|].
  destruct (String.eqb k k') eqn:Ek.
  - intros _. apply String.eqb_eq in Ek. subst k'. simpl.
    destruct (String.eqb key k); reflexivity.
  - intros Hm. simpl. destruct (String.eqb key k') eqn:Ek'.
    + apply String.eqb_eq in Ek'. subst k'.
      rewrite String.eqb_sym in Ek. now rewrite Ek.
    + now apply IH.
Qed.

Lemma concat_update_fresh (k : string) (x : hero) (d : Dict.t) :
  Dict.mem k d = false ->
  List.concat (map snd (Dict.update k [x] d)) = (List.concat (map snd d) ++ [x])%list.
Proof.
  intros H. rewrite keys_update_fresh by exact H.
  rewrite map_app, concat_app. simpl. reflexivity.
Qed.

Lemma concat_append (k : string) (x : hero) (d : Dict.t) :
  Dict.mem k d = true ->
  Permutation (List.concat (map snd (Dict.append k x d)))
              (List.concat (map snd d) ++ [x]).
Proof.
  induction d as [|[k' w] d IH]; simpl; [discriminate|].
  destruct (String.eqb k k'); simpl.
  - intros _. rewrite <- !app_assoc. apply Permutation_app_head.
    apply Permutation_app_comm.
  - intros Hm. rewrite <- app_assoc. apply Permutation_app_head. now apply IH.
Qed.

Lemma getitem_absent (key : string) (d : Dict.t) :
  Dict.mem key d = false -> PDF.getitem d key = [].
Proof.
  unfold PDF.getitem.
  induction d as [|[k w] d IH]; simpl; [reflexivity|].
  destruct (String.eqb key k); [discriminate | exact IH].
Qed.

Lemma first_occupation_some (h : hero) :
  SuperHero.occupation h <> [] -> exists k, first_occupation h = Some k.
Proof.
  unfold first_occupation.
  destruct (SuperHero.occupation h) as [|k l]; [congruence|].
  intros _. now exists k.
Qed.

(** What the loop of [_prepare_data] has added to [self.data] once it has
    gone through [hs]. *)
Lemma prepare_from_spec (hs : list hero) : forall d : Dict.t,
  (forall h, In h hs -> SuperHero.occupation h <> []) ->
  exists d', prepare_from d hs = Some d' /\
    Dict.keys d' = Dict.keys d ++ first_occurrences (Dict.keys d) (keys_of hs) /\
    (forall key, PDF.getitem d' key = PDF.getitem d key ++ members_of key hs) /\
    Permutation (List.concat (map snd d')) (List.concat (map snd d) ++ hs).
Proof.
  induction hs as [|h hs IH]; intros d Hocc.
  - exists d. simpl. repeat split.
    + now rewrite app_nil_r.
    + intros key. now rewrite app_nil_r.
    + now rewrite app_nil_r.
  - destruct (first_occupation_some h) as [k Hk]; [apply Hocc; now left|].
    assert (Hrest : forall h', In h' hs -> SuperHero.occupation h' <> [])
      by (intros h' Hin; apply Hocc; now right).
    assert (Hkeys : keys_of (h :: hs) = k :: keys_of hs)
      by (unfold keys_of; simpl; now rewrite Hk).
    assert (Hmem : forall key, members_of key (h :: hs) =
                     if String.eqb key k then h :: members_of key hs
                     else members_of key hs).
    { intros key. unfold members_of. simpl. rewrite Hk.
      rewrite (String.eqb_sym k key). reflexivity. }
    cbn [prepare_from]. unfold prepare_step. rewrite Hk.
    destruct (Dict.mem k d) eqn:Em; cbn [negb].
    + destruct (IH (Dict.append k h d) Hrest) as [d' [Hrun [Hks [Hget Hperm]]]].
      exists d'. split; [exact Hrun|]. rewrite keys_append in Hks.
      repeat split.
      * rewrite Hkeys. simpl. rewrite <- mem_keys, Em. exact Hks.
      * intros key. rewrite Hget, Hmem, getitem_append by exact Em.
        destruct (String.eqb key k); [|reflexivity].
        now rewrite <- app_assoc.
      * rewrite Hperm. rewrite (concat_append k h d Em).
        now rewrite <- app_assoc.
    + destruct (IH (Dict.update k [h] d) Hrest) as [d' [Hrun [Hks [Hget Hperm]]]].
      exists d'. split; [exact Hrun|].
      rewrite keys_update_fresh in Hks, Hget by exact Em.
      repeat split.
      * rewrite Hkeys. simpl. rewrite <- mem_keys, Em.
        unfold Dict.keys in *. rewrite map_app in Hks. simpl in Hks.
        now rewrite <- app_assoc in Hks.
      * intros key. rewrite Hget, Hmem, getitem_app_fresh by exact Em.
        destruct (String.eqb key k) eqn:E; [|reflexivity].
        apply String.eqb_eq in E. subst key.
        now rewrite (getitem_absent k d Em).
      * rewrite Hperm. rewrite (concat_update_fresh k h d Em).
        now rewrite <- app_assoc.
Qed.

Lemma first_occurrences_fresh (ks : list string) : forall seen k,
  In k (first_occurrences seen ks) -> ~ In k seen /\ In k ks.
Proof.
  induction ks as [|k0 ks IH]; intros seen k; simpl; [tauto|].
  destruct (existsb (String.eqb k0) seen) eqn:E.
  - intros H. destruct (IH _ _ H). tauto.
  - intros [H|H].
    + subst k0. split; [|now left].
      intros Hin. apply existsb_eqb_In in Hin. congruence.
    + destruct (IH _ _ H) as [Hn Hi]. split; [|now right].
      intros Hin. apply Hn. apply in_or_app. now left.
Qed.

Lemma first_occurrences_NoDup (ks : list string) : forall seen,
  NoDup (first_occurrences seen ks).
Proof.
  induction ks as [|k ks IH]; intros seen; simpl; [constructor|].
  destruct (existsb (String.eqb k) seen); [apply IH|].
  constructor; [|apply IH].
  intros Hin. apply first_occurrences_fresh in Hin. destruct Hin as [Hn _].
  apply Hn. apply in_or_app. right. now left.
Qed.

Lemma first_occurrences_complete (ks : list string) : forall seen k,
  In k ks -> In k seen \/ In k (first_occurrences seen ks).
Proof.
  induction ks as [|k0 ks IH]; intros seen k; simpl; [tauto|].
  intros [H|H].
  - subst k0. destruct (existsb (String.eqb k) seen) eqn:E.
    + left. now apply existsb_eqb_In.
    + right. now left.
  - destruct (existsb (String.eqb k0) seen) eqn:E.
    + apply IH. exact H.
    + destruct (IH (seen ++ [k0]) k H) as [Hs|Hf].
      * apply in_app_or in Hs. destruct Hs as [Hs|[Hs|[]]].
        -- now left.
        -- subst. right. now left.
      * right. now right.
Qed.

Lemma get_of_In (key : string) (v : list hero) (d : Dict.t) :
  NoDup (Dict.keys d) -> In (key, v) d -> Dict.get key d = Some v.
Proof.
  induction d as [|[k w] d IH]; simpl; [tauto|].
  intros Hnd [H|H].
  - injection H as -> ->. now rewrite String.eqb_refl.
  - inversion Hnd as [|? ? Hnot Hnd']; subst.
    destruct (String.eqb key k) eqn:E.
    + apply String.eqb_eq in E. subst k. exfalso. apply Hnot.
      change key with (fst (key, v)). now apply in_map.
    + now apply IH.
Qed.

(** The [KeyError] branch of [getitem] is not taken on a key of the
    dictionary. *)
Lemma getitem_of_key (key : string) (d : Dict.t) :
  In key (Dict.keys d) -> exists v, Dict.get key d = Some v.
Proof.
  induction d as [|[k w] d IH]; simpl; [tauto|].
  intros [H|H].
  - subst k. rewrite String.eqb_refl. now exists w.
  - destruct (String.eqb key k); [now exists w | now apply IH].
Qed.

End GrouperFacts.

(** C3.  For every sequence of records whose occupation sequences are not
    empty, [_prepare_data] returns a dictionary (it does not raise) in which:
    the keys are the first occupations of the input in order of first
    occurrence, without repetition; the group of a key is the sub-sequence of
    the input records whose first occupation is that key, in input order; a
    record occurs in a group only if the key of the group is its first
    occupation, and every input record occurs in the group of its first
    occupation; and the groups, put end to end, are a rearrangement of the
    input, so every input record appears exactly once. *)
Theorem prepare_data_partition (super_heroes : list hero)
  (Hocc : forall h, In h super_heroes -> SuperHero.occupation h <> []) :
  exists d : Dict.t,
    Grouper._prepare_data super_heroes = Some d /\
    Dict.keys d =
      Grouper.first_occurrences [] (Grouper.keys_of super_heroes) /\
    NoDup (Dict.keys d) /\
    (forall key members, In (key, members) d ->
       members = Grouper.members_of key super_heroes) /\
    (forall h key members, In (key, members) d -> In h members ->
       Grouper.first_occupation h = Some key) /\
    (forall h, In h super_heroes ->
       exists key members, Grouper.first_occupation h = Some key /\
         In (key, members) d /\ In h members) /\
    Permutation (List.concat (map snd d)) super_heroes.
Proof.
  destruct (prepare_from_spec super_heroes [] Hocc)
    as [d [Hrun [Hkeys [Hget Hperm]]]].
  simpl in Hkeys, Hperm.
  assert (Hnd : NoDup (Dict.keys d))
    by (rewrite Hkeys; apply first_occurrences_NoDup).
  assert (Hmembers : forall key members, In (key, members) d ->
            members = Grouper.members_of key super_heroes).
  { intros key members Hin.
    pose proof (get_of_In key members d Hnd Hin) as Hg.
    specialize (Hget key). unfold PDF.getitem in Hget.
    rewrite Hg in Hget. exact Hget. }
  exists d. repeat split; try assumption.
  - intros h key members Hin Hh.
    rewrite (Hmembers _ _ Hin) in Hh.
    unfold Grouper.members_of in Hh. apply filter_In in Hh.
    destruct Hh as [_ Hh].
    destruct (Grouper.first_occupation h) as [k|]; [|discriminate].
    apply String.eqb_eq in Hh. now subst.
  - intros h Hin.
    destruct (first_occupation_some h (Hocc h Hin)) as [key Hk].
    assert (Hkin : In key (Grouper.keys_of super_heroes)).
    { unfold Grouper.keys_of. apply in_flat_map. exists h.
      split; [exact Hin|]. rewrite Hk. now left. }
    destruct (first_occurrences_complete _ [] key Hkin) as [[]|Hfo].
    rewrite <- Hkeys in Hfo. unfold Dict.keys in Hfo.
    apply in_map_iff in Hfo. destruct Hfo as [[k members] [Hfst Hd]].
    simpl in Hfst. subst k.
    exists key, members. repeat split; try assumption.
    rewrite (Hmembers _ _ Hd). unfold Grouper.members_of.
    apply filter_In. split; [exact Hin|].
    rewrite Hk. apply String.eqb_refl.
Qed.

Lemma prepare_data_partition_witness :
  exists d : Dict.t,
    Grouper._prepare_data Sample.six_heroes = Some d /\
    Dict.keys d =
      Grouper.first_occurrences [] (Grouper.keys_of Sample.six_heroes) /\
    NoDup (Dict.keys d) /\
    (forall key members, In (key, members) d ->
       members = Grouper.members_of key Sample.six_heroes) /\
    (forall h key members, In (key, members) d -> In h members ->
       Grouper.first_occupation h = Some key) /\
    (forall h, In h Sample.six_heroes ->
       exists key members, Grouper.first_occupation h = Some key /\
         In (key, members) d /\ In h members) /\
    Permutation (List.concat (map snd d)) Sample.six_heroes.
Proof.
  apply (prepare_data_partition Sample.six_heroes).
  intros h Hin. simpl in Hin.
  repeat (destruct Hin as [<-|Hin]; [simpl; discriminate|]).
  contradiction.
Defined.

(** The grouping of the six sample heroes. *)
Example prepare_six :
  Grouper._prepare_data Sample.six_heroes = Some Sample.six_grouped.
Proof. reflexivity. Qed.

(** A record without occupation makes [_prepare_data] raise. *)
Example prepare_no_occupation :
  Grouper._prepare_data
    [SuperHero.mk 1 "Nobody" [] (SuperHero.Str "-") (SuperHero.Str "-") "-" "-"]
  = None.
Proof. reflexivity. Qed.

(** ** The layout engine, step by step *)

(** Runs the straight-line part of a method: the monad, the setters and the
    projections are unfolded, the arithmetic is left as written. *)
Ltac run_engine :=
  cbv [PDF.hero_image PDF.hero_paragraphs PDF.hero_draw PDF.hero_gap
       PDF._draw_info_paragraph PDF._draw_paragraph PDF._draw_heading
       PDF.bind PDF.gets PDF.modify PDF.emit PDF.ret
       PDF.value PDF.state PDF.calls app
       PDF.set_bottom PDF.set_page_items PDF.set_right_info
       PDF.set_right_image
       PDF.data PDF.file_name PDF.title PDF._bottom PDF._page_items
       PDF._font PDF._right_info PDF._right_image].

Section EngineFacts.
Import PDF Units.
Local Open Scope Q_scope.

Variable wrap : string -> Q -> Q -> Q.
Variable hero_eq : hero -> hero -> bool.

Lemma draw_paragraph_run (msg : string) (x y : Q) (st : PDF.t) :
  _draw_paragraph wrap msg x y st =
  Outcome tt (set_bottom (_bottom st - rendered_height wrap msg - 12) st)
          [DrawOn msg x (y - rendered_height wrap msg)].
Proof. reflexivity. Qed.

Lemma draw_info_paragraph_run (ttl msg : string) (st : PDF.t) :
  _draw_info_paragraph wrap ttl msg st =
  Outcome tt
    (set_bottom (_bottom st - rendered_height wrap (info_markup ttl msg) - 12) st)
    [DrawOn (info_markup ttl msg) (_right_info st)
            (_bottom st - rendered_height wrap (info_markup ttl msg))].
Proof. reflexivity. Qed.

Lemma draw_heading_run (msg : string) (size : Q) (st : PDF.t) :
  _draw_heading msg size st =
  Outcome tt (set_bottom (_bottom st - inch / 2) st)
          [SetFont (_font st) size; DrawString inch (_bottom st) msg].
Proof. reflexivity. Qed.

Lemma shared_occupation_run (key : string) (st : PDF.t) :
  _shared_occupation key st =
  Outcome ((1 <? Z.of_nat (List.length (getitem (data st) key)))%Z
           && negb (String.eqb key "-")) st [].
Proof. reflexivity. Qed.

Lemma shared_occupation_iff (key : string) (st : PDF.t) (members : list hero) :
  Dict.get key (data st) = Some members ->
  (value (_shared_occupation key st) = true <->
   (1 < List.length members)%nat /\ key <> "-"%string).
Proof.
  intros Hget. rewrite shared_occupation_run. cbn [value].
  unfold getitem. rewrite Hget.
  rewrite andb_true_iff, negb_true_iff, Z.ltb_lt, String.eqb_neq.
  split; intros [H1 H2]; split; try assumption; lia.
Qed.

Lemma group_head_shared (key : string) (st : PDF.t) :
  value (_shared_occupation key st) = true ->
  group_head key st =
  Outcome tt
    (set_page_items (_page_items st + 1)
       (set_bottom (_bottom st - inch / 2)
          (set_right_image (inch + inch / 2)
             (set_right_info (2 * inch + inch / 2 + inch / 2) st))))
    [SetFont (_font st) 16; DrawString inch (_bottom st) key].
Proof.
  rewrite shared_occupation_run. cbn [value]. intros H.
  cbv [group_head _shared_occupation bind gets modify emit ret
       value state calls app].
  change (data (set_right_image inch (set_right_info (2 * inch + inch / 2) st)))
    with (data st).
  rewrite H. run_engine. reflexivity.
Qed.

Lemma group_head_not_shared (key : string) (st : PDF.t) :
  value (_shared_occupation key st) = false ->
  group_head key st =
  Outcome tt (set_right_image inch (set_right_info (2 * inch + inch / 2) st)) [].
Proof.
  rewrite shared_occupation_run. cbn [value]. intros H.
  cbv [group_head _shared_occupation bind gets modify emit ret
       value state calls app].
  change (data (set_right_image inch (set_right_info (2 * inch + inch / 2) st)))
    with (data st).
  rewrite H. run_engine. reflexivity.
Qed.

Lemma hero_image_run (h : hero) (st : PDF.t) :
  hero_image h st =
  Outcome (_bottom st - 640 / 5)
    (set_page_items (_page_items st + 1) st)
    [SetFont (_font st) 11;
     DrawImage (SuperHero.picture h) (_right_image st)
               (_bottom st - 640 / 5 + 20) (480 / 5) (640 / 5)].
Proof. run_engine. reflexivity. Qed.

Lemma hero_paragraphs_run (h : hero) (st : PDF.t) :
  let H := rendered_height wrap in
  let b := _bottom st in
  hero_paragraphs wrap h st =
  Outcome tt
    (set_bottom (b - H (full_name_markup h) - 12 - H (alter_egos_markup h) - 12 - H (aliases_markup h) - 12
                   - H (birth_markup h) - 12) st)
    [DrawOn (full_name_markup h) (_right_info st) (b - H (full_name_markup h));
     DrawOn (alter_egos_markup h) (_right_info st) (b - H (full_name_markup h) - 12 - H (alter_egos_markup h));
     DrawOn (aliases_markup h) (_right_info st)
            (b - H (full_name_markup h) - 12 - H (alter_egos_markup h) - 12 - H (aliases_markup h));
     DrawOn (birth_markup h) (_right_info st)
            (b - H (full_name_markup h) - 12 - H (alter_egos_markup h) - 12 - H (aliases_markup h) - 12 - H (birth_markup h))].
Proof. run_engine. reflexivity. Qed.

Lemma hero_draw_state (h : hero) (st : PDF.t) :
  state (hero_draw wrap h st) =
  set_bottom (_bottom st - 640 / 5) (set_page_items (_page_items st + 1) st).
Proof. run_engine. reflexivity. Qed.

Lemma hero_draw_calls (h : hero) (st : PDF.t) :
  calls (hero_draw wrap h st) =
  calls (hero_image h st)
  ++ calls (hero_paragraphs wrap h (set_page_items (_page_items st + 1) st)).
Proof. run_engine. reflexivity. Qed.

Lemma hero_separator_drawn (key : string) (heroes : list hero) (h : hero)
  (st : PDF.t) :
  value (_shared_occupation key st) && hero_eq h (last heroes h) = true ->
  hero_separator hero_eq key heroes h st =
  Outcome tt (set_bottom (_bottom st - inch / 4) st)
          [DrawString inch (_bottom st) rule].
Proof.
  rewrite shared_occupation_run. cbn [value]. intros H.
  unfold hero_separator, bind. rewrite shared_occupation_run.
  cbn [value state calls]. rewrite H. reflexivity.
Qed.

Lemma hero_separator_skipped (key : string) (heroes : list hero) (h : hero)
  (st : PDF.t) :
  value (_shared_occupation key st) && hero_eq h (last heroes h) = false ->
  hero_separator hero_eq key heroes h st = Outcome tt st [].
Proof.
  rewrite shared_occupation_run. cbn [value]. intros H.
  unfold hero_separator, bind. rewrite shared_occupation_run.
  cbn [value state calls]. rewrite H. reflexivity.
Qed.

Lemma hero_gap_run (st : PDF.t) :
  hero_gap st = Outcome tt (set_bottom (_bottom st - inch / 4) st) [].
Proof. run_engine. reflexivity. Qed.

Lemma page_check_break (st : PDF.t) :
  _page_items st = 5%Z ->
  page_check st =
  Outcome tt (set_bottom (11 * inch) (set_page_items 0 st)) [ShowPage].
Proof.
  intros H. unfold page_check, bind, gets. cbn [value state calls].
  rewrite H. reflexivity.
Qed.

Lemma page_check_no_break (st : PDF.t) :
  _page_items st <> 5%Z -> page_check st = Outcome tt st [].
Proof.
  intros H. unfold page_check, bind, gets. cbn [value state calls].
  apply Z.eqb_neq in H. rewrite H. reflexivity.
Qed.

(** Nothing in the engine assigns [self.data]. *)
Lemma keeps_ret {A : Type} (a : A) : keeps_data (ret a).
Proof. intros s. reflexivity. Qed.

Lemma keeps_gets {A : Type} (f : PDF.t -> A) : keeps_data (gets f).
Proof. intros s. reflexivity. Qed.

Lemma keeps_emit (c : call) : keeps_data (emit c).
Proof. intros s. reflexivity. Qed.

Lemma keeps_set_bottom (b : Q) : keeps_data (modify (set_bottom b)).
Proof. intros s. reflexivity. Qed.

Lemma keeps_set_page_items (n : Z) : keeps_data (modify (set_page_items n)).
Proof. intros s. reflexivity. Qed.

Lemma keeps_set_right_info (x : Q) : keeps_data (modify (set_right_info x)).
Proof. intros s. reflexivity. Qed.

Lemma keeps_set_right_image (x : Q) : keeps_data (modify (set_right_image x)).
Proof. intros s. reflexivity. Qed.

Lemma keeps_bind {A B : Type} (m : M A) (k : A -> M B) :
  keeps_data m -> (forall a, keeps_data (k a)) -> keeps_data (bind m k).
Proof.
  intros Hm Hk s. unfold bind. cbn [state].
  rewrite Hk. apply Hm.
Qed.

Lemma keeps_if {A : Type} (c : bool) (m m' : M A) :
  keeps_data m -> keeps_data m' -> keeps_data (if c then m else m').
Proof. destruct c; auto. Qed.

Lemma keeps_for_each {A : Type} (l : list A) (body : A -> M unit) :
  (forall x, keeps_data (body x)) -> keeps_data (for_each l body).
Proof.
  intros Hb. induction l as [|x l IH]; cbn [for_each].
  - apply keeps_ret.
  - apply keeps_bind; auto.
Qed.

Create HintDb keeps.
#[local] Hint Resolve keeps_ret keeps_gets keeps_emit keeps_set_bottom
  keeps_set_page_items keeps_set_right_info keeps_set_right_image
  keeps_if : keeps.
#[local] Hint Extern 2 (keeps_data (bind _ _)) =>
  apply keeps_bind; [|intro] : keeps.
#[local] Hint Extern 2 (keeps_data (for_each _ _)) =>
  apply keeps_for_each; intro : keeps.

Ltac keeps := auto 30 with keeps.

Lemma keeps_draw_heading (msg : string) (size : Q) :
  keeps_data (_draw_heading msg size).
Proof. unfold _draw_heading. keeps. Qed.

Lemma keeps_shared_occupation (key : string) :
  keeps_data (_shared_occupation key).
Proof. unfold _shared_occupation. keeps. Qed.

Lemma keeps_draw_info_paragraph (ttl msg : string) :
  keeps_data (_draw_info_paragraph wrap ttl msg).
Proof. unfold _draw_info_paragraph, _draw_paragraph. keeps. Qed.

#[local] Hint Resolve keeps_draw_heading keeps_shared_occupation
  keeps_draw_info_paragraph : keeps.

Lemma keeps_group_head (key : string) : keeps_data (group_head key).
Proof. unfold group_head. keeps. Qed.

Lemma keeps_place_hero (key : string) (heroes : list hero) (h : hero) :
  keeps_data (place_hero wrap hero_eq key heroes h).
Proof.
  unfold place_hero, hero_draw, hero_image, hero_paragraphs, hero_separator,
    hero_gap, page_check.
  keeps.
Qed.

#[local] Hint Resolve keeps_group_head keeps_place_hero : keeps.

Lemma keeps_layout_group (key : string) :
  keeps_data (layout_group wrap hero_eq key).
Proof. unfold layout_group. keeps. Qed.

End EngineFacts.

(** ** Headings *)

(** C2, as the code has it.  For every group of the dictionary, the head of
    the group loop draws a heading exactly when the group has more than one
    member and its key is not the placeholder tag, which is the string "-".
    When it does, the heading is the key in 16 point at the left margin of
    one inch and at the cursor, the page-item counter goes up by one and the
    two left margins are half an inch wider than their defaults; when it
    does not, nothing is drawn, the counter is unchanged and the margins are
    the defaults. *)
Theorem group_head_heading (st : PDF.t) (key : string) (members : list hero)
  (Hget : Dict.get key (PDF.data st) = Some members) :
  let r := PDF.group_head key st in
  let default_info := (2 * Units.inch + Units.inch / 2)%Q in
  let default_image := Units.inch in
  ((1 < List.length members)%nat /\ key <> "-"%string ->
     PDF.calls r = [PDF.SetFont (PDF._font st) 16;
                    PDF.DrawString Units.inch (PDF._bottom st) key] /\
     PDF._page_items (PDF.state r) = (PDF._page_items st + 1)%Z /\
     PDF._right_info (PDF.state r) = (default_info + Units.inch / 2)%Q /\
     PDF._right_image (PDF.state r) = (default_image + Units.inch / 2)%Q) /\
  (~ ((1 < List.length members)%nat /\ key <> "-"%string) ->
     PDF.calls r = [] /\
     PDF._page_items (PDF.state r) = PDF._page_items st /\
     PDF._right_info (PDF.state r) = default_info /\
     PDF._right_image (PDF.state r) = default_image).
Proof.
  intros r default_info default_image.
  pose proof (shared_occupation_iff key st members Hget) as Hiff.
  split; intros Hc.
  - apply Hiff in Hc. unfold r. rewrite (group_head_shared key st Hc).
    repeat split.
  - assert (Hs : PDF.value (PDF._shared_occupation key st) = false).
    { destruct (PDF.value (PDF._shared_occupation key st)); [|reflexivity].
      exfalso. apply Hc. now apply Hiff. }
    unfold r. rewrite (group_head_not_shared key st Hs).
    repeat split.
Qed.

Lemma group_head_heading_witness :
  let st := Sample.pdf_of Sample.vigilantes in
  let r := PDF.group_head "Vigilante" st in
  PDF.calls r = [PDF.SetFont "Helvetica" 16;
                 PDF.DrawString Units.inch (11 * Units.inch)%Q "Vigilante"] /\
  PDF._page_items (PDF.state r) = 1%Z.
Proof.
  destruct (group_head_heading (Sample.pdf_of Sample.vigilantes) "Vigilante"
              [Sample.nightwing; Sample.huntress] eq_refl) as [Hdraw _].
  destruct Hdraw as [Hcalls [Hitems _]].
  - split; [simpl; lia | discriminate].
  - split; [exact Hcalls | exact Hitems].
Defined.

(** C2, as the spec words it, fails on the code: a group of two keyed
    "unknown" gets a heading, and a group of two keyed "-" gets none although
    its key is not "unknown". *)
Lemma heading_unknown_key :
  PDF.calls (PDF.group_head "unknown" (Sample.pdf_of Sample.unknowns)) =
    [PDF.SetFont "Helvetica" 16;
     PDF.DrawString Units.inch (11 * Units.inch)%Q "unknown"] /\
  Dict.get "-" Sample.placeholders = Some [Sample.cyborg; Sample.raven] /\
  PDF.calls (PDF.group_head "-" (Sample.pdf_of Sample.placeholders)) = [].
Proof. repeat split. Qed.

(** ** Paragraphs *)

(** C4, as the code has it.  Every labelled paragraph is drawn at the info
    margin with its top at the cursor, and moves the cursor down by the height
    the backend returned plus 12; the four paragraphs of a hero do so one
    after the other.  The 12 is a number of points, one sixth of an inch. *)
Theorem paragraph_advance (wrap : string -> Q -> Q -> Q) :
  (forall (ttl msg : string) (st : PDF.t),
     let h := PDF.rendered_height wrap (PDF.info_markup ttl msg) in
     let r := PDF._draw_info_paragraph wrap ttl msg st in
     PDF._bottom (PDF.state r) = (PDF._bottom st - h - 12)%Q /\
     PDF.calls r = [PDF.DrawOn (PDF.info_markup ttl msg) (PDF._right_info st)
                               (PDF._bottom st - h)%Q]) /\
  (forall (h : hero) (st : PDF.t),
     let H := PDF.rendered_height wrap in
     let b := PDF._bottom st in
     let r := PDF.hero_paragraphs wrap h st in
     PDF._bottom (PDF.state r) =
       (b - H (PDF.full_name_markup h) - 12 - H (PDF.alter_egos_markup h) - 12
          - H (PDF.aliases_markup h) - 12 - H (PDF.birth_markup h) - 12)%Q /\
     map (fun c => match c with PDF.DrawOn m _ _ => m | _ => EmptyString end)
         (PDF.calls r) = PDF.hero_markups h) /\
  (12 == (1 # 6) * Units.inch)%Q.
Proof.
  split; [|split].
  - intros ttl msg st h r. unfold r, h.
    rewrite draw_info_paragraph_run. split; reflexivity.
  - intros h st H b r. unfold r.
    rewrite hero_paragraphs_run. split; reflexivity.
  - reflexivity.
Qed.

(** C4, as the spec words it, fails on the code: with a one-line paragraph of
    12 points drawn at the top of the page, the cursor goes from 792 to 768
    points, not down by the height plus twelve inches. *)
Lemma paragraph_gap_is_not_twelve_inches :
  let st := Sample.pdf_of Sample.vigilantes in
  let r := PDF._draw_info_paragraph Sample.one_line "Full name" "Dick Grayson" st in
  let h := PDF.rendered_height Sample.one_line
             (PDF.info_markup "Full name" "Dick Grayson") in
  (PDF._bottom (PDF.state r) == 768)%Q /\
  ~ (PDF._bottom (PDF.state r) == PDF._bottom st - (h + 12 * Units.inch))%Q.
Proof.
  split.
  - vm_compute. reflexivity.
  - vm_compute. discriminate.
Qed.

(** ** One hero *)

Section HeroFacts.
Import PDF Units.
Local Open Scope Q_scope.

Variable wrap : string -> Q -> Q -> Q.
Variable hero_eq : hero -> hero -> bool.

Lemma bind_calls {A B : Type} (m : M A) (k : A -> M B) (s : PDF.t) :
  calls (bind m k s) = calls (m s) ++ calls (k (value (m s)) (state (m s))).
Proof. reflexivity. Qed.

Lemma bind_state {A B : Type} (m : M A) (k : A -> M B) (s : PDF.t) :
  state (bind m k s) = state (k (value (m s)) (state (m s))).
Proof. reflexivity. Qed.

(** What follows the paragraphs in the body of the loop over the members. *)
Lemma place_hero_state (key : string) (heroes : list hero) (h : hero)
  (st : PDF.t) :
  state (place_hero wrap hero_eq key heroes h st) =
  state (page_check
    (state (hero_gap
      (state (hero_separator hero_eq key heroes h
        (state (hero_draw wrap h st))))))).
Proof. unfold place_hero. now rewrite !bind_state. Qed.

Lemma place_hero_calls (key : string) (heroes : list hero) (h : hero)
  (st : PDF.t) :
  let s1 := state (hero_draw wrap h st) in
  let s2 := state (hero_separator hero_eq key heroes h s1) in
  let s3 := state (hero_gap s2) in
  calls (place_hero wrap hero_eq key heroes h st) =
  calls (hero_draw wrap h st)
  ++ calls (hero_separator hero_eq key heroes h s1)
  ++ calls (hero_gap s2)
  ++ calls (page_check s3).
Proof. unfold place_hero. now rewrite !bind_calls. Qed.

Lemma hero_draw_no_rule (h : hero) (st : PDF.t) :
  filter is_rule (calls (hero_draw wrap h st)) = [].
Proof.
  rewrite hero_draw_calls, hero_image_run, hero_paragraphs_run.
  reflexivity.
Qed.

Lemma page_check_no_rule (st : PDF.t) :
  filter is_rule (calls (page_check st)) = [].
Proof.
  destruct (Z.eq_dec (_page_items st) 5) as [E|E].
  - now rewrite page_check_break.
  - now rewrite page_check_no_break.
Qed.

Lemma is_rule_rule (x y : Q) : is_rule (DrawString x y rule) = true.
Proof. unfold is_rule. apply String.eqb_refl. Qed.

(** The separators a hero leaves in the trace are those of
    [hero_separator]. *)
Lemma place_hero_rules (key : string) (heroes : list hero) (h : hero)
  (st : PDF.t) :
  filter is_rule (calls (place_hero wrap hero_eq key heroes h st)) =
  filter is_rule
    (calls (hero_separator hero_eq key heroes h (state (hero_draw wrap h st)))).
Proof.
  rewrite place_hero_calls. cbv zeta.
  rewrite !filter_app, hero_draw_no_rule, page_check_no_rule, hero_gap_run.
  cbn [calls filter app]. now rewrite app_nil_r.
Qed.

Lemma shared_occupation_data (key : string) (s s' : PDF.t) :
  data s = data s' ->
  value (_shared_occupation key s) = value (_shared_occupation key s').
Proof.
  intros H. rewrite !shared_occupation_run. cbn [value]. now rewrite H.
Qed.

End HeroFacts.

(** C5.  For every hero, whatever heights the backend returns: the slot of
    the image is the cursor at the start of the hero less 640/5, and the image
    is drawn 20 above it; the four paragraphs then move the cursor down by
    their heights and gaps; the assignment that follows puts the cursor at the
    slot; so the state after the paragraphs-and-reset, and the state after the
    whole body of the loop, are the same for any two backends. *)
Theorem cursor_snaps_below_image (wrap : string -> Q -> Q -> Q) (h : hero)
  (st : PDF.t) :
  let slot := (PDF._bottom st - 640 / 5)%Q in
  let H := PDF.rendered_height wrap in
  let s1 := PDF.state (PDF.hero_image h st) in
  let s2 := PDF.state (PDF.hero_paragraphs wrap h s1) in
  PDF.value (PDF.hero_image h st) = slot /\
  In (PDF.DrawImage (SuperHero.picture h) (PDF._right_image st)
                    (slot + 20)%Q (480 / 5)%Q (640 / 5)%Q)
     (PDF.calls (PDF.hero_draw wrap h st)) /\
  PDF._bottom s2 =
    (PDF._bottom st - H (PDF.full_name_markup h) - 12
       - H (PDF.alter_egos_markup h) - 12
       - H (PDF.aliases_markup h) - 12 - H (PDF.birth_markup h) - 12)%Q /\
  PDF._bottom (PDF.state (PDF.hero_draw wrap h st)) = slot /\
  (forall wrap', PDF.state (PDF.hero_draw wrap' h st) =
                 PDF.state (PDF.hero_draw wrap h st)) /\
  (forall wrap' hero_eq key heroes,
     PDF.state (PDF.place_hero wrap' hero_eq key heroes h st) =
     PDF.state (PDF.place_hero wrap hero_eq key heroes h st)).
Proof.
  intros slot H s1 s2.
  split; [reflexivity|].
  split.
  { rewrite hero_draw_calls, hero_image_run. cbn [PDF.calls].
    right. left. reflexivity. }
  split.
  { unfold s2. rewrite hero_paragraphs_run. reflexivity. }
  split; [now rewrite hero_draw_state|].
  split.
  { intros wrap'. now rewrite !hero_draw_state. }
  intros wrap' hero_eq key heroes.
  rewrite !place_hero_state, !hero_draw_state. reflexivity.
Qed.

(** The cursor after the paragraphs of a hero, with a backend of one line
    per paragraph and with one that wraps long text: it differs before the
    reset and not after. *)
Example cursor_snap_batman :
  let st := Sample.pdf_of Sample.vigilantes in
  let after w := PDF._bottom (PDF.state (PDF.hero_paragraphs w Sample.batman
                    (PDF.state (PDF.hero_image Sample.batman st)))) in
  (after Sample.one_line == 696)%Q /\
  (after Sample.by_length == 684)%Q /\
  (PDF._bottom (PDF.state (PDF.hero_draw Sample.one_line Sample.batman st))
   == 664)%Q /\
  (PDF._bottom (PDF.state (PDF.hero_draw Sample.by_length Sample.batman st))
   == 664)%Q.
Proof. repeat split. Qed.

(** ** Separators *)

(** C6, as the code has it, for a group in which [==] holds between a member
    and the last one exactly at the last position (no earlier member equals
    the last).  After the member at position [i] the line of eighty
    underscores is drawn at the left margin and at the cursor, and the cursor
    moves down a quarter of an inch, exactly when the member is the last of
    the group, the group has more than one member and its key is not the
    placeholder "-"; otherwise nothing is drawn and the state is unchanged.  A
    group of one member, or a group keyed "-", gets no separator. *)
Theorem separator_after_last_member (hero_eq : hero -> hero -> bool)
  (st : PDF.t) (key : string) (heroes : list hero) (i : nat) (h : hero)
  (Hget : Dict.get key (PDF.data st) = Some heroes)
  (Hi : nth_error heroes i = Some h)
  (Hlast : forall j h', nth_error heroes j = Some h' ->
     (hero_eq h' (last heroes h') = true <-> S j = List.length heroes)) :
  let r := PDF.hero_separator hero_eq key heroes h st in
  (S i = List.length heroes /\ (1 < List.length heroes)%nat /\
   key <> "-"%string ->
     PDF.calls r = [PDF.DrawString Units.inch (PDF._bottom st) PDF.rule] /\
     PDF._bottom (PDF.state r) = (PDF._bottom st - Units.inch / 4)%Q) /\
  (~ (S i = List.length heroes /\ (1 < List.length heroes)%nat /\
      key <> "-"%string) ->
     PDF.calls r = [] /\ PDF.state r = st) /\
  ((List.length heroes = 1%nat \/ key = "-"%string) -> PDF.calls r = []).
Proof.
  intros r.
  pose proof (shared_occupation_iff key st heroes Hget) as Hsh.
  pose proof (Hlast i h Hi) as Heq.
  assert (Hcond :
    PDF.value (PDF._shared_occupation key st) && hero_eq h (last heroes h) = true
    <-> S i = List.length heroes /\ (1 < List.length heroes)%nat /\
        key <> "-"%string).
  { rewrite andb_true_iff, Hsh, Heq. tauto. }
  assert (Hskip : ~ (S i = List.length heroes /\ (1 < List.length heroes)%nat /\
                     key <> "-"%string) ->
                  PDF.calls r = [] /\ PDF.state r = st).
  { intros Hn. unfold r. rewrite hero_separator_skipped; [now split|].
    destruct (PDF.value (PDF._shared_occupation key st)
              && hero_eq h (last heroes h)); [|reflexivity].
    exfalso. apply Hn. now apply Hcond. }
  split; [|split].
  - intros Hc. apply Hcond in Hc. unfold r.
    rewrite (hero_separator_drawn hero_eq key heroes h st Hc).
    split; reflexivity.
  - exact Hskip.
  - intros Hone. apply Hskip. intros [_ [Hlen Hkey]].
    destruct Hone as [Hone|Hone]; [lia | contradiction].
Qed.

Lemma separator_after_last_member_witness :
  let st := Sample.pdf_of Sample.vigilantes in
  let r := PDF.hero_separator Sample.value_eq "Vigilante"
             [Sample.nightwing; Sample.huntress] Sample.huntress st in
  PDF.calls r = [PDF.DrawString Units.inch (PDF._bottom st) PDF.rule] /\
  PDF._bottom (PDF.state r) = (PDF._bottom st - Units.inch / 4)%Q.
Proof.
  assert (Hlast : forall j h',
    nth_error [Sample.nightwing; Sample.huntress] j = Some h' ->
    (Sample.value_eq h' (last [Sample.nightwing; Sample.huntress] h') = true
     <-> S j = List.length [Sample.nightwing; Sample.huntress])).
  { intros [|[|[|j]]] h' Hn; simpl in Hn; try discriminate;
      injection Hn as <-; vm_compute; split; intros H;
      solve [reflexivity | discriminate H]. }
  destruct (separator_after_last_member Sample.value_eq
              (Sample.pdf_of Sample.vigilantes) "Vigilante"
              [Sample.nightwing; Sample.huntress] 1 Sample.huntress
              eq_refl eq_refl Hlast) as [Hdraw _].
  apply Hdraw. repeat split; [simpl; lia | discriminate].
Defined.

(** The scenario of one group of two: the heading, the first hero, the
    second hero and then the separator; three page items, no page break. *)
Example vigilante_scenario :
  let r := PDF.create_pdf Sample.one_line Sample.value_eq
             (Sample.pdf_of Sample.vigilantes) in
  map (fun c => match c with
                | PDF.SetFont _ size => Some (Qnum size)
                | PDF.DrawString _ _ text => Some (Z.of_nat (String.length text))
                | PDF.DrawImage _ _ _ _ _ => Some (-1)%Z
                | _ => None
                end) (PDF.calls r)
  = [None; Some 18; Some 32; Some 16; Some 9;
     Some 11; Some (-1); None; None; None; None;
     Some 11; Some (-1); None; None; None; None; Some 80;
     None; None]%Z /\
  PDF._page_items (PDF.state r) = 3%Z /\
  filter PDF.is_show_page (PDF.calls r) = [].
Proof. vm_compute. repeat split. Qed.

(** The scenario of a group keyed by the placeholder: neither heading nor
    separator, whatever its size. *)
Example placeholder_scenario :
  let d := [("-"%string, [Sample.cyborg; Sample.raven; Sample.bane])] in
  let r := PDF.create_pdf Sample.one_line Sample.value_eq (Sample.pdf_of d) in
  filter PDF.is_rule (PDF.calls r) = [] /\
  filter (fun c => match c with PDF.SetFont _ size => Qeq_bool size 16
                              | _ => false end) (PDF.calls r) = [] /\
  PDF._page_items (PDF.state r) = 3%Z.
Proof. vm_compute. repeat split. Qed.

(** C6, as the spec words it, fails on the code twice over.  In a group that
    holds the same record twice the separator follows the member at position
    0, which is not the last; and a group of two keyed "unknown" gets a
    separator. *)
Lemma separator_not_only_after_last :
  nth_error [Sample.huntress; Sample.huntress] 0 = Some Sample.huntress /\
  PDF.calls (PDF.hero_separator Sample.value_eq "Vigilante"
               [Sample.huntress; Sample.huntress] Sample.huntress
               (Sample.pdf_of Sample.twins))
  = [PDF.DrawString Units.inch (11 * Units.inch)%Q PDF.rule] /\
  List.length (filter PDF.is_rule
    (PDF.calls (PDF.create_pdf Sample.one_line Sample.value_eq
                  (Sample.pdf_of Sample.twins)))) = 2%nat /\
  List.length (filter PDF.is_rule
    (PDF.calls (PDF.create_pdf Sample.one_line Sample.value_eq
                  (Sample.pdf_of Sample.unknowns)))) = 1%nat.
Proof. repeat split. Qed.

(** C10.  Take a group of two members with a key other than "-", whose
    first member is [==] to the second (and the second to itself).  Then the
    separator is drawn after the first member, which is not in the final
    position, as well as after the second: each of the two leaves exactly one
    separator line in the trace of its loop body, and the loop over the group
    leaves two. *)
Theorem separator_after_equal_member (wrap : string -> Q -> Q -> Q)
  (hero_eq : hero -> hero -> bool) (st : PDF.t) (key : string) (a b : hero)
  (Hget : Dict.get key (PDF.data st) = Some [a; b])
  (Hkey : key <> "-"%string)
  (Hab : hero_eq a b = true)
  (Hbb : hero_eq b b = true) :
  let first := PDF.place_hero wrap hero_eq key [a; b] a st in
  let second := PDF.place_hero wrap hero_eq key [a; b] b (PDF.state first) in
  filter PDF.is_rule (PDF.calls first) =
    [PDF.DrawString Units.inch (PDF._bottom st - 640 / 5)%Q PDF.rule] /\
  filter PDF.is_rule (PDF.calls second) =
    [PDF.DrawString Units.inch (PDF._bottom (PDF.state first) - 640 / 5)%Q
                    PDF.rule] /\
  List.length (filter PDF.is_rule
    (PDF.calls (PDF.for_each [a; b] (PDF.place_hero wrap hero_eq key [a; b]) st)))
  = 2%nat.
Proof.
  intros first second.
  assert (Hshared : forall s, PDF.data s = PDF.data st ->
            PDF.value (PDF._shared_occupation key s) = true).
  { intros s Hs. apply (shared_occupation_iff key s [a; b]).
    - now rewrite Hs.
    - split; [simpl; lia | exact Hkey]. }
  assert (Hrule : forall s x, PDF.data s = PDF.data st ->
            hero_eq x (last [a; b] x) = true ->
            filter PDF.is_rule
              (PDF.calls (PDF.place_hero wrap hero_eq key [a; b] x s)) =
            [PDF.DrawString Units.inch (PDF._bottom s - 640 / 5)%Q PDF.rule]).
  { intros s x Hs Hx. rewrite place_hero_rules.
    rewrite hero_separator_drawn.
    - cbn [PDF.calls filter]. rewrite is_rule_rule.
      now rewrite hero_draw_state.
    - rewrite Hx, andb_true_r. apply Hshared.
      now rewrite hero_draw_state. }
  assert (H1 : filter PDF.is_rule (PDF.calls first) =
    [PDF.DrawString Units.inch (PDF._bottom st - 640 / 5)%Q PDF.rule])
    by (apply Hrule; [reflexivity | exact Hab]).
  assert (H2 : filter PDF.is_rule (PDF.calls second) =
    [PDF.DrawString Units.inch (PDF._bottom (PDF.state first) - 640 / 5)%Q
                    PDF.rule]).
  { apply Hrule; [|exact Hbb]. apply keeps_place_hero. }
  split; [exact H1|]. split; [exact H2|].
  cbn [PDF.for_each]. rewrite !bind_calls, !filter_app.
  fold first. cbn [PDF.ret PDF.calls PDF.value PDF.state filter].
  change (PDF.place_hero wrap hero_eq key [a; b] b (PDF.state first))
    with second.
  rewrite H1, H2. reflexivity.
Qed.

Lemma separator_after_equal_member_witness :
  let st := Sample.pdf_of Sample.twins in
  List.length (filter PDF.is_rule
    (PDF.calls (PDF.for_each [Sample.huntress; Sample.huntress]
       (PDF.place_hero Sample.one_line Sample.value_eq "Vigilante"
          [Sample.huntress; Sample.huntress]) st))) = 2%nat.
Proof.
  apply (separator_after_equal_member Sample.one_line Sample.value_eq
           (Sample.pdf_of Sample.twins) "Vigilante"
           Sample.huntress Sample.huntress eq_refl).
  - discriminate.
  - reflexivity.
  - reflexivity.
Defined.

(** ** Pages *)

Section PageFacts.
Import PDF Units.
Local Open Scope Q_scope.

Variable wrap : string -> Q -> Q -> Q.
Variable hero_eq : hero -> hero -> bool.

Lemma hero_separator_page_items (key : string) (heroes : list hero) (h : hero)
  (st : PDF.t) :
  _page_items (state (hero_separator hero_eq key heroes h st)) = _page_items st.
Proof.
  destruct (value (_shared_occupation key st) && hero_eq h (last heroes h))
    eqn:E.
  - now rewrite hero_separator_drawn.
  - now rewrite hero_separator_skipped.
Qed.

(** The page break of a hero: it is signalled exactly when the hero is the
    fifth item of the page; the counter is then 0 and the cursor at the top
    of the page; otherwise the counter has gone up by one. *)
Lemma place_hero_page_break (key : string) (heroes : list hero) (h : hero)
  (st : PDF.t) :
  let r := place_hero wrap hero_eq key heroes h st in
  (_page_items st = 4%Z ->
     filter is_show_page (calls r) = [ShowPage] /\
     _page_items (state r) = 0%Z /\ _bottom (state r) = 11 * inch) /\
  (_page_items st <> 4%Z ->
     filter is_show_page (calls r) = [] /\
     _page_items (state r) = (_page_items st + 1)%Z).
Proof.
  intros r. unfold r.
  rewrite place_hero_calls, place_hero_state. cbv zeta.
  set (s1 := state (hero_draw wrap h st)).
  set (s2 := state (hero_separator hero_eq key heroes h s1)).
  assert (Hn : _page_items (state (hero_gap s2)) = (_page_items st + 1)%Z).
  { rewrite hero_gap_run. cbn [state]. change (_page_items s2 = _page_items st + 1)%Z.
    unfold s2. rewrite hero_separator_page_items. reflexivity. }
  assert (Hd : filter is_show_page (calls (hero_draw wrap h st)) = []).
  { rewrite hero_draw_calls, hero_image_run, hero_paragraphs_run. reflexivity. }
  assert (Hs : filter is_show_page
                 (calls (hero_separator hero_eq key heroes h s1)) = []).
  { destruct (value (_shared_occupation key s1) && hero_eq h (last heroes h))
      eqn:E.
    - now rewrite hero_separator_drawn.
    - now rewrite hero_separator_skipped. }
  rewrite !filter_app, Hd, Hs. cbn [app].
  split; intros H.
  - rewrite page_check_break by (rewrite Hn, H; reflexivity).
    repeat split.
  - rewrite page_check_no_break by (rewrite Hn; lia).
    split; [reflexivity | exact Hn].
Qed.

End PageFacts.

(** C1 at a failing input: four heroes alone in their groups and then two who
    share an occupation, as [_prepare_data] groups them.  The heading of the
    shared group is the fifth item of the page and no test follows it, the
    next hero is the sixth, and [_page_items == 5] is never true again: the
    run ends with the counter at 7, without any page break, and with the
    cursor below the bottom of the page. *)
Theorem page_items_exceed_five :
  PDF.__init__ "super_heroes" "The Super Heroes API - DC Comics"
               Sample.six_heroes = Some (Sample.pdf_of Sample.six_grouped) /\
  let r := PDF.create_pdf Sample.one_line Sample.value_eq
             (Sample.pdf_of Sample.six_grouped) in
  PDF._page_items (PDF.state r) = 7%Z /\
  filter PDF.is_show_page (PDF.calls r) = [] /\
  (PDF._bottom (PDF.state r) == -174)%Q.
Proof.
  split; [reflexivity|].
  vm_compute. repeat split.
Qed.

(** The scenario of five heroes alone in their groups: one page break, after
    the fifth. *)
Example five_singletons :
  let d := [("a", [Sample.batman]); ("b", [Sample.aquaman]);
            ("c", [Sample.flash]); ("d", [Sample.nightwing]);
            ("e", [Sample.huntress])] in
  let r := PDF.create_pdf Sample.one_line Sample.value_eq (Sample.pdf_of d) in
  filter PDF.is_show_page (PDF.calls r) = [PDF.ShowPage] /\
  PDF._page_items (PDF.state r) = 0%Z /\
  PDF._bottom (PDF.state r) = (11 * Units.inch)%Q.
Proof. vm_compute. repeat split. Qed.

(** ** Two runs of the engine *)

Section RunFacts.
Import PDF Units.
Local Open Scope Q_scope.

Variable hero_eq : hero -> hero -> bool.

Lemma bind_ext {A B : Type} (m m' : M A) (k k' : A -> M B) (s : PDF.t) :
  m s = m' s ->
  k (value (m' s)) (state (m' s)) = k' (value (m' s)) (state (m' s)) ->
  bind m k s = bind m' k' s.
Proof. intros Hm Hk. unfold bind. cbv zeta. now rewrite Hm, Hk. Qed.

Lemma for_each_ext {A : Type} (l : list A) (body body' : A -> M unit) :
  (forall x s, In x l -> body x s = body' x s) ->
  forall s, for_each l body s = for_each l body' s.
Proof.
  induction l as [|x l IH]; intros Hb s; cbn [for_each]; [reflexivity|].
  apply bind_ext.
  - apply Hb. now left.
  - apply IH. intros y s' Hy. apply Hb. now right.
Qed.

Lemma get_In (key : string) (v : list hero) (d : Dict.t) :
  Dict.get key d = Some v -> In (key, v) d.
Proof.
  induction d as [|[k w] d IH]; simpl; [discriminate|].
  destruct (String.eqb key k) eqn:E.
  - intros H. injection H as ->. apply String.eqb_eq in E. subst. now left.
  - intros H. right. now apply IH.
Qed.

Lemma getitem_markups (d : Dict.t) (key : string) (h : hero) (m : string) :
  In h (getitem d key) -> In m (hero_markups h) -> In m (markups_of d).
Proof.
  unfold getitem. destruct (Dict.get key d) as [v|] eqn:E; [|intros []].
  intros Hh Hm. apply get_In in E.
  unfold markups_of. apply in_flat_map. exists (key, v).
  split; [exact E|]. apply in_flat_map. exists h. now split.
Qed.

Section SameHeights.

Variables wrap wrap' : string -> Q -> Q -> Q.

Lemma hero_paragraphs_ext (h : hero) (s : PDF.t) :
  (forall m, In m (hero_markups h) ->
     rendered_height wrap m = rendered_height wrap' m) ->
  hero_paragraphs wrap h s = hero_paragraphs wrap' h s.
Proof.
  intros Hs. rewrite !hero_paragraphs_run. cbv zeta.
  rewrite (Hs (full_name_markup h)) by (simpl; tauto).
  rewrite (Hs (alter_egos_markup h)) by (simpl; tauto).
  rewrite (Hs (aliases_markup h)) by (simpl; tauto).
  rewrite (Hs (birth_markup h)) by (simpl; tauto).
  reflexivity.
Qed.

Lemma place_hero_ext (key : string) (heroes : list hero) (h : hero)
  (s : PDF.t) :
  (forall m, In m (hero_markups h) ->
     rendered_height wrap m = rendered_height wrap' m) ->
  place_hero wrap hero_eq key heroes h s =
  place_hero wrap' hero_eq key heroes h s.
Proof.
  intros Hs. unfold place_hero, hero_draw.
  apply bind_ext; [|reflexivity].
  apply bind_ext; [reflexivity|].
  apply bind_ext; [|reflexivity].
  now apply hero_paragraphs_ext.
Qed.

Variable d0 : Dict.t.

Hypothesis same_heights : forall m, In m (markups_of d0) ->
  rendered_height wrap m = rendered_height wrap' m.

Lemma layout_group_ext (key : string) (s : PDF.t) :
  data s = d0 ->
  layout_group wrap hero_eq key s = layout_group wrap' hero_eq key s.
Proof.
  intros Hd. unfold layout_group.
  apply bind_ext; [reflexivity|].
  apply bind_ext; [reflexivity|].
  cbn [gets value state].
  rewrite keeps_group_head, Hd.
  apply for_each_ext. intros h s' Hh.
  apply place_hero_ext. intros m Hm.
  apply same_heights. now apply (getitem_markups d0 key h).
Qed.

Lemma groups_ext (keys : list string) : forall s : PDF.t,
  data s = d0 ->
  for_each keys (layout_group wrap hero_eq) s =
  for_each keys (layout_group wrap' hero_eq) s.
Proof.
  induction keys as [|k keys IH]; intros s Hd; cbn [for_each];
    [reflexivity|].
  apply bind_ext.
  - now apply layout_group_ext.
  - apply IH. now rewrite keeps_layout_group.
Qed.

Lemma create_pdf_ext (s : PDF.t) :
  data s = d0 -> create_pdf wrap hero_eq s = create_pdf wrap' hero_eq s.
Proof.
  intros Hd. unfold create_pdf.
  do 5 (apply bind_ext; [reflexivity|]).
  apply bind_ext; [|reflexivity].
  apply groups_ext. exact Hd.
Qed.

End SameHeights.

End RunFacts.

Section Margins.
Import PDF Units.
Local Open Scope Q_scope.

Variable wrap : string -> Q -> Q -> Q.
Variable hero_eq : hero -> hero -> bool.

(** The margins a group finds are overwritten before they are read. *)
Lemma group_head_margins (x y : Q) (key : string) (s : PDF.t) :
  group_head key (set_right_info x (set_right_image y s)) = group_head key s.
Proof.
  pose proof (shared_occupation_data key
                (set_right_info x (set_right_image y s)) s eq_refl) as Hv.
  destruct (value (_shared_occupation key s)) eqn:E.
  - rewrite (group_head_shared key s E), (group_head_shared _ _ Hv).
    reflexivity.
  - rewrite (group_head_not_shared key s E), (group_head_not_shared _ _ Hv).
    reflexivity.
Qed.

Lemma layout_group_margins (x y : Q) (key : string) (s : PDF.t) :
  layout_group wrap hero_eq key (set_right_info x (set_right_image y s)) =
  layout_group wrap hero_eq key s.
Proof.
  unfold layout_group.
  set (k := fun _ : unit => bind (gets data) _).
  unfold bind at 1 2. cbv zeta. now rewrite group_head_margins.
Qed.

Lemma groups_margins (x y : Q) (keys : list string) (s : PDF.t) :
  calls (for_each keys (layout_group wrap hero_eq)
           (set_right_info x (set_right_image y s))) =
  calls (for_each keys (layout_group wrap hero_eq) s).
Proof.
  destruct keys as [|k keys]; cbn [for_each]; [reflexivity|].
  rewrite !bind_calls. now rewrite layout_group_margins.
Qed.

Lemma create_pdf_margins (x y : Q) (s : PDF.t) :
  calls (create_pdf wrap hero_eq (set_right_info x (set_right_image y s))) =
  calls (create_pdf wrap hero_eq s).
Proof.
  unfold create_pdf. rewrite !bind_calls.
  cbn [gets emit value state calls].
  rewrite !draw_heading_run. cbn [value state calls].
  change (set_bottom ?b (set_right_info x (set_right_image y s)))
    with (set_right_info x (set_right_image y (set_bottom b s))).
  rewrite groups_margins. reflexivity.
Qed.

End Margins.

(** C9, as the code has it.  The calls of a run of [create_pdf], and the
    state it leaves, are determined by the state of the object at the start
    and by the heights the backend returns for the paragraphs of its
    dictionary: two backends that agree on those paragraphs give the same
    run.  Of the state at the start the calls depend on the dictionary, the
    names, the font, the cursor and the page-item counter, not on the two
    margins. *)
Theorem create_pdf_same_heights (hero_eq : hero -> hero -> bool)
  (wrap wrap' : string -> Q -> Q -> Q) (st : PDF.t)
  (Hsame : forall m, In m (PDF.markups_of (PDF.data st)) ->
     PDF.rendered_height wrap m = PDF.rendered_height wrap' m) :
  PDF.create_pdf wrap hero_eq st = PDF.create_pdf wrap' hero_eq st /\
  (forall x y : Q,
     PDF.calls (PDF.create_pdf wrap hero_eq
                  (PDF.set_right_info x (PDF.set_right_image y st))) =
     PDF.calls (PDF.create_pdf wrap' hero_eq st)).
Proof.
  assert (H : PDF.create_pdf wrap hero_eq st = PDF.create_pdf wrap' hero_eq st)
    by (apply (create_pdf_ext hero_eq wrap wrap' (PDF.data st) Hsame);
        reflexivity).
  split; [exact H|].
  intros x y. rewrite create_pdf_margins. now rewrite H.
Qed.

Lemma create_pdf_same_heights_witness :
  PDF.create_pdf Sample.one_line Sample.value_eq
                 (Sample.pdf_of Sample.vigilantes) =
  PDF.create_pdf Sample.one_line_markup Sample.value_eq
                 (Sample.pdf_of Sample.vigilantes) /\
  Sample.one_line "plain"%string 0 0 <> Sample.one_line_markup "plain"%string 0 0.
Proof.
  split.
  - apply (create_pdf_same_heights Sample.value_eq Sample.one_line
             Sample.one_line_markup (Sample.pdf_of Sample.vigilantes)).
    intros m Hm. simpl in Hm.
    repeat (destruct Hm as [<-|Hm]; [reflexivity|]). contradiction.
  - discriminate.
Defined.

(** C9, as the spec words it, fails on the code: [create_pdf] starts from the
    cursor and the counter the object holds, and it does not reset them.  Run
    a second time on the same object, with the same dictionary and the same
    backend, it draws the title where the first run stopped and signals a
    page break that the first run did not signal. *)
Lemma second_run_differs :
  let st := Sample.pdf_of Sample.vigilantes in
  let first := PDF.create_pdf Sample.one_line Sample.value_eq st in
  let second := PDF.create_pdf Sample.one_line Sample.value_eq
                  (PDF.state first) in
  PDF.data (PDF.state first) = PDF.data st /\
  nth_error (PDF.calls first) 2 =
    Some (PDF.DrawString 72 792 "The Super Heroes API - DC Comics") /\
  match nth_error (PDF.calls second) 2 with
  | Some (PDF.DrawString x y text) =>
      x = 72%Q /\ (y == 410)%Q /\ text = "The Super Heroes API - DC Comics"%string
  | _ => False
  end /\
  filter PDF.is_show_page (PDF.calls first) = [] /\
  filter PDF.is_show_page (PDF.calls second) = [PDF.ShowPage] /\
  PDF.calls second <> PDF.calls first.
Proof.
  intros st first second.
  split; [reflexivity|].
  split; [reflexivity|].
  split; [vm_compute; repeat split|].
  split; [reflexivity|].
  split; [reflexivity|].
  vm_compute. discriminate.
Qed.

(** ** The fetcher *)

Section FetchFacts.
Import Client Main.
Local Open Scope Z_scope.

Variable send : route -> sent.
Variable from_api : pyval -> exn + hero.

Lemma requests_app (l l' : list event) :
  requests (l ++ l') = requests l ++ requests l'.
Proof.
  induction l as [|e l IH]; [reflexivity|].
  destruct e; cbn [app requests]; rewrite IH; reflexivity.
Qed.

Lemma biography_requests_app (l l' : list event) :
  biography_requests (l ++ l') = biography_requests l ++ biography_requests l'.
Proof.
  unfold biography_requests. now rewrite requests_app, flat_map_app.
Qed.

(** A request is sent once, before anything is logged about it. *)
Lemma make_request_log (rt : route) :
  requests (snd (_make_request send rt)) = [rt].
Proof.
  unfold _make_request.
  destruct (send rt) as [[code j t]|e]; cbn [status_code json text];
    [|reflexivity].
  destruct (code =? 200); [destruct j; reflexivity|].
  destruct (code =? 404); [reflexivity|].
  destruct (code >=? 400); [|reflexivity].
  destruct (raise_for_status code); destruct j; reflexivity.
Qed.

Lemma eq_str_true (v : pyval) (s : string) :
  eq_str v s = true -> v = PStr s.
Proof.
  destruct v; simpl; try discriminate.
  intros H. apply String.eqb_eq in H. now subst.
Qed.

Lemma handle_cases (e : exn) (s : vars) (log : list event) :
  (exists c, e = HTTPError c /\
     handle e s log = (Continue s, log ++ [PrintError e])) \/
  handle e s log = (Uncaught e s, log).
Proof.
  unfold handle. destruct e; cbn [is_HTTPError]; try (now right).
  left. eexists. split; reflexivity.
Qed.

(** The three ways an iteration can end: the identifier is skipped, an
    exception other than [HTTPError] leaves [main], or a record of the target
    publisher is appended.  In each the biography of the next identifier has
    been requested, then at most its full record, and nothing else. *)
Lemma iteration_cases (s : vars) :
  let i := hero_id s + 1 in
  let skipped := mkVars (super_heroes s) i (accepted s) in
  exists st log,
    iteration send from_api s = (st, log) /\
    (requests log = [BiographyRoute i] \/
     requests log = [BiographyRoute i; IdRoute i]) /\
    (st = Continue skipped \/
     (exists e, st = Uncaught e skipped) \/
     (exists h, st = Continue (mkVars (super_heroes s ++ [h]) i
                                      (accepted s ++ [i])) /\
                made_from send from_api h i)).
Proof.
  intros i skipped. unfold iteration. fold i. fold skipped.
  unfold made_from, source_publisher, get_biography, get_super_hero.
  pose proof (make_request_log (BiographyRoute i)) as Hb.
  pose proof (make_request_log (IdRoute i)) as Hh.
  destruct (_make_request send (BiographyRoute i)) as [rb lb].
  destruct (_make_request send (IdRoute i)) as [rh lh].
  cbn [snd fst] in Hb, Hh |- *.
  assert (Hraise : forall e log,
            requests log = [BiographyRoute i] \/
            requests log = [BiographyRoute i; IdRoute i] ->
            forall P : step -> Prop,
            exists st log', handle e skipped log = (st, log') /\
              (requests log' = [BiographyRoute i] \/
               requests log' = [BiographyRoute i; IdRoute i]) /\
              (st = Continue skipped \/ (exists e', st = Uncaught e' skipped)
               \/ P st)).
  { intros e log Hlog P.
    destruct (handle_cases e skipped log) as [[c [_ H]]|H]; rewrite H.
    - do 2 eexists. split; [reflexivity|]. split; [|now left].
      rewrite requests_app. cbn [requests]. now rewrite app_nil_r.
    - do 2 eexists. split; [reflexivity|]. split; [exact Hlog|].
      right. left. now exists e. }
  destruct rb as [e|biography]; [apply Hraise; now left|].
  destruct (truthy biography) eqn:Et; cbn [negb].
  2:{ do 2 eexists. split; [reflexivity|]. split; now left. }
  destruct (subscript biography "publisher") as [e|publisher];
    [apply Hraise; now left|].
  destruct (eq_str publisher "DC Comics") eqn:Ep.
  2:{ do 2 eexists. split; [reflexivity|]. split; now left. }
  apply eq_str_true in Ep. subst publisher.
  assert (Hlog : requests (lb ++ lh) = [BiographyRoute i; IdRoute i])
    by (rewrite requests_app, Hb, Hh; reflexivity).
  destruct rh as [e|h]; [apply Hraise; now right|].
  destruct (truthy h) eqn:Eh; cbn [negb].
  2:{ do 2 eexists. split; [reflexivity|]. split; [now right | now left]. }
  destruct (from_api h) as [e|super_hero] eqn:Ef; [apply Hraise; now right|].
  do 2 eexists. split; [reflexivity|]. split; [now right|].
  right. right. exists super_hero. split; [reflexivity|].
  split; [reflexivity|]. exists h. now repeat split.
Qed.

Lemma ids_upto_S (k : nat) :
  ids_upto (S k) = ids_upto k ++ [Z.of_nat k + 1].
Proof.
  unfold ids_upto. rewrite seq_S, map_app. cbn [map].
  do 2 f_equal. lia.
Qed.


Lemma sorted_NoDup (l : list Z) : StronglySorted Z.lt l -> NoDup l.
Proof.
  induction 1 as [|a l Hs IH Hall]; constructor; [|exact IH].
  intros Hin. rewrite Forall_forall in Hall.
  specialize (Hall a Hin). lia.
Qed.

(** Routes of a new identifier after routes of older ones. *)
Lemma NoDup_new_requests (old new : list route) (i : Z) :
  NoDup old -> (forall rt, In rt old -> route_id rt < i) ->
  new = [BiographyRoute i] \/ new = [BiographyRoute i; IdRoute i] ->
  NoDup (old ++ new) /\ forall rt, In rt (old ++ new) -> route_id rt <= i.
Proof.
  intros Hnd Hold Hnew.
  assert (Hfresh : forall rt, In rt new -> route_id rt = i /\ ~ In rt old).
  { intros rt Hin. assert (Hid : route_id rt = i)
      by (destruct Hnew as [-> | ->]; simpl in Hin;
          intuition (subst; reflexivity)).
    split; [exact Hid|]. intros Ho. specialize (Hold rt Ho). lia. }
  split.
  - apply NoDup_app; [exact Hnd | |].
    + destruct Hnew as [-> | ->]; repeat constructor; simpl;
        intuition discriminate.
    + intros rt Ho Hn. now apply (Hfresh rt Hn).
  - intros rt Hin. apply in_app_or in Hin. destruct Hin as [Hin|Hin].
    + specialize (Hold rt Hin). lia.
    + destruct (Hfresh rt Hin). lia.
Qed.

Lemma invariant_start : fetch_invariant send from_api start [].
Proof.
  unfold fetch_invariant, start.
  cbn [super_heroes accepted hero_id List.length requests].
  split; [lia|]. split; [constructor|].
  split; [exists 0%nat; split; reflexivity|].
  split; [constructor | intros rt []].
Qed.

(** An iteration entered with fewer than ten records keeps the invariant. *)
Lemma invariant_iteration (s : vars) (log0 : list event) :
  Z.of_nat (List.length (super_heroes s)) < 10 ->
  fetch_invariant send from_api s log0 ->
  forall st log, iteration send from_api s = (st, log) ->
  fetch_invariant send from_api
    (match st with Continue s' | Uncaught _ s' => s' end) (log0 ++ log).
Proof.
  intros Hlt [Hlen [Hmade [[k [Hk Hreq]] [Hnd Hids]]]] st log Hit.
  destruct (iteration_cases s) as [st' [log' [Hit' [Hlog Hst]]]].
  rewrite Hit in Hit'. injection Hit' as <- <-.
  assert (Hbio : biography_requests log = [hero_id s + 1])
    by (unfold biography_requests; destruct Hlog as [-> | ->]; reflexivity).
  assert (Hcursor : exists k' : nat, hero_id s + 1 = Z.of_nat k' /\
            biography_requests (log0 ++ log) = ids_upto k').
  { exists (S k). split; [lia|].
    rewrite biography_requests_app, Hreq, Hbio, ids_upto_S, Hk. reflexivity. }
  destruct (NoDup_new_requests (requests log0) (requests log)
              (hero_id s + 1) Hnd) as [Hnd' Hle]; [|exact Hlog|].
  { intros rt Hin. specialize (Hids rt Hin). lia. }
  assert (Hids' : forall rt, In rt (requests (log0 ++ log)) ->
            1 <= route_id rt <= hero_id s + 1).
  { intros rt Hin. rewrite requests_app in Hin. split; [|now apply Hle].
    apply in_app_or in Hin. destruct Hin as [Hin|Hin].
    - now apply Hids.
    - assert (Hid : route_id rt = hero_id s + 1)
        by (destruct Hlog as [Hl|Hl]; rewrite Hl in Hin; simpl in Hin;
            intuition (subst; reflexivity)).
      lia. }
  rewrite <- requests_app in Hnd'.
  destruct Hst as [->|[[e ->]|[h [-> Hdc]]]];
    unfold fetch_invariant; cbn [super_heroes accepted hero_id].
  - split; [exact Hlen|]. split; [exact Hmade|]. split; [exact Hcursor|].
    split; [exact Hnd' | exact Hids'].
  - split; [exact Hlen|]. split; [exact Hmade|]. split; [exact Hcursor|].
    split; [exact Hnd' | exact Hids'].
  - rewrite length_app. cbn [List.length].
    split; [lia|]. split.
    + apply Forall2_app; [exact Hmade|].
      constructor; [exact Hdc | constructor].
    + split; [exact Hcursor|]. split; [exact Hnd' | exact Hids'].
Qed.

(** The invariant holds wherever the run stands, and a run that has left the
    loop by its condition holds exactly ten records. *)
Lemma invariant_loop (fuel : nat) : forall (s : vars) (log0 : list event),
  fetch_invariant send from_api s log0 ->
  let r := fst (loop send from_api fuel s) in
  fetch_invariant send from_api (vars_of r)
    (log0 ++ snd (loop send from_api fuel s)) /\
  match r with
  | Collected s' => List.length (super_heroes s') = 10%nat
  | _ => True
  end.
Proof.
  induction fuel as [|fuel IH]; intros s log0 Hinv; cbn [loop].
  - destruct (Z.of_nat (List.length (super_heroes s)) <? 10) eqn:E;
      cbn [fst snd vars_of]; rewrite app_nil_r; (split; [exact Hinv|]).
    + exact I.
    + apply Z.ltb_ge in E. destruct Hinv as [Hlen _]. lia.
  - destruct (Z.of_nat (List.length (super_heroes s)) <? 10) eqn:E.
    + apply Z.ltb_lt in E.
      destruct (iteration send from_api s) as [st log] eqn:Hit.
      pose proof (invariant_iteration s log0 E Hinv st log Hit) as Hnext.
      destruct st as [s'|e s'].
      * specialize (IH s' (log0 ++ log) Hnext).
        destruct (loop send from_api fuel s') as [r log'].
        cbn [fst snd] in *. rewrite app_assoc. exact IH.
      * cbn [fst snd vars_of]. split; [exact Hnext | exact I].
    + cbn [fst snd vars_of]. rewrite app_nil_r. split; [exact Hinv|].
      apply Z.ltb_ge in E. destruct Hinv as [Hlen _]. lia.
Qed.

End FetchFacts.


(** A run on the sample data source: ten records are collected with the
    cursor at 30; 4 is not found, 5 fails with status 500 and 7 with status
    403 on the full record, and the run goes on. *)
Example fetch_sample :
  let r := Main.fetch Sample.source Sample.from_api 30 in
  map SuperHero.id (Main.super_heroes (Main.vars_of (fst r))) =
    [3; 6; 9; 12; 15; 18; 21; 24; 27; 30]%Z /\
  Main.accepted (Main.vars_of (fst r)) = [3; 6; 9; 12; 15; 18; 21; 24; 27; 30]%Z /\
  (exists s, fst r = Main.Collected s) /\
  In (Client.PrintError (Client.HTTPError 500)) (snd r) /\
  In (Client.PrintError (Client.HTTPError 403)) (snd r) /\
  In (Client.LogDebugNotFound (Client.BiographyRoute 4)) (snd r).
Proof.
  vm_compute. repeat split; try (eexists; reflexivity); tauto.
Qed.

(** ** Permanent failures *)

Section FailureFacts.
Import Client Main.
Local Open Scope Z_scope.

Variable send : route -> sent.
Variable from_api : pyval -> exn + hero.

(** What [_make_request] does with a permanent failure: ``not found'' is
    logged and [None] returned; any other status is logged as an error and
    raised as an [HTTPError]. *)
Lemma make_request_permanent (rt : route) (r : response) :
  send rt = Returns r ->
  permanent_failure (status_code r) ->
  (status_code r = 404 /\
   _make_request send rt = (inr PNone, [Send rt; LogDebugNotFound rt])) \/
  (status_code r <> 404 /\
   exists details,
     _make_request send rt =
     (inl (HTTPError (status_code r)),
      [Send rt; LogError (status_code r)] ++ details)).
Proof.
  intros Hsend [Hrange _]. unfold _make_request. rewrite Hsend.
  destruct (status_code r =? 200) eqn:E200; [apply Z.eqb_eq in E200; lia|].
  destruct (status_code r =? 404) eqn:E404.
  - left. apply Z.eqb_eq in E404. now split.
  - right. apply Z.eqb_neq in E404. split; [exact E404|].
    assert (Hge : (status_code r >=? 400) = true) by (apply Z.geb_le; lia).
    rewrite Hge. unfold raise_for_status.
    assert (Hin : (400 <=? status_code r) && (status_code r <? 600) = true).
    { apply andb_true_iff. split; [apply Z.leb_le | apply Z.ltb_lt]; lia. }
    rewrite Hin. eexists. reflexivity.
Qed.

(** [_make_request] prints nothing: only [main] does. *)
Lemma make_request_no_print (rt : route) (e : exn) :
  ~ In (PrintError e) (snd (_make_request send rt)).
Proof using send.
  clear from_api. unfold _make_request.
  destruct (send rt) as [[code j t]|e']; cbn [status_code json text].
  - destruct (code =? 200); [destruct j; cbn [snd In]; intuition discriminate|].
    destruct (code =? 404); [cbn [snd In]; intuition discriminate|].
    destruct (code >=? 400); [|cbn [snd In]; intuition discriminate].
    destruct (raise_for_status code); destruct j; cbn [snd In app];
      intuition discriminate.
  - cbn [snd In]. intuition discriminate.
Qed.

(** A request that returns a true value has logged no error. *)
Lemma make_request_truthy_quiet (rt : route) (v : pyval) :
  fst (_make_request send rt) = inr v -> truthy v = true ->
  forall c, ~ In (LogError c) (snd (_make_request send rt)).
Proof using send.
  clear from_api. unfold _make_request.
  destruct (send rt) as [[code j t]|e']; cbn [status_code json text].
  - destruct (code =? 200).
    { intros _ _ c. destruct j; cbn [snd In]; intuition discriminate. }
    destruct (code =? 404).
    { cbn [fst]. intros Hv Ht. injection Hv as <-. discriminate Ht. }
    destruct (code >=? 400).
    + destruct (raise_for_status code); cbn [fst]; intros Hv Ht;
        [discriminate Hv | injection Hv as <-; discriminate Ht].
    + cbn [fst]. intros Hv Ht. injection Hv as <-. discriminate Ht.
  - cbn [fst]. intros Hv. discriminate Hv.
Qed.

End FailureFacts.

(** C8, as the code has it.  Take an iteration of the loop in which the data
    source answers with a permanent failure, that is with a status from 400
    to 599 other than 502, 503 and 504, either the biography request or,
    after a biography of 'DC Comics', the request for the full record.  In
    every case the iteration does not end [main]: no record is appended, the
    cursor has moved to the identifier of the failure, and the loop goes on
    from there.  For a status other than 404 the client logs the error and
    raises the [HTTPError] of the status, and [main] catches it and prints
    it, last thing in the iteration.  For 404 no error is raised: the client
    logs ``not found'' and returns [None], nothing is logged as an error and
    nothing is printed. *)
Theorem permanent_failure_handled (send : Client.route -> Client.sent)
  (from_api : Client.pyval -> Client.exn + hero) (s : Main.vars)
  (rt : Client.route) (status : Z)
  (Hlen : (List.length (Main.super_heroes s) < 10)%nat)
  (Hfail : Main.fails_permanently send (Main.hero_id s + 1) rt status) :
  let skipped := Main.mkVars (Main.super_heroes s) (Main.hero_id s + 1)
                             (Main.accepted s) in
  exists log,
    Main.iteration send from_api s = (Main.Continue skipped, log) /\
    (forall fuel,
       Main.loop send from_api (S fuel) s =
       (fst (Main.loop send from_api fuel skipped),
        log ++ snd (Main.loop send from_api fuel skipped))) /\
    (status <> 404%Z -> Main.caught_and_printed send rt status log) /\
    (status = 404%Z -> Main.not_found_skipped send rt log).
Proof.
  intros skipped.
  destruct Hfail as [Hperm [r [Hsend [Hstatus Hrt]]]]. subst status.
  assert (Hfinish : forall log,
    Main.iteration send from_api s = (Main.Continue skipped, log) ->
    (Client.status_code r <> 404%Z ->
       Main.caught_and_printed send rt (Client.status_code r) log) ->
    (Client.status_code r = 404%Z -> Main.not_found_skipped send rt log) ->
    exists log',
      Main.iteration send from_api s = (Main.Continue skipped, log') /\
      (forall fuel,
         Main.loop send from_api (S fuel) s =
         (fst (Main.loop send from_api fuel skipped),
          log' ++ snd (Main.loop send from_api fuel skipped))) /\
      (Client.status_code r <> 404%Z ->
         Main.caught_and_printed send rt (Client.status_code r) log') /\
      (Client.status_code r = 404%Z -> Main.not_found_skipped send rt log')).
  { intros log Hit H1 H2. exists log. split; [exact Hit|].
    split; [|split; assumption].
    intros fuel. cbn [Main.loop].
    assert (Hlt : (Z.of_nat (List.length (Main.super_heroes s)) <? 10)%Z = true)
      by (apply Z.ltb_lt; lia).
    rewrite Hlt, Hit.
    destruct (Main.loop send from_api fuel skipped). reflexivity. }
  assert (Hbio : forall lb biography,
    Client._make_request send (Client.BiographyRoute (Main.hero_id s + 1))
      = (inr biography, lb) ->
    Client.truthy biography = true ->
    (forall e, ~ In (Client.PrintError e) lb) /\
    (forall c, ~ In (Client.LogError c) lb)).
  { intros lb biography Eb Et. split.
    - intros e.
      pose proof (make_request_no_print send
                    (Client.BiographyRoute (Main.hero_id s + 1)) e) as H.
      now rewrite Eb in H.
    - pose proof (make_request_truthy_quiet send
                    (Client.BiographyRoute (Main.hero_id s + 1)) biography)
        as H.
      rewrite Eb in H. now apply H. }
  destruct (make_request_permanent send rt r Hsend Hperm)
    as [[H404 Hreq]|[Hn404 [details Hreq]]].
  - (* not found: nothing is raised, the client returns None *)
    destruct Hrt as [->|[-> Hdc]].
    + apply Hfinish with
        (log := [Client.Send (Client.BiographyRoute (Main.hero_id s + 1));
                 Client.LogDebugNotFound
                   (Client.BiographyRoute (Main.hero_id s + 1))]).
      * unfold Main.iteration, Client.get_biography. rewrite Hreq. reflexivity.
      * intros Hn. contradiction.
      * intros _. unfold Main.not_found_skipped. rewrite Hreq.
        split; [reflexivity|]. split; [right; now left|].
        split; intros x; cbn [In]; intuition discriminate.
    + unfold Main.source_publisher, Client.get_biography in Hdc.
      destruct (Client._make_request send
                  (Client.BiographyRoute (Main.hero_id s + 1)))
        as [rb lb] eqn:Eb.
      cbn [fst] in Hdc. destruct rb as [e|biography]; [discriminate|].
      destruct (Client.truthy biography) eqn:Et; [|discriminate].
      destruct (Main.subscript biography "publisher") as [e|p] eqn:Es;
        [discriminate|].
      injection Hdc as ->.
      destruct (Hbio lb biography eq_refl Et) as [Hnp Hne].
      apply Hfinish with
        (log := lb ++ [Client.Send (Client.IdRoute (Main.hero_id s + 1));
                       Client.LogDebugNotFound
                         (Client.IdRoute (Main.hero_id s + 1))]).
      * unfold Main.iteration, Client.get_biography, Client.get_super_hero.
        rewrite Eb, Et. cbn [negb]. rewrite Es. cbn [Main.eq_str].
        rewrite String.eqb_refl, Hreq. reflexivity.
      * intros Hn. contradiction.
      * intros _. unfold Main.not_found_skipped. rewrite Hreq.
        split; [reflexivity|].
        split; [apply in_or_app; right; right; now left|].
        split; intros x Hin; apply in_app_or in Hin;
          destruct Hin as [Hin|Hin];
          try (now apply (Hnp x)); try (now apply (Hne x));
          cbn [In] in Hin; intuition discriminate.
  - (* any other status: the client raises, main catches and prints *)
    destruct Hrt as [->|[-> Hdc]].
    + eapply Hfinish.
      * unfold Main.iteration, Client.get_biography. rewrite Hreq.
        unfold Main.handle. cbn [Client.is_HTTPError]. reflexivity.
      * intros _. unfold Main.caught_and_printed. rewrite Hreq.
        split; [reflexivity|].
        split; [apply in_or_app; left; right; now left | apply last_last].
      * intros H. contradiction.
    + unfold Main.source_publisher, Client.get_biography in Hdc.
      destruct (Client._make_request send
                  (Client.BiographyRoute (Main.hero_id s + 1)))
        as [rb lb] eqn:Eb.
      cbn [fst] in Hdc. destruct rb as [e|biography]; [discriminate|].
      destruct (Client.truthy biography) eqn:Et; [|discriminate].
      destruct (Main.subscript biography "publisher") as [e|p] eqn:Es;
        [discriminate|].
      injection Hdc as ->.
      eapply Hfinish.
      * unfold Main.iteration, Client.get_biography, Client.get_super_hero.
        rewrite Eb, Et. cbn [negb]. rewrite Es. cbn [Main.eq_str].
        rewrite String.eqb_refl, Hreq.
        unfold Main.handle. cbn [Client.is_HTTPError]. reflexivity.
      * intros _. unfold Main.caught_and_printed. rewrite Hreq.
        split; [reflexivity|]. split; [|apply last_last].
        apply in_or_app. left. apply in_or_app. right. right. now left.
      * intros H. contradiction.
Qed.

Lemma permanent_failure_handled_witness :
  let s := Main.mkVars [] 4 [] in
  exists log,
    Main.iteration Sample.source Sample.from_api s =
      (Main.Continue (Main.mkVars [] 5 []), log) /\
    (forall fuel,
       Main.loop Sample.source Sample.from_api (S fuel) s =
       (fst (Main.loop Sample.source Sample.from_api fuel (Main.mkVars [] 5 [])),
        log ++ snd (Main.loop Sample.source Sample.from_api fuel
                      (Main.mkVars [] 5 [])))) /\
    (500 <> 404 ->
     Main.caught_and_printed Sample.source (Client.BiographyRoute 5) 500 log)%Z
    /\
    (500 = 404 ->
     Main.not_found_skipped Sample.source (Client.BiographyRoute 5) log)%Z.
Proof.
  apply (permanent_failure_handled Sample.source Sample.from_api
           (Main.mkVars [] 4 []) (Client.BiographyRoute 5) 500).
  - simpl. lia.
  - split.
    + split; [lia|]. simpl. intros [H|[H|[H|[]]]]; discriminate H.
    + eexists. split; [reflexivity|]. split; [reflexivity|]. now left.
Defined.

(** C8, as the spec words it, fails on the code at 404, a status in the
    range of the claim: the client raises nothing, so [main] has nothing to
    catch and prints nothing; the identifier is skipped because the client
    returned [None]. *)
Lemma not_found_is_not_raised :
  Client.permanent_failure 404 /\
  Sample.source (Client.BiographyRoute 4) =
    Client.Returns (Client.mkResponse 404 None "Not Found") /\
  Client._make_request Sample.source (Client.BiographyRoute 4) =
    (inr Client.PNone,
     [Client.Send (Client.BiographyRoute 4);
      Client.LogDebugNotFound (Client.BiographyRoute 4)]) /\
  Main.iteration Sample.source Sample.from_api (Main.mkVars [] 3 []) =
    (Main.Continue (Main.mkVars [] 4 []),
     [Client.Send (Client.BiographyRoute 4);
      Client.LogDebugNotFound (Client.BiographyRoute 4)]) /\
  ~ Main.caught_and_printed Sample.source (Client.BiographyRoute 4) 404
      [Client.Send (Client.BiographyRoute 4);
       Client.LogDebugNotFound (Client.BiographyRoute 4)].
Proof.
  split.
  - split; [lia|]. simpl. intros [H|[H|[H|[]]]]; discriminate H.
  - split; [reflexivity|]. split; [reflexivity|]. split; [reflexivity|].
    intros [H _]. discriminate H.
Qed.

(** The full record fails for an identifier whose biography is one of
    'DC Comics': the sample data source answers 403 for 7. *)
Example full_record_failure_skipped :
  Main.fails_permanently Sample.source 7 (Client.IdRoute 7) 403 /\
  fst (Main.iteration Sample.source Sample.from_api (Main.mkVars [] 6 []))
  = Main.Continue (Main.mkVars [] 7 []).
Proof.
  split; [|reflexivity].
  split.
  - split; [lia|]. simpl. intros [H|[H|[H|[]]]]; discriminate H.
  - eexists. split; [reflexivity|]. split; [reflexivity|].
    right. split; reflexivity.
Qed.

(** A transport error, such as the [RetryError] raised when the retries on
    502, 503 and 504 are used up, is not an [HTTPError] and leaves [main]. *)
Example retry_error_is_fatal :
  fst (Main.fetch (fun _ => Client.Raises Client.RetryError) Sample.from_api 3)
  = Main.Aborted Client.RetryError (Main.mkVars [] 1 []).
Proof. reflexivity. Qed.

(** * Further properties *)

(** ** The grouper: errors, lookups, repeated calls *)

Section GrouperMore.
Import Grouper.

Lemma prepare_step_none (d : Dict.t) (h : hero) :
  prepare_step d h = None <-> SuperHero.occupation h = [].
Proof.
  unfold prepare_step, first_occupation.
  destruct (SuperHero.occupation h) as [|k l]; cbn [hd_error].
  - tauto.
  - destruct (negb (Dict.mem k d)); split; discriminate.
Qed.

Lemma prepare_from_none (hs : list hero) : forall d : Dict.t,
  prepare_from d hs = None <->
  exists h, In h hs /\ SuperHero.occupation h = [].
Proof.
  induction hs as [|h hs IH]; intros d; cbn [prepare_from].
  - split; [discriminate | intros [h [[] _]]].
  - destruct (prepare_step d h) as [d'|] eqn:E.
    + rewrite IH. split.
      * intros [x [Hx Ho]]. exists x. split; [now right | exact Ho].
      * intros [x [[<-|Hx] Ho]].
        -- apply prepare_step_none with (d := d) in Ho. congruence.
        -- now exists x.
    + split; [|reflexivity]. intros _. exists h. split; [now left|].
      now apply (prepare_step_none d h).
Qed.

Lemma get_absent (key : string) (d : Dict.t) :
  ~ In key (Dict.keys d) -> Dict.get key d = None.
Proof.
  induction d as [|[k v] d IH]; cbn [Dict.get Dict.keys map fst];
    [reflexivity|].
  intros Hn. destruct (String.eqb key k) eqn:E.
  - apply String.eqb_eq in E. subst. exfalso. apply Hn. now left.
  - apply IH. intros Hin. apply Hn. now right.
Qed.

Lemma members_of_nonempty (key : string) (hs : list hero) :
  In key (keys_of hs) -> members_of key hs <> [].
Proof.
  unfold keys_of, members_of. intros Hin.
  apply in_flat_map in Hin. destruct Hin as [h [Hh Hk]].
  destruct (first_occupation h) as [k|] eqn:E; [|destruct Hk].
  destruct Hk as [<-|[]].
  intros Hnil.
  assert (Hf : In h (filter (fun h0 => match first_occupation h0 with
                                       | Some k0 => String.eqb k0 k
                                       | None => false
                                       end) hs)).
  { apply filter_In. split; [exact Hh|]. rewrite E. apply String.eqb_refl. }
  rewrite Hnil in Hf. destruct Hf.
Qed.

Lemma first_occurrences_length (ks : list string) : forall seen,
  (List.length (first_occurrences seen ks) <= List.length ks)%nat.
Proof.
  induction ks as [|k ks IH]; intros seen; cbn [first_occurrences List.length].
  - lia.
  - destruct (existsb (String.eqb k) seen).
    + specialize (IH seen). lia.
    + cbn [List.length]. specialize (IH (seen ++ [k])). lia.
Qed.

Lemma keys_of_length (hs : list hero) :
  (List.length (keys_of hs) <= List.length hs)%nat.
Proof.
  unfold keys_of. induction hs as [|h hs IH]; cbn [flat_map List.length].
  - lia.
  - rewrite length_app. destruct (first_occupation h); cbn [List.length]; lia.
Qed.

End GrouperMore.

(** X1.  [_prepare_data] raises exactly when one of the records has an empty
    occupation sequence; a record further down the list is enough, whatever
    was grouped before it. *)
Theorem prepare_data_raises (super_heroes : list hero) :
  Grouper._prepare_data super_heroes = None <->
  exists h, In h super_heroes /\ SuperHero.occupation h = [].
Proof. unfold Grouper._prepare_data. apply prepare_from_none. Qed.

(** X2.  What a lookup in the dictionary of [_prepare_data] returns: for a key
    that is the first occupation of some record, the records with that first
    occupation in input order, which are never none; for any other key,
    nothing.  There are no more groups than records. *)
Theorem prepare_data_lookup (super_heroes : list hero) (d : Dict.t)
  (Hrun : Grouper._prepare_data super_heroes = Some d) :
  (forall key, In key (Grouper.keys_of super_heroes) ->
     Dict.get key d = Some (Grouper.members_of key super_heroes) /\
     Grouper.members_of key super_heroes <> []) /\
  (forall key, ~ In key (Grouper.keys_of super_heroes) ->
     Dict.get key d = None) /\
  (List.length d <= List.length super_heroes)%nat.
Proof.
  assert (Hocc : forall h, In h super_heroes -> SuperHero.occupation h <> []).
  { intros h Hin Ho.
    assert (Hnone : Grouper._prepare_data super_heroes = None)
      by (apply prepare_from_none; now exists h).
    congruence. }
  destruct (prepare_from_spec super_heroes [] Hocc)
    as [d' [Hrun' [Hkeys [Hget _]]]].
  unfold Grouper._prepare_data in Hrun. rewrite Hrun in Hrun'.
  injection Hrun' as <-. cbn [Dict.keys map app] in Hkeys.
  split; [|split].
  - intros key Hin. split; [|now apply members_of_nonempty].
    destruct (first_occurrences_complete _ [] key Hin) as [[]|Hfo].
    rewrite <- Hkeys in Hfo.
    destruct (getitem_of_key key d Hfo) as [v Hv].
    specialize (Hget key). unfold PDF.getitem in Hget. rewrite Hv in Hget.
    cbn [Dict.get app] in Hget. now rewrite Hget in Hv.
  - intros key Hnot. apply get_absent. rewrite Hkeys. intros Hfo.
    apply first_occurrences_fresh in Hfo. tauto.
  - change (List.length d) with (List.length (A:=string * list hero) d).
    rewrite <- (length_map fst d). fold (Dict.keys d). rewrite Hkeys.
    pose proof (first_occurrences_length (Grouper.keys_of super_heroes) []).
    pose proof (keys_of_length super_heroes). lia.
Qed.

Lemma prepare_data_lookup_witness :
  Dict.get "Vigilante" Sample.six_grouped =
    Some (Grouper.members_of "Vigilante" Sample.six_heroes) /\
  Dict.get "Villain" Sample.six_grouped = None.
Proof.
  destruct (prepare_data_lookup Sample.six_heroes Sample.six_grouped eq_refl)
    as [Hin [Hout _]].
  split.
  - apply Hin. simpl. tauto.
  - apply Hout. simpl. intros H.
    repeat (destruct H as [H|H]; [discriminate H|]). exact H.
Defined.


(** ** The layout engine: what a run leaves alone *)

Section FrameFacts.
Import PDF Trace.
Local Open Scope Q_scope.

Context {B : Type} (f : PDF.t -> B).

Lemma keeps_ret' {A : Type} (a : A) : keeps f (ret a).
Proof. intros s. reflexivity. Qed.

Lemma keeps_gets' {A : Type} (g : PDF.t -> A) : keeps f (gets g).
Proof. intros s. reflexivity. Qed.

Lemma keeps_emit' (c : call) : keeps f (emit c).
Proof. intros s. reflexivity. Qed.

Lemma keeps_modify' (g : PDF.t -> PDF.t) :
  (forall s, f (g s) = f s) -> keeps f (modify g).
Proof. intros H s. apply H. Qed.

Lemma keeps_bind' {A C : Type} (m : M A) (k : A -> M C) :
  keeps f m -> (forall a, keeps f (k a)) -> keeps f (bind m k).
Proof.
  intros Hm Hk s. unfold bind. cbn [state]. rewrite Hk. apply Hm.
Qed.

Lemma keeps_if' {A : Type} (c : bool) (m m' : M A) :
  keeps f m -> keeps f m' -> keeps f (if c then m else m').
Proof. destruct c; auto. Qed.

Lemma keeps_for_each' {A : Type} (l : list A) (body : A -> M unit) :
  (forall x, keeps f (body x)) -> keeps f (for_each l body).
Proof.
  intros Hb. induction l as [|x l IH]; cbn [for_each].
  - apply keeps_ret'.
  - apply keeps_bind'; auto.
Qed.

End FrameFacts.

Create HintDb frame.
#[local] Hint Resolve keeps_ret' keeps_gets' keeps_emit' keeps_if' : frame.
#[local] Hint Extern 2 (Trace.keeps _ (PDF.bind _ _)) =>
  apply keeps_bind'; [|intro] : frame.
#[local] Hint Extern 2 (Trace.keeps _ (PDF.for_each _ _)) =>
  apply keeps_for_each'; intro : frame.
#[local] Hint Extern 2 (Trace.keeps _ (PDF.modify _)) =>
  apply keeps_modify'; intro; reflexivity : frame.

Ltac frame := auto 40 with frame.

Section FrameOfMethods.
Import PDF Trace.

Variable wrap : string -> Q -> Q -> Q.
Variable hero_eq : hero -> hero -> bool.

(** The attributes no setter of the engine writes. *)
Context {B : Type} (f : PDF.t -> B).
Hypothesis f_bottom : forall b s, f (set_bottom b s) = f s.
Hypothesis f_page_items : forall n s, f (set_page_items n s) = f s.

Lemma place_hero_keeps (key : string) (heroes : list hero) (h : hero) :
  keeps f (place_hero wrap hero_eq key heroes h).
Proof.
  assert (Hb : forall b, keeps f (modify (set_bottom b)))
    by (intros b; apply keeps_modify'; intro; apply f_bottom).
  assert (Hn : forall n, keeps f (modify (set_page_items n)))
    by (intros n; apply keeps_modify'; intro; apply f_page_items).
  unfold place_hero, hero_draw, hero_image, hero_paragraphs, hero_separator,
    hero_gap, page_check, _draw_info_paragraph, _draw_paragraph,
    _shared_occupation.
  frame.
Qed.

Hypothesis f_right_info : forall x s, f (set_right_info x s) = f s.
Hypothesis f_right_image : forall x s, f (set_right_image x s) = f s.

Lemma create_pdf_keeps : keeps f (create_pdf wrap hero_eq).
Proof.
  assert (Hb : forall b, keeps f (modify (set_bottom b)))
    by (intros b; apply keeps_modify'; intro; apply f_bottom).
  assert (Hn : forall n, keeps f (modify (set_page_items n)))
    by (intros n; apply keeps_modify'; intro; apply f_page_items).
  assert (Hri : forall x, keeps f (modify (set_right_info x)))
    by (intros x; apply keeps_modify'; intro; apply f_right_info).
  assert (Hrm : forall x, keeps f (modify (set_right_image x)))
    by (intros x; apply keeps_modify'; intro; apply f_right_image).
  assert (Hhero : forall key heroes h,
            keeps f (place_hero wrap hero_eq key heroes h))
    by (intros; apply place_hero_keeps).
  unfold create_pdf, layout_group, group_head, _draw_heading,
    _shared_occupation.
  frame.
Qed.

End FrameOfMethods.

(** X4.  A run of [create_pdf] leaves four attributes of the object as it
    found them: the dictionary, the file name, the title and the font.  (The
    attributes it assigns are [canvas], which the trace stands for,
    [_bottom], [_page_items], [_right_info] and [_right_image]; nothing is
    said of them here.) *)
Theorem create_pdf_frame (wrap : string -> Q -> Q -> Q)
  (hero_eq : hero -> hero -> bool) (st : PDF.t) :
  let st' := PDF.state (PDF.create_pdf wrap hero_eq st) in
  PDF.data st' = PDF.data st /\
  PDF.file_name st' = PDF.file_name st /\
  PDF.title st' = PDF.title st /\
  PDF._font st' = PDF._font st.
Proof.
  intros st'. unfold st'.
  repeat split; apply (create_pdf_keeps wrap hero_eq); reflexivity.
Qed.

(** ** The layout engine: what a run draws *)

Section DrawnFacts.
Import PDF Trace Units.
Local Open Scope Q_scope.

Variable wrap : string -> Q -> Q -> Q.
Variable hero_eq : hero -> hero -> bool.

(** A reading [g] of the trace that goes through concatenation, over a loop
    whose body contributes [f x] for the element [x] in every state that
    satisfies [P]. *)
Lemma for_each_proj {A C : Type} (g : list call -> list C) (f : A -> list C)
  (P : PDF.t -> Prop) (body : A -> M unit) (l : list A) :
  (forall a b, g (a ++ b) = g a ++ g b) -> g [] = [] ->
  (forall x s, In x l -> P s ->
     g (calls (body x s)) = f x /\ P (state (body x s))) ->
  forall s, P s ->
    g (calls (for_each l body s)) = flat_map f l /\
    P (state (for_each l body s)).
Proof.
  intros Happ Hnil. induction l as [|x l IH]; intros Hbody s Hs;
    cbn [for_each flat_map].
  - split; [exact Hnil | exact Hs].
  - rewrite bind_calls, bind_state, Happ.
    destruct (Hbody x s (or_introl eq_refl) Hs) as [Hx Hs'].
    destruct (IH (fun y s' Hy => Hbody y s' (or_intror Hy))
                 (state (body x s)) Hs') as [Hl Hs''].
    rewrite Hx, Hl. split; [reflexivity | exact Hs''].
Qed.

Lemma hero_separator_cases (key : string) (heroes : list hero) (h : hero)
  (st : PDF.t) :
  calls (hero_separator hero_eq key heroes h st) = [] \/
  calls (hero_separator hero_eq key heroes h st) =
    [DrawString inch (_bottom st) rule].
Proof.
  destruct (value (_shared_occupation key st) && hero_eq h (last heroes h))
    eqn:E.
  - right. now rewrite hero_separator_drawn.
  - left. now rewrite hero_separator_skipped.
Qed.

Lemma page_check_cases (st : PDF.t) :
  calls (page_check st) = [] \/ calls (page_check st) = [ShowPage].
Proof.
  destruct (Z.eq_dec (_page_items st) 5) as [E|E].
  - right. now rewrite page_check_break.
  - left. now rewrite page_check_no_break.
Qed.

Lemma group_head_cases (key : string) (st : PDF.t) :
  calls (group_head key st) = [] \/
  calls (group_head key st) =
    [SetFont (_font st) 16; DrawString inch (_bottom st) key].
Proof.
  destruct (value (_shared_occupation key st)) eqn:E.
  - right. now rewrite group_head_shared.
  - left. now rewrite group_head_not_shared.
Qed.

Lemma pictures_app (a b : list call) :
  pictures (a ++ b) = pictures a ++ pictures b.
Proof. apply flat_map_app. Qed.

Lemma paragraphs_app (a b : list call) :
  paragraphs (a ++ b) = paragraphs a ++ paragraphs b.
Proof. apply flat_map_app. Qed.

(** What one hero adds to the trace. *)
Lemma place_hero_drawn (key : string) (heroes : list hero) (h : hero)
  (st : PDF.t) :
  pictures (calls (place_hero wrap hero_eq key heroes h st)) =
    [SuperHero.picture h] /\
  paragraphs (calls (place_hero wrap hero_eq key heroes h st)) =
    hero_markups h /\
  filter is_document_call (calls (place_hero wrap hero_eq key heroes h st)) = []
  /\
  Forall (at_margins (_right_info st) (_right_image st))
    (calls (place_hero wrap hero_eq key heroes h st)).
Proof.
  rewrite place_hero_calls. cbv zeta.
  rewrite hero_draw_calls, hero_image_run, hero_paragraphs_run, hero_gap_run.
  cbv zeta. cbn [calls].
  set (s1 := state (hero_draw wrap h st)).
  set (s2 := state (hero_separator hero_eq key heroes h s1)).
  set (s3 := state _).
  destruct (hero_separator_cases key heroes h s1) as [Hs|Hs];
    destruct (page_check_cases s3) as [Hp|Hp]; rewrite Hs, Hp;
    (split; [reflexivity|]; split; [reflexivity|]; split; [reflexivity|]);
    repeat constructor.
Qed.

Lemma place_hero_margins (key : string) (heroes : list hero) (h : hero)
  (st : PDF.t) :
  _right_info (state (place_hero wrap hero_eq key heroes h st)) = _right_info st
  /\
  _right_image (state (place_hero wrap hero_eq key heroes h st)) =
    _right_image st.
Proof.
  split; apply (place_hero_keeps wrap hero_eq); reflexivity.
Qed.

(** What the members of a group add to the trace. *)
Lemma members_drawn (key : string) (heroes l : list hero) : forall st : PDF.t,
  pictures (calls (for_each l (place_hero wrap hero_eq key heroes) st)) =
    map SuperHero.picture l /\
  paragraphs (calls (for_each l (place_hero wrap hero_eq key heroes) st)) =
    flat_map hero_markups l /\
  filter is_document_call
    (calls (for_each l (place_hero wrap hero_eq key heroes) st)) = [] /\
  Forall (at_margins (_right_info st) (_right_image st))
    (calls (for_each l (place_hero wrap hero_eq key heroes) st)).
Proof.
  induction l as [|h l IH]; intros st; cbn [for_each].
  - repeat split. constructor.
  - rewrite bind_calls.
    destruct (place_hero_drawn key heroes h st) as [H1 [H2 [H3 H4]]].
    destruct (IH (state (place_hero wrap hero_eq key heroes h st)))
      as [I1 [I2 [I3 I4]]].
    destruct (place_hero_margins key heroes h st) as [Mi Mm].
    rewrite Mi, Mm in I4.
    rewrite pictures_app, paragraphs_app, filter_app, H1, H2, H3, I1, I2, I3.
    split; [reflexivity|]. split; [reflexivity|]. split; [reflexivity|].
    apply Forall_app. now split.
Qed.

(** What a group adds to the trace. *)
Lemma layout_group_drawn (key : string) (st : PDF.t) :
  pictures (calls (layout_group wrap hero_eq key st)) =
    map SuperHero.picture (getitem (data st) key) /\
  paragraphs (calls (layout_group wrap hero_eq key st)) =
    flat_map hero_markups (getitem (data st) key) /\
  filter is_document_call (calls (layout_group wrap hero_eq key st)) = [] /\
  Forall (at_margins (_right_info (state (group_head key st)))
                     (_right_image (state (group_head key st))))
    (calls (layout_group wrap hero_eq key st)).
Proof.
  unfold layout_group.
  rewrite bind_calls, bind_calls. cbn [gets value state calls app].
  assert (Hd : data (state (group_head key st)) = data st)
    by apply keeps_group_head.
  rewrite Hd.
  destruct (members_drawn key (getitem (data st) key)
              (getitem (data st) key) (state (group_head key st)))
    as [H1 [H2 [H3 H4]]].
  rewrite pictures_app, paragraphs_app, filter_app, H1, H2, H3.
  destruct (group_head_cases key st) as [Hg|Hg]; rewrite Hg;
    (split; [reflexivity|]; split; [reflexivity|]; split; [reflexivity|]);
    apply Forall_app; split; try exact H4; repeat constructor.
Qed.

Lemma groups_drawn (keys : list string) : forall st : PDF.t,
  pictures (calls (for_each keys (layout_group wrap hero_eq) st)) =
    map SuperHero.picture (flat_map (getitem (data st)) keys) /\
  paragraphs (calls (for_each keys (layout_group wrap hero_eq) st)) =
    flat_map hero_markups (flat_map (getitem (data st)) keys) /\
  filter is_document_call
    (calls (for_each keys (layout_group wrap hero_eq) st)) = [].
Proof.
  induction keys as [|key keys IH]; intros st; cbn [for_each flat_map].
  - repeat split.
  - rewrite bind_calls.
    destruct (layout_group_drawn key st) as [H1 [H2 [H3 _]]].
    destruct (IH (state (layout_group wrap hero_eq key st))) as [I1 [I2 I3]].
    rewrite keeps_layout_group in I1, I2.
    rewrite pictures_app, paragraphs_app, filter_app, map_app, flat_map_app,
      H1, H2, H3, I1, I2, I3.
    repeat split.
Qed.

Lemma members_concat (d : Dict.t) :
  NoDup (Dict.keys d) -> members d = List.concat (map snd d).
Proof.
  unfold members. intros Hnd.
  assert (H : forall l, (forall kv, In kv l -> In kv d) ->
            flat_map (getitem d) (Dict.keys l) = List.concat (map snd l)).
  { induction l as [|[k v] l IH]; intros Hsub;
      cbn [Dict.keys map flat_map List.concat fst snd]; [reflexivity|].
    unfold getitem at 1.
    rewrite (get_of_In k v d Hnd) by (apply Hsub; now left).
    f_equal. apply IH. intros kv Hkv. apply Hsub. now right. }
  apply H. auto.
Qed.

End DrawnFacts.

(** The calls of a run of [create_pdf] over a backend that always returns:
    the canvas, the title, the groups, then [save] and the printed line. *)
Lemma create_pdf_calls (wrap : string -> Q -> Q -> Q)
  (hero_eq : hero -> hero -> bool) (st : PDF.t) :
  exists body,
    PDF.calls (PDF.create_pdf wrap hero_eq st) =
      [PDF.NewCanvas (PDF.file_name st ++ ".pdf");
       PDF.SetFont (PDF._font st) 18;
       PDF.DrawString Units.inch (PDF._bottom st) (PDF.title st)]
      ++ body
      ++ [PDF.Save;
          PDF.Print ("Created Superheroes PDF '" ++ PDF.file_name st ++ ".pdf'")]
    /\ filter Trace.is_document_call body = [].
Proof.
  unfold PDF.create_pdf. rewrite !bind_calls.
  cbn [PDF.gets PDF.emit PDF.value PDF.state PDF.calls].
  rewrite draw_heading_run. cbn [PDF.value PDF.state PDF.calls].
  eexists. split; [reflexivity|].
  apply (groups_drawn wrap hero_eq).
Qed.

(** The images and the paragraphs of a whole run. *)
Lemma create_pdf_drawn (wrap : string -> Q -> Q -> Q)
  (hero_eq : hero -> hero -> bool) (st : PDF.t) :
  Trace.pictures (PDF.calls (PDF.create_pdf wrap hero_eq st)) =
    map SuperHero.picture (Trace.members (PDF.data st)) /\
  Trace.paragraphs (PDF.calls (PDF.create_pdf wrap hero_eq st)) =
    flat_map PDF.hero_markups (Trace.members (PDF.data st)).
Proof.
  unfold PDF.create_pdf. rewrite !bind_calls.
  cbn [PDF.gets PDF.emit PDF.value PDF.state PDF.calls].
  rewrite draw_heading_run. cbn [PDF.value PDF.state PDF.calls].
  destruct (groups_drawn wrap hero_eq (Dict.keys (PDF.data st))
              (PDF.set_bottom (PDF._bottom st - Units.inch / 2) st))
    as [H1 [H2 _]].
  change (Dict.keys (PDF.data st))
    with (Dict.keys (PDF.data
            (PDF.set_bottom (PDF._bottom st - Units.inch / 2) st))) in H1, H2.
  unfold Trace.pictures, Trace.paragraphs in H1, H2 |- *.
  cbn [app flat_map]. rewrite !flat_map_app, H1, H2.
  cbn [flat_map app]. rewrite !app_nil_r. split; reflexivity.
Qed.

(** The members of the dictionary the constructor builds are the records it
    was given, each once. *)
Lemma init_members (file_name title : string) (super_heroes : list hero)
  (st : PDF.t) :
  PDF.__init__ file_name title super_heroes = Some st ->
  Permutation (Trace.members (PDF.data st)) super_heroes.
Proof.
  intros Hinit. unfold PDF.__init__ in Hinit.
  destruct (Grouper._prepare_data super_heroes) as [d|] eqn:Hd;
    [|discriminate].
  injection Hinit as <-. cbn [PDF.init_state PDF.data].
  assert (Hocc : forall h, In h super_heroes -> SuperHero.occupation h <> []).
  { intros h Hin Ho.
    assert (Hnone : Grouper._prepare_data super_heroes = None)
      by (apply prepare_from_none; now exists h).
    congruence. }
  destruct (prepare_from_spec super_heroes [] Hocc)
    as [d' [Hrun [Hkeys [_ Hperm]]]].
  unfold Grouper._prepare_data in Hd. rewrite Hd in Hrun.
  injection Hrun as <-. cbn [Dict.keys map app List.concat] in Hkeys, Hperm.
  rewrite members_concat
    by (rewrite Hkeys; apply first_occurrences_NoDup).
  exact Hperm.
Qed.

(** ** The engine over a backend that can raise *)

Section RefinesFacts.
Import PDF Render.

Lemma refines_lift {A : Type} (m : M A) : refines (lift m) m.
Proof. intros pre s. cbn. repeat split. Qed.

Lemma refines_bind {A B : Type} (xm : attempt A) (m : M A)
  (xk : A -> attempt B) (k : A -> M B) :
  refines xm m -> (forall a, refines (xk a) (k a)) ->
  refines (Render.bind xm xk) (PDF.bind m k).
Proof.
  intros Hm Hk pre s. specialize (Hm pre s).
  unfold Render.bind, PDF.bind.
  destruct (xm pre s) as [v st cs]. cbn [value state calls] in Hm |- *.
  destruct v as [e|a].
  - cbn [value state calls]. destruct Hm as [c [rest [Hc Hb]]].
    exists c, (rest ++ calls (k (value (m s)) (state (m s)))).
    split; [|exact Hb]. rewrite Hc, <- app_assoc. reflexivity.
  - destruct Hm as [-> [-> ->]].
    specialize (Hk (value (m s)) (pre ++ calls (m s)) (state (m s))).
    cbn [value state calls].
    destruct (value (xk (value (m s)) (pre ++ calls (m s)) (state (m s))))
      as [e|b].
    + destruct Hk as [c [rest [Hc Hb]]]. exists c, rest.
      split; [|exact Hb]. rewrite Hc, app_assoc. reflexivity.
    + destruct Hk as [-> [-> ->]]. repeat split.
Qed.

Lemma refines_for_each {A : Type} (l : list A) (xbody : A -> attempt unit)
  (body : A -> M unit) :
  (forall a, refines (xbody a) (body a)) ->
  refines (Render.for_each l xbody) (PDF.for_each l body).
Proof.
  intros Hbody. induction l as [|x l IH]; cbn [Render.for_each PDF.for_each].
  - apply refines_lift.
  - apply refines_bind; [apply Hbody | intros _; exact IH].
Qed.

End RefinesFacts.

(** One step of a proof that a method over the backend is the method of
    [PDF]: the two are built alike. *)
Ltac refines_step :=
  first
    [ apply refines_lift
    | apply refines_for_each; intros ?
    | apply refines_bind; [|intros ?]
    | match goal with
      | |- Render.refines (if ?b then _ else _) _ => destruct b
      end ].

Section RenderFacts.
Import PDF Render.
Local Open Scope Q_scope.

Variable raises : list call -> request -> bool.
Variable wrap : string -> Q -> Q -> Q.
Variable hero_eq : hero -> hero -> bool.

Lemma perform_refines (c : call) : refines (perform raises c) (emit c).
Proof.
  intros pre s. unfold perform, emit.
  destruct (raises pre (Call c)); cbn [value state calls].
  - exists c, []. split; reflexivity.
  - repeat split.
Qed.

Lemma draw_paragraph_refines (msg : string) (x y : Q) :
  refines (Render._draw_paragraph raises wrap msg x y)
          (PDF._draw_paragraph wrap msg x y).
Proof.
  assert (Hrest :
    refines (perform raises (DrawOn msg x (y - rendered_height wrap msg)) ;;;
             b <~ lift (gets _bottom) ;;;
             lift (modify (set_bottom (b - rendered_height wrap msg - 12))))
            (PDF._draw_paragraph wrap msg x y)).
  { unfold PDF._draw_paragraph. cbv zeta.
    apply refines_bind; [apply perform_refines | intros _].
    repeat refines_step. }
  intros pre s.
  assert (E : Render._draw_paragraph raises wrap msg x y pre s =
              if raises pre (Build msg)
              then Outcome (inl (Build msg)) s []
              else
                let r' :=
                  (perform raises
                     (DrawOn msg x (y - rendered_height wrap msg)) ;;;
                   b <~ lift (gets _bottom) ;;;
                   lift (modify
                           (set_bottom (b - rendered_height wrap msg - 12))))
                    (pre ++ []) s in
                Outcome (value r') (state r') (calls r')).
  { unfold Render._draw_paragraph, Render.bind at 1, build.
    destruct (raises pre (Build msg)); reflexivity. }
  rewrite E. clear E.
  destruct (raises pre (Build msg)); cbn [value state calls].
  - exists (DrawOn msg x (y - rendered_height wrap msg)), [].
    split; [reflexivity | exists x, (y - rendered_height wrap msg); reflexivity].
  - exact (Hrest (pre ++ []) s).
Qed.

Ltac refines_engine :=
  cbv zeta;
  repeat first [ apply perform_refines | apply draw_paragraph_refines
               | refines_step ].

Lemma draw_info_paragraph_refines (title msg : string) :
  refines (Render._draw_info_paragraph raises wrap title msg)
          (PDF._draw_info_paragraph wrap title msg).
Proof.
  unfold Render._draw_info_paragraph, PDF._draw_info_paragraph.
  refines_engine.
Qed.

Lemma draw_heading_refines (msg : string) (font_size : Q) :
  refines (Render._draw_heading raises msg font_size)
          (PDF._draw_heading msg font_size).
Proof.
  unfold Render._draw_heading, PDF._draw_heading. refines_engine.
Qed.

Lemma group_head_refines (key : string) :
  refines (Render.group_head raises key) (PDF.group_head key).
Proof.
  unfold Render.group_head, PDF.group_head.
  apply refines_bind; [apply refines_lift | intros _].
  apply refines_bind; [apply refines_lift | intros _].
  apply refines_bind; [apply refines_lift | intros shared].
  destruct shared; [|apply refines_lift].
  repeat first [ apply draw_heading_refines | apply refines_lift
               | apply refines_bind; [|intros ?] ].
Qed.

Lemma hero_paragraphs_refines (h : hero) :
  refines (Render.hero_paragraphs raises wrap h) (PDF.hero_paragraphs wrap h).
Proof.
  unfold Render.hero_paragraphs, PDF.hero_paragraphs.
  repeat first [ apply draw_info_paragraph_refines
               | apply refines_bind; [|intros ?] ].
Qed.

Lemma hero_image_refines (h : hero) :
  refines (Render.hero_image raises h) (PDF.hero_image h).
Proof.
  unfold Render.hero_image, PDF.hero_image. refines_engine.
Qed.

Lemma hero_draw_refines (h : hero) :
  refines (Render.hero_draw raises wrap h) (PDF.hero_draw wrap h).
Proof.
  unfold Render.hero_draw, PDF.hero_draw.
  apply refines_bind; [apply hero_image_refines | intros image_bottom].
  apply refines_bind; [apply hero_paragraphs_refines | intros _].
  apply refines_lift.
Qed.

Lemma hero_separator_refines (key : string) (heroes : list hero) (h : hero) :
  refines (Render.hero_separator raises hero_eq key heroes h)
          (PDF.hero_separator hero_eq key heroes h).
Proof.
  unfold Render.hero_separator, PDF.hero_separator. refines_engine.
Qed.

Lemma hero_gap_refines : refines Render.hero_gap PDF.hero_gap.
Proof. unfold Render.hero_gap, PDF.hero_gap. refines_engine. Qed.

Lemma page_check_refines : refines (Render.page_check raises) PDF.page_check.
Proof. unfold Render.page_check, PDF.page_check. refines_engine. Qed.

Lemma place_hero_refines (key : string) (heroes : list hero) (h : hero) :
  refines (Render.place_hero raises wrap hero_eq key heroes h)
          (PDF.place_hero wrap hero_eq key heroes h).
Proof.
  unfold Render.place_hero, PDF.place_hero.
  apply refines_bind; [apply hero_draw_refines | intros _].
  apply refines_bind; [apply hero_separator_refines | intros _].
  apply refines_bind; [apply hero_gap_refines | intros _].
  apply page_check_refines.
Qed.

Lemma layout_group_refines (key : string) :
  refines (Render.layout_group raises wrap hero_eq key)
          (PDF.layout_group wrap hero_eq key).
Proof.
  unfold Render.layout_group, PDF.layout_group.
  apply refines_bind; [apply group_head_refines | intros _].
  apply refines_bind; [apply refines_lift | intros d]. cbv zeta.
  apply refines_for_each. intros h. apply place_hero_refines.
Qed.

(** [create_pdf] over the backend is [create_pdf]. *)
Lemma create_pdf_refines :
  refines (Render.create_pdf raises wrap hero_eq)
          (PDF.create_pdf wrap hero_eq).
Proof.
  unfold Render.create_pdf, PDF.create_pdf.
  apply refines_bind; [apply refines_lift | intros f].
  apply refines_bind; [apply perform_refines | intros _].
  apply refines_bind; [apply refines_lift | intros ttl].
  apply refines_bind; [apply draw_heading_refines | intros _].
  apply refines_bind; [apply refines_lift | intros d].
  apply refines_bind;
    [apply refines_for_each; intros key; apply layout_group_refines
    | intros _].
  apply refines_bind; [apply perform_refines | intros _].
  apply perform_refines.
Qed.

End RenderFacts.

Section ListCuts.
Context {A : Type}.

Lemma filter_nil_In (f : A -> bool) (l : list A) :
  filter f l = [] -> forall x, In x l -> f x = false.
Proof.
  intros Hnil x Hin. destruct (f x) eqn:Hf; [|reflexivity].
  assert (H : In x (filter f l)) by (apply filter_In; split; assumption).
  rewrite Hnil in H. contradiction.
Qed.

(** Where a list that ends with [x; y] can be cut before an element [c]:
    inside the front, before [x], or before [y]. *)
Lemma cut_before_closing (l t rest : list A) (x y c : A) :
  l ++ [x; y] = t ++ c :: rest ->
  (exists rest', l = t ++ c :: rest') \/
  (t = l /\ c = x) \/
  (t = l ++ [x] /\ c = y).
Proof.
  revert t. induction l as [|a l IH]; intros t H.
  - destruct t as [|b t]; cbn [app] in H.
    + injection H as <- _. right. left. split; reflexivity.
    + injection H as <- H. destruct t as [|b t]; cbn [app] in H.
      * injection H as <- _. right. right. split; reflexivity.
      * injection H as _ H. destruct t; discriminate H.
  - destruct t as [|b t]; cbn [app] in H.
    + injection H as <- H. left. exists l. reflexivity.
    + injection H as <- H. destruct (IH t H) as [[rest' ->]|[[-> ->]|[-> ->]]].
      * left. exists rest'. reflexivity.
      * right. left. split; reflexivity.
      * right. right. split; reflexivity.
Qed.

End ListCuts.

(** X5.  A run of [create_pdf] that returns has opened the canvas once, on
    the file name followed by '.pdf', drawn the title in 18 point at the left
    margin of one inch and at the cursor it found, saved the canvas once,
    after everything else was drawn, and ended with the line it prints.  A
    run in which the backend raises (a [Paragraph] that does not parse, an
    image that does not load, a file that cannot be written) has made the
    calls of that trace up to the one that raised and no other: it has
    printed nothing, and it has saved only if it is [print] that raised. *)
Theorem create_pdf_saves_last (raises : list PDF.call -> Render.request -> bool)
  (wrap : string -> Q -> Q -> Q) (hero_eq : hero -> hero -> bool)
  (pre : list PDF.call) (st : PDF.t) :
  exists body,
    filter Trace.is_document_call body = [] /\
    match PDF.value (Render.create_pdf raises wrap hero_eq pre st) with
    | inr _ =>
        PDF.calls (Render.create_pdf raises wrap hero_eq pre st) =
          [PDF.NewCanvas (PDF.file_name st ++ ".pdf");
           PDF.SetFont (PDF._font st) 18;
           PDF.DrawString Units.inch (PDF._bottom st) (PDF.title st)]
          ++ body
          ++ [PDF.Save;
              PDF.Print ("Created Superheroes PDF '" ++ PDF.file_name st
                         ++ ".pdf'")]
    | inl e =>
        (exists c rest,
           [PDF.NewCanvas (PDF.file_name st ++ ".pdf");
            PDF.SetFont (PDF._font st) 18;
            PDF.DrawString Units.inch (PDF._bottom st) (PDF.title st)]
           ++ body
           ++ [PDF.Save;
               PDF.Print ("Created Superheroes PDF '" ++ PDF.file_name st
                          ++ ".pdf'")]
           = PDF.calls (Render.create_pdf raises wrap hero_eq pre st)
             ++ c :: rest /\
           Render.blames e c) /\
        (forall line,
           ~ In (PDF.Print line)
                (PDF.calls (Render.create_pdf raises wrap hero_eq pre st))) /\
        (In PDF.Save
            (PDF.calls (Render.create_pdf raises wrap hero_eq pre st)) ->
         e = Render.Call
               (PDF.Print ("Created Superheroes PDF '" ++ PDF.file_name st
                           ++ ".pdf'")))
    end.
Proof.
  destruct (create_pdf_calls wrap hero_eq st) as [body [Hcalls Hbody]].
  exists body. split; [exact Hbody|].
  pose proof (create_pdf_refines raises wrap hero_eq pre st) as H.
  destruct (PDF.value (Render.create_pdf raises wrap hero_eq pre st))
    as [e|u].
  - destruct H as [c [rest [Hc Hb]]]. rewrite Hcalls in Hc.
    split; [exists c, rest; split; [exact Hc | exact Hb]|].
    assert (Hfront : forall x,
              In x (PDF.NewCanvas (PDF.file_name st ++ ".pdf")
                    :: PDF.SetFont (PDF._font st) 18
                    :: PDF.DrawString Units.inch (PDF._bottom st)
                         (PDF.title st)
                    :: body) ->
              x <> PDF.Save /\ forall line, x <> PDF.Print line).
    { intros x [<-|[<-|[<-|Hin]]]; try (split; [|intros line]; discriminate).
      pose proof (filter_nil_In _ _ Hbody x Hin) as Hx.
      split; [|intros line]; intros ->; discriminate Hx. }
    apply (cut_before_closing
             (PDF.NewCanvas (PDF.file_name st ++ ".pdf")
              :: PDF.SetFont (PDF._font st) 18
              :: PDF.DrawString Units.inch (PDF._bottom st) (PDF.title st)
              :: body)) in Hc.
    destruct Hc as [[rest' Hl]|[[Ht Hcx]|[Ht Hcy]]].
    + assert (Hsub : forall x,
                In x (PDF.calls
                        (Render.create_pdf raises wrap hero_eq pre st)) ->
                x <> PDF.Save /\ forall line, x <> PDF.Print line).
      { intros x Hin. apply Hfront. rewrite Hl. apply in_or_app. now left. }
      split.
      * intros line Hin. destruct (Hsub _ Hin) as [_ Hp]. now apply (Hp line).
      * intros Hin. destruct (Hsub _ Hin) as [Hs _]. now contradiction Hs.
    + rewrite Ht. split.
      * intros line Hin. destruct (Hfront _ Hin) as [_ Hp].
        now apply (Hp line).
      * intros Hin. destruct (Hfront _ Hin) as [Hs _]. now contradiction Hs.
    + rewrite Ht. split.
      * intros line Hin. apply in_app_or in Hin. destruct Hin as [Hin|Hin].
        -- destruct (Hfront _ Hin) as [_ Hp]. now apply (Hp line).
        -- destruct Hin as [Hin|[]]. discriminate Hin.
      * intros _. subst c. destruct e as [markup|c']; cbn in Hb.
        -- destruct Hb as [x [y Hb]]. discriminate Hb.
        -- now rewrite Hb.
  - destruct H as [_ [_ ->]]. exact Hcalls.
Qed.

(** X6.  A run of [create_pdf] that returns has drawn every member of every
    group once and in the order of the dictionary: the images of the trace
    are the pictures of the members, and the paragraphs of the trace are,
    member after member, the full name, the alter egos, the aliases and the
    place of birth.  A run in which the backend raises has drawn the first
    of these images and the first of these paragraphs, in that order and
    none twice.  With the dictionary of [_prepare_data], the images of a run
    that returns are the pictures of the records given to the constructor,
    each once, and those of a run that raises are some of them. *)
Theorem create_pdf_draws_members_in_order
  (raises : list PDF.call -> Render.request -> bool)
  (wrap : string -> Q -> Q -> Q) (hero_eq : hero -> hero -> bool) :
  (forall (pre : list PDF.call) (st : PDF.t),
     match PDF.value (Render.create_pdf raises wrap hero_eq pre st) with
     | inr _ =>
         Trace.pictures
           (PDF.calls (Render.create_pdf raises wrap hero_eq pre st)) =
           map SuperHero.picture (Trace.members (PDF.data st)) /\
         Trace.paragraphs
           (PDF.calls (Render.create_pdf raises wrap hero_eq pre st)) =
           flat_map PDF.hero_markups (Trace.members (PDF.data st))
     | inl _ =>
         exists pictures_left paragraphs_left,
           map SuperHero.picture (Trace.members (PDF.data st)) =
             Trace.pictures
               (PDF.calls (Render.create_pdf raises wrap hero_eq pre st))
             ++ pictures_left /\
           flat_map PDF.hero_markups (Trace.members (PDF.data st)) =
             Trace.paragraphs
               (PDF.calls (Render.create_pdf raises wrap hero_eq pre st))
             ++ paragraphs_left
     end) /\
  (forall pre file_name title super_heroes st,
     PDF.__init__ file_name title super_heroes = Some st ->
     exists pictures_left,
       Permutation
         (Trace.pictures
            (PDF.calls (Render.create_pdf raises wrap hero_eq pre st))
          ++ pictures_left)
         (map SuperHero.picture super_heroes) /\
       (PDF.value (Render.create_pdf raises wrap hero_eq pre st) = inr tt ->
        pictures_left = [])).
Proof.
  assert (Hall : forall pre st,
    match PDF.value (Render.create_pdf raises wrap hero_eq pre st) with
    | inr _ =>
        Trace.pictures
          (PDF.calls (Render.create_pdf raises wrap hero_eq pre st)) =
          map SuperHero.picture (Trace.members (PDF.data st)) /\
        Trace.paragraphs
          (PDF.calls (Render.create_pdf raises wrap hero_eq pre st)) =
          flat_map PDF.hero_markups (Trace.members (PDF.data st))
    | inl _ =>
        exists pictures_left paragraphs_left,
          map SuperHero.picture (Trace.members (PDF.data st)) =
            Trace.pictures
              (PDF.calls (Render.create_pdf raises wrap hero_eq pre st))
            ++ pictures_left /\
          flat_map PDF.hero_markups (Trace.members (PDF.data st)) =
            Trace.paragraphs
              (PDF.calls (Render.create_pdf raises wrap hero_eq pre st))
            ++ paragraphs_left
    end).
  { intros pre st.
    pose proof (create_pdf_refines raises wrap hero_eq pre st) as H.
    destruct (create_pdf_drawn wrap hero_eq st) as [Hp Hm].
    destruct (PDF.value (Render.create_pdf raises wrap hero_eq pre st))
      as [e|u].
    - destruct H as [c [rest [Hc _]]].
      exists (Trace.pictures (c :: rest)), (Trace.paragraphs (c :: rest)).
      rewrite <- Hp, <- Hm, Hc, pictures_app, paragraphs_app.
      split; reflexivity.
    - destruct H as [_ [_ ->]]. split; assumption. }
  split; [exact Hall|].
  intros pre file_name title super_heroes st Hinit.
  pose proof (init_members file_name title super_heroes st Hinit) as Hperm.
  specialize (Hall pre st).
  destruct (PDF.value (Render.create_pdf raises wrap hero_eq pre st))
    as [e|u].
  - destruct Hall as [pl [_ [Hpl _]]]. exists pl. split.
    + rewrite <- Hpl. now apply Permutation_map.
    + intros Hv. discriminate Hv.
  - destruct Hall as [Hp _]. exists []. split; [|reflexivity].
    rewrite app_nil_r, Hp. now apply Permutation_map.
Qed.

Lemma create_pdf_draws_members_in_order_witness :
  exists pictures_left,
    Permutation
      (Trace.pictures
         (PDF.calls
            (Render.create_pdf Sample.strict Sample.one_line Sample.value_eq
               [] (Sample.pdf_of
                     [("Businessman", [Sample.batman]);
                      ("Professional criminal", [Sample.riddler])])))
       ++ pictures_left)
      (map SuperHero.picture [Sample.batman; Sample.riddler]) /\
    (PDF.value
       (Render.create_pdf Sample.strict Sample.one_line Sample.value_eq
          [] (Sample.pdf_of
                [("Businessman", [Sample.batman]);
                 ("Professional criminal", [Sample.riddler])])) = inr tt ->
     pictures_left = []).
Proof.
  apply (proj2 (create_pdf_draws_members_in_order Sample.strict
                  Sample.one_line Sample.value_eq)
           [] "super_heroes" "The Super Heroes API - DC Comics"
           [Sample.batman; Sample.riddler]).
  reflexivity.
Defined.

(** A name that is not markup: the run raises at the [Paragraph] of the
    name, after the image of the record was drawn; nothing of the record is
    written, the records after it are not reached, the file is not saved
    and nothing is printed. *)
Example refused_markup_ends_the_run :
  PDF.value (Render.create_pdf Sample.strict Sample.one_line Sample.value_eq
               [] (Sample.pdf_of Sample.with_riddler))
    = inl (Render.Build "<b>Full name:</b> Edward <Nigma") /\
  Trace.pictures
    (PDF.calls (Render.create_pdf Sample.strict Sample.one_line
                  Sample.value_eq [] (Sample.pdf_of Sample.with_riddler)))
    = ["70-batman.jpg"; "558-riddler.jpg"] /\
  Trace.paragraphs
    (PDF.calls (Render.create_pdf Sample.strict Sample.one_line
                  Sample.value_eq [] (Sample.pdf_of Sample.with_riddler)))
    = PDF.hero_markups Sample.batman /\
  filter Trace.is_document_call
    (PDF.calls (Render.create_pdf Sample.strict Sample.one_line
                  Sample.value_eq [] (Sample.pdf_of Sample.with_riddler)))
    = [PDF.NewCanvas "super_heroes.pdf"].
Proof. repeat split. Qed.

(** A file that cannot be written: everything is drawn, nothing is saved and
    nothing is printed. *)
Example failed_save_prints_nothing :
  PDF.value (Render.create_pdf Sample.read_only Sample.one_line
               Sample.value_eq [] (Sample.pdf_of Sample.with_riddler))
    = inl (Render.Call PDF.Save) /\
  Trace.pictures
    (PDF.calls (Render.create_pdf Sample.read_only Sample.one_line
                  Sample.value_eq [] (Sample.pdf_of Sample.with_riddler)))
    = ["70-batman.jpg"; "558-riddler.jpg"; "263-flash.jpg"] /\
  filter Trace.is_document_call
    (PDF.calls (Render.create_pdf Sample.read_only Sample.one_line
                  Sample.value_eq [] (Sample.pdf_of Sample.with_riddler)))
    = [PDF.NewCanvas "super_heroes.pdf"].
Proof. repeat split. Qed.

(** X10.  Within a group every image is drawn at one left margin and every
    paragraph at another, whatever margins the object held before the group:
    an inch and two and a half inches, or, under the heading of a shared
    occupation, half an inch more each. *)
Theorem group_margins (wrap : string -> Q -> Q -> Q)
  (hero_eq : hero -> hero -> bool) (st : PDF.t) (key : string) :
  let shared := Trace.shared (PDF.data st) key in
  let info := (2 * Units.inch + Units.inch / 2)%Q in
  Forall (Trace.at_margins
            (if shared then (info + Units.inch / 2)%Q else info)
            (if shared then (Units.inch + Units.inch / 2)%Q else Units.inch))
         (PDF.calls (PDF.layout_group wrap hero_eq key st)).
Proof.
  intros shared info.
  destruct (layout_group_drawn wrap hero_eq key st) as [_ [_ [_ H]]].
  assert (Hv : PDF.value (PDF._shared_occupation key st) = shared)
    by (rewrite shared_occupation_run; reflexivity).
  destruct shared.
  - rewrite (group_head_shared key st Hv) in H. exact H.
  - rewrite (group_head_not_shared key st Hv) in H. exact H.
Qed.

(** ** The layout engine: counting page breaks *)

Section BreakFacts.
Import PDF Trace Units.
Local Open Scope Z_scope.

Variable wrap : string -> Q -> Q -> Q.
Variable hero_eq : hero -> hero -> bool.

Lemma page_breaks_app (a b : list call) :
  page_breaks (a ++ b) = (page_breaks a + page_breaks b)%nat.
Proof. unfold page_breaks. now rewrite filter_app, length_app. Qed.

(** One hero: a break when it is the fifth item, and only then. *)
Lemma place_hero_breaks (key : string) (heroes : list hero) (h : hero)
  (st : PDF.t) :
  let r := place_hero wrap hero_eq key heroes h st in
  (_page_items st = 4 ->
     page_breaks (calls r) = 1%nat /\ _page_items (state r) = 0) /\
  (_page_items st <> 4 ->
     page_breaks (calls r) = 0%nat /\
     _page_items (state r) = _page_items st + 1).
Proof.
  intros r.
  destruct (place_hero_page_break wrap hero_eq key heroes h st) as [Hb Hn].
  fold r in Hb, Hn. unfold page_breaks. split; intros H.
  - destruct (Hb H) as [Hc [Hp _]]. rewrite Hc.
    split; [reflexivity | exact Hp].
  - destruct (Hn H) as [Hc Hp]. rewrite Hc.
    split; [reflexivity | exact Hp].
Qed.

(** The members of a group on pages that are not overfull. *)
Lemma members_breaks (key : string) (heroes l : list hero) : forall st : PDF.t,
  0 <= _page_items st <= 4 ->
  let r := for_each l (place_hero wrap hero_eq key heroes) st in
  Z.of_nat (page_breaks (calls r)) =
    (_page_items st + Z.of_nat (List.length l)) / 5 /\
  _page_items (state r) = (_page_items st + Z.of_nat (List.length l)) mod 5.
Proof.
  induction l as [|h l IH]; intros st Hp r; unfold r; cbn [for_each].
  - cbn [ret calls state page_breaks filter List.length Z.of_nat].
    rewrite Z.add_0_r. split.
    + symmetry. apply Z.div_small. lia.
    + symmetry. apply Z.mod_small. lia.
  - rewrite bind_calls, bind_state, page_breaks_app.
    destruct (place_hero_breaks key heroes h st) as [Hb Hn].
    set (s1 := state (place_hero wrap hero_eq key heroes h st)) in *.
    rewrite Nat2Z.inj_add. cbn [List.length]. rewrite Nat2Z.inj_succ.
    destruct (Z.eq_dec (_page_items st) 4) as [E|E].
    + destruct (Hb E) as [Hc Hs]. specialize (IH s1).
      rewrite Hs in IH. destruct IH as [I1 I2]; [lia|].
      rewrite Hc, I1, I2, E. cbn [Z.of_nat].
      split; Z.to_euclidean_division_equations; lia.
    + destruct (Hn E) as [Hc Hs]. specialize (IH s1).
      rewrite Hs in IH. destruct IH as [I1 I2]; [lia|].
      rewrite Hc, I1, I2. cbn [Z.of_nat].
      replace (_page_items st + Z.succ (Z.of_nat (List.length l)))
        with (_page_items st + 1 + Z.of_nat (List.length l)) by lia.
      split; lia.
Qed.

(** The members of a group once the counter has passed five. *)
Lemma members_stuck (key : string) (heroes l : list hero) : forall st : PDF.t,
  5 <= _page_items st ->
  let r := for_each l (place_hero wrap hero_eq key heroes) st in
  page_breaks (calls r) = 0%nat /\
  _page_items (state r) = _page_items st + Z.of_nat (List.length l).
Proof.
  induction l as [|h l IH]; intros st Hp r; unfold r; cbn [for_each].
  - cbn [ret calls state page_breaks filter List.length Z.of_nat]. split; lia.
  - rewrite bind_calls, bind_state, page_breaks_app.
    destruct (place_hero_breaks key heroes h st) as [_ Hn].
    destruct Hn as [Hc Hs]; [lia|].
    set (s1 := state (place_hero wrap hero_eq key heroes h st)) in *.
    destruct (IH s1) as [I1 I2]; [lia|].
    rewrite Hc, I1, I2, Hs. cbn [List.length]. split; lia.
Qed.

Lemma group_head_counter (key : string) (st : PDF.t) :
  page_breaks (calls (group_head key st)) = 0%nat /\
  _page_items (state (group_head key st)) =
    _page_items st + (if shared (data st) key then 1 else 0).
Proof.
  assert (Hv : value (_shared_occupation key st) = shared (data st) key)
    by (rewrite shared_occupation_run; reflexivity).
  destruct (shared (data st) key).
  - rewrite (group_head_shared key st Hv). split; reflexivity.
  - rewrite (group_head_not_shared key st Hv). cbn [calls state].
    split; [reflexivity|]. cbn [set_right_image set_right_info _page_items].
    lia.
Qed.

Lemma layout_group_split (key : string) (st : PDF.t) :
  let s1 := state (group_head key st) in
  let heroes := getitem (data st) key in
  calls (layout_group wrap hero_eq key st) =
    calls (group_head key st)
    ++ calls (for_each heroes (place_hero wrap hero_eq key heroes) s1) /\
  state (layout_group wrap hero_eq key st) =
    state (for_each heroes (place_hero wrap hero_eq key heroes) s1).
Proof.
  intros s1 heroes. unfold layout_group.
  rewrite !bind_calls, !bind_state. cbn [gets value state calls app].
  fold s1. assert (Hd : data s1 = data st) by apply keeps_group_head.
  rewrite Hd. split; reflexivity.
Qed.

(** Groups without heading on pages that are not overfull. *)
Lemma groups_breaks (d : Dict.t) (keys : list string) : forall st : PDF.t,
  data st = d ->
  (forall key, In key keys -> shared d key = false) ->
  0 <= _page_items st <= 4 ->
  let r := for_each keys (layout_group wrap hero_eq) st in
  let n := Z.of_nat (List.length (flat_map (getitem d) keys)) in
  Z.of_nat (page_breaks (calls r)) = (_page_items st + n) / 5 /\
  _page_items (state r) = (_page_items st + n) mod 5.
Proof.
  induction keys as [|key keys IH]; intros st Hd Hns Hp r n; unfold r, n;
    cbn [for_each flat_map].
  - cbn [ret calls state page_breaks filter List.length Z.of_nat].
    rewrite Z.add_0_r. split.
    + symmetry. apply Z.div_small. lia.
    + symmetry. apply Z.mod_small. lia.
  - rewrite bind_calls, bind_state, page_breaks_app.
    destruct (layout_group_split key st) as [Hc Hs]. cbv zeta in Hc, Hs.
    destruct (group_head_counter key st) as [Hg0 Hg1].
    rewrite Hd, (Hns key (or_introl eq_refl)), Z.add_0_r in Hg1.
    rewrite Hd in Hc, Hs.
    destruct (members_breaks key (getitem d key) (getitem d key)
                (state (group_head key st))) as [M1 M2];
      [rewrite Hg1; exact Hp|].
    rewrite Hg1 in M1, M2. rewrite <- Hs in M2.
    set (s1 := state (layout_group wrap hero_eq key st)) in *.
    assert (Hd1 : data s1 = d)
      by (unfold s1; rewrite keeps_layout_group; exact Hd).
    destruct (IH s1 Hd1 (fun k Hk => Hns k (or_intror Hk))) as [I1 I2].
    { rewrite M2. Z.to_euclidean_division_equations. lia. }
    rewrite Hc, page_breaks_app, Hg0, length_app.
    rewrite !Nat2Z.inj_add. cbn [Nat.add Z.of_nat].
    rewrite M1, I1, I2, M2.
    split; Z.to_euclidean_division_equations; lia.
Qed.

(** Groups once the counter has passed five. *)
Lemma groups_stuck (d : Dict.t) (keys : list string) : forall st : PDF.t,
  data st = d ->
  5 <= _page_items st ->
  let r := for_each keys (layout_group wrap hero_eq) st in
  page_breaks (calls r) = 0%nat /\
  _page_items (state r) =
    _page_items st + Z.of_nat (List.length (flat_map (getitem d) keys))
    + Z.of_nat (List.length (filter (shared d) keys)).
Proof.
  induction keys as [|key keys IH]; intros st Hd Hp r; unfold r;
    cbn [for_each flat_map filter].
  - cbn [ret calls state page_breaks filter List.length Z.of_nat]. split; lia.
  - rewrite bind_calls, bind_state, page_breaks_app.
    destruct (layout_group_split key st) as [Hc Hs]. cbv zeta in Hc, Hs.
    destruct (group_head_counter key st) as [Hg0 Hg1].
    rewrite Hd in Hg1, Hc, Hs.
    destruct (members_stuck key (getitem d key) (getitem d key)
                (state (group_head key st))) as [M1 M2].
    { rewrite Hg1. destruct (shared d key); lia. }
    rewrite Hg1 in M2. rewrite <- Hs in M2.
    set (s1 := state (layout_group wrap hero_eq key st)) in *.
    assert (Hd1 : data s1 = d)
      by (unfold s1; rewrite keeps_layout_group; exact Hd).
    destruct (IH s1 Hd1) as [I1 I2].
    { rewrite M2. destruct (shared d key); lia. }
    rewrite Hc, page_breaks_app, Hg0, M1, I1, I2, M2, length_app.
    rewrite Nat2Z.inj_add.
    destruct (shared d key); cbn [List.length]; split; lia.
Qed.

(** The title, the opening and the closing of the document add no break and
    leave the counter alone. *)
Lemma create_pdf_split (st : PDF.t) :
  let s1 := set_bottom (_bottom st - inch / 2)%Q st in
  let r := for_each (Dict.keys (data st)) (layout_group wrap hero_eq) s1 in
  page_breaks (calls (create_pdf wrap hero_eq st)) = page_breaks (calls r) /\
  _page_items (state (create_pdf wrap hero_eq st)) = _page_items (state r).
Proof.
  intros s1 r. unfold create_pdf. rewrite !bind_calls, !bind_state.
  cbn [gets emit value state calls].
  rewrite draw_heading_run. cbn [value state calls].
  fold s1. change (Dict.keys (data s1)) with (Dict.keys (data st)). fold r.
  rewrite !page_breaks_app. cbn [page_breaks filter is_show_page List.length].
  split; [lia | reflexivity].
Qed.

End BreakFacts.

(** X7.  When no group of the dictionary has a heading (each has one member
    or is keyed "-") and the counter starts between 0 and 4, a run of
    [create_pdf] signals a page break after every fifth hero: with counter
    [p] at the start and [n] members in all it signals [(p + n) / 5] breaks
    and ends with the counter at [(p + n) mod 5]. *)
Theorem page_breaks_without_headings (wrap : string -> Q -> Q -> Q)
  (hero_eq : hero -> hero -> bool) (st : PDF.t)
  (Hp : (0 <= PDF._page_items st <= 4)%Z)
  (Hns : forall key, In key (Dict.keys (PDF.data st)) ->
           Trace.shared (PDF.data st) key = false) :
  let r := PDF.create_pdf wrap hero_eq st in
  let n := Z.of_nat (List.length (Trace.members (PDF.data st))) in
  Z.of_nat (Trace.page_breaks (PDF.calls r)) = ((PDF._page_items st + n) / 5)%Z /\
  PDF._page_items (PDF.state r) = ((PDF._page_items st + n) mod 5)%Z.
Proof.
  intros r n. unfold r, n.
  destruct (create_pdf_split wrap hero_eq st) as [Hc Hs]. cbv zeta in Hc, Hs.
  rewrite Hc, Hs.
  exact (groups_breaks wrap hero_eq (PDF.data st) (Dict.keys (PDF.data st))
           (PDF.set_bottom (PDF._bottom st - Units.inch / 2) st)
           eq_refl Hns Hp).
Qed.

Lemma page_breaks_without_headings_witness :
  let r := PDF.create_pdf Sample.one_line Sample.value_eq
             (Sample.pdf_of Sample.unshared) in
  Z.of_nat (Trace.page_breaks (PDF.calls r)) = 1%Z /\
  PDF._page_items (PDF.state r) = 1%Z.
Proof.
  apply (page_breaks_without_headings Sample.one_line Sample.value_eq
           (Sample.pdf_of Sample.unshared)).
  - simpl. lia.
  - intros key Hin. simpl in Hin.
    repeat (destruct Hin as [<-|Hin]; [reflexivity|]). contradiction.
Defined.

(** X8.  Once the page-item counter is 5 or more when a run of [create_pdf]
    starts its groups, as it is after a heading was the fifth item of a page,
    the run signals no page break at all, and the counter ends increased by
    the number of members and of headings it went through. *)
Theorem no_page_break_past_five (wrap : string -> Q -> Q -> Q)
  (hero_eq : hero -> hero -> bool) (st : PDF.t)
  (Hp : (5 <= PDF._page_items st)%Z) :
  let r := PDF.create_pdf wrap hero_eq st in
  let d := PDF.data st in
  Trace.page_breaks (PDF.calls r) = 0%nat /\
  PDF._page_items (PDF.state r) =
    (PDF._page_items st + Z.of_nat (List.length (Trace.members d))
     + Z.of_nat (List.length (filter (Trace.shared d) (Dict.keys d))))%Z.
Proof.
  intros r d. unfold r, d.
  destruct (create_pdf_split wrap hero_eq st) as [Hc Hs]. cbv zeta in Hc, Hs.
  rewrite Hc, Hs.
  exact (groups_stuck wrap hero_eq (PDF.data st) (Dict.keys (PDF.data st))
           (PDF.set_bottom (PDF._bottom st - Units.inch / 2) st)
           eq_refl Hp).
Qed.

Lemma no_page_break_past_five_witness :
  let st := PDF.set_page_items 5 (Sample.pdf_of Sample.six_grouped) in
  let r := PDF.create_pdf Sample.one_line Sample.value_eq st in
  Trace.page_breaks (PDF.calls r) = 0%nat /\
  PDF._page_items (PDF.state r) = 12%Z.
Proof.
  apply (no_page_break_past_five Sample.one_line Sample.value_eq
           (PDF.set_page_items 5 (Sample.pdf_of Sample.six_grouped))).
  simpl. lia.
Defined.

(** ** The layout engine: images stay on the page *)

Section RoomFacts.
Import PDF Trace Units.
Local Open Scope Q_scope.

Variable wrap : string -> Q -> Q -> Q.
Variable hero_eq : hero -> hero -> bool.

Lemma image_heights_app (a b : list call) :
  image_heights (a ++ b) = image_heights a ++ image_heights b.
Proof. apply flat_map_app. Qed.

(** A hero of a group without heading: where its image goes and where the
    cursor is afterwards. *)
Lemma place_hero_unshared (key : string) (heroes : list hero) (h : hero)
  (st : PDF.t) :
  shared (data st) key = false ->
  let r := place_hero wrap hero_eq key heroes h st in
  image_heights (calls r) = [_bottom st - 640 / 5 + 20] /\
  (_page_items st = 4%Z ->
     _bottom (state r) = 11 * inch /\ _page_items (state r) = 0%Z) /\
  (_page_items st <> 4%Z ->
     _bottom (state r) = _bottom st - 640 / 5 - inch / 4 /\
     _page_items (state r) = (_page_items st + 1)%Z).
Proof.
  intros Hns r. unfold r.
  rewrite place_hero_calls, place_hero_state. cbv zeta.
  assert (Hskip : forall s, data s = data st ->
            hero_separator hero_eq key heroes h s = Outcome tt s []).
  { intros s Hs. apply hero_separator_skipped.
    rewrite shared_occupation_run. cbn [value]. rewrite Hs.
    fold (shared (data st) key). now rewrite Hns. }
  rewrite (Hskip (state (hero_draw wrap h st))) by reflexivity.
  cbn [state calls]. rewrite hero_gap_run. cbn [state calls].
  rewrite hero_draw_state, hero_draw_calls, hero_image_run,
    hero_paragraphs_run.
  cbv zeta. cbn [calls app].
  set (s3 := set_bottom _ _).
  assert (Hn : _page_items s3 = (_page_items st + 1)%Z) by reflexivity.
  assert (Hb : _bottom s3 = _bottom st - 640 / 5 - inch / 4) by reflexivity.
  destruct (Z.eq_dec (_page_items st) 4) as [E|E].
  - rewrite page_check_break by (rewrite Hn, E; reflexivity).
    split; [reflexivity|]. split; [|intros; contradiction].
    intros _. split; reflexivity.
  - rewrite page_check_no_break by (rewrite Hn; lia).
    split; [reflexivity|]. split; [intros; contradiction|].
    intros _. split; [exact Hb | exact Hn].
Qed.

(** The constants of the layout, in points. *)
Lemma slot_points : 640 / 5 == 128.
Proof. reflexivity. Qed.

Lemma quarter_inch_points : inch / 4 == 18.
Proof. reflexivity. Qed.

Lemma half_inch_points : inch / 2 == 36.
Proof. reflexivity. Qed.

Lemma page_top_points : 11 * inch == 792.
Proof. reflexivity. Qed.

Lemma inject_Z_succ (n : Z) : inject_Z (n + 1) == inject_Z n + 1.
Proof. rewrite inject_Z_plus. reflexivity. Qed.

Lemma inject_Z_upto_4 (n : Z) : (0 <= n <= 4)%Z -> inject_Z n <= 4.
Proof.
  intros H. change 4 with (inject_Z 4). rewrite <- Zle_Qle. lia.
Qed.

(** A hero of a group without heading on a roomy page: its image is at least
    64 points above the bottom of the page, and the page is roomy after
    it. *)
Lemma place_hero_room (key : string) (heroes : list hero) (h : hero)
  (st : PDF.t) :
  shared (data st) key = false -> roomy st ->
  Forall (fun y => 64 <= y)
    (image_heights (calls (place_hero wrap hero_eq key heroes h st))) /\
  roomy (state (place_hero wrap hero_eq key heroes h st)).
Proof.
  intros Hns [Hp Hb].
  destruct (place_hero_unshared key heroes h st Hns) as [Hy [Hbreak Hnext]].
  pose proof (inject_Z_upto_4 _ Hp) as H4.
  split.
  - rewrite Hy. constructor; [|constructor]. rewrite slot_points. lra.
  - destruct (Z.eq_dec (_page_items st) 4) as [E|E].
    + destruct (Hbreak E) as [Hb' Hn']. unfold roomy.
      rewrite Hb', Hn'. split; [lia|]. rewrite page_top_points.
      change (inject_Z 0) with 0. lra.
    + destruct (Hnext E) as [Hb' Hn']. unfold roomy. rewrite Hb', Hn'.
      split; [lia|].
      rewrite inject_Z_succ, slot_points, quarter_inch_points. lra.
Qed.

Lemma members_room (key : string) (heroes l : list hero) : forall st : PDF.t,
  shared (data st) key = false -> roomy st ->
  Forall (fun y => 64 <= y)
    (image_heights (calls (for_each l (place_hero wrap hero_eq key heroes) st)))
  /\ roomy (state (for_each l (place_hero wrap hero_eq key heroes) st)).
Proof.
  induction l as [|h l IH]; intros st Hns Hr; cbn [for_each].
  - split; [constructor | exact Hr].
  - rewrite bind_calls, bind_state, image_heights_app.
    destruct (place_hero_room key heroes h st Hns Hr) as [Hy Hr'].
    destruct (IH (state (place_hero wrap hero_eq key heroes h st)))
      as [Hys Hr'']; [now rewrite keeps_place_hero | exact Hr'|].
    split; [apply Forall_app; now split | exact Hr''].
Qed.

Lemma layout_group_room (key : string) (st : PDF.t) :
  shared (data st) key = false -> roomy st ->
  Forall (fun y => 64 <= y)
    (image_heights (calls (layout_group wrap hero_eq key st))) /\
  roomy (state (layout_group wrap hero_eq key st)).
Proof.
  intros Hns Hr.
  destruct (layout_group_split wrap hero_eq key st) as [Hc Hs].
  cbv zeta in Hc, Hs. rewrite Hc, Hs.
  assert (Hv : value (_shared_occupation key st) = false)
    by (rewrite shared_occupation_run; exact Hns).
  rewrite (group_head_not_shared key st Hv). cbn [calls state app].
  apply members_room; [exact Hns | exact Hr].
Qed.

Lemma groups_room (d : Dict.t) (keys : list string) : forall st : PDF.t,
  data st = d ->
  (forall key, In key keys -> shared d key = false) -> roomy st ->
  Forall (fun y => 64 <= y)
    (image_heights (calls (for_each keys (layout_group wrap hero_eq) st))).
Proof.
  induction keys as [|key keys IH]; intros st Hd Hns Hr; cbn [for_each].
  - constructor.
  - rewrite bind_calls, image_heights_app.
    destruct (layout_group_room key st) as [Hy Hr'];
      [rewrite Hd; apply Hns; now left | exact Hr|].
    apply Forall_app. split; [exact Hy|].
    apply IH; [now rewrite keeps_layout_group | | exact Hr'].
    intros k Hk. apply Hns. now right.
Qed.

End RoomFacts.

(** X12.  When no group of the dictionary has a heading and the object is as
    the constructor leaves it (counter 0, cursor at the top of the page), or
    more generally has its cursor at least 792 - 146 p points up with p items
    on the page, a run of [create_pdf] draws every image at least 64 points
    above the bottom of the page. *)
Theorem images_stay_on_page (wrap : string -> Q -> Q -> Q)
  (hero_eq : hero -> hero -> bool) (st : PDF.t)
  (Hp : (0 <= PDF._page_items st <= 4)%Z)
  (Hb : (792 - 146 * inject_Z (PDF._page_items st) <= PDF._bottom st)%Q)
  (Hns : forall key, In key (Dict.keys (PDF.data st)) ->
           Trace.shared (PDF.data st) key = false) :
  Forall (fun y => (64 <= y)%Q)
    (Trace.image_heights (PDF.calls (PDF.create_pdf wrap hero_eq st))).
Proof.
  unfold PDF.create_pdf. rewrite !bind_calls.
  cbn [PDF.gets PDF.emit PDF.value PDF.state PDF.calls].
  rewrite draw_heading_run. cbn [PDF.value PDF.state PDF.calls app].
  unfold Trace.image_heights. cbn [flat_map app].
  rewrite flat_map_app. cbn [flat_map app]. rewrite app_nil_r.
  apply (groups_room wrap hero_eq (PDF.data st)); [reflexivity | exact Hns|].
  split; [exact Hp|].
  change (756 - 146 * inject_Z (PDF._page_items st)
          <= PDF._bottom st - Units.inch / 2)%Q.
  rewrite half_inch_points. lra.
Qed.

Lemma images_stay_on_page_witness :
  Forall (fun y => (64 <= y)%Q)
    (Trace.image_heights
       (PDF.calls (PDF.create_pdf Sample.one_line Sample.value_eq
                     (Sample.pdf_of Sample.unshared)))).
Proof.
  apply (images_stay_on_page Sample.one_line Sample.value_eq
           (Sample.pdf_of Sample.unshared)).
  - simpl. lia.
  - vm_compute. discriminate.
  - intros key Hin. simpl in Hin.
    repeat (destruct Hin as [<-|Hin]; [reflexivity|]). contradiction.
Defined.

(** With a heading the same does not hold: the six sample heroes end with
    an image below the bottom of the page. *)
Example image_below_page :
  exists y,
    In y (Trace.image_heights
            (PDF.calls (PDF.create_pdf Sample.one_line Sample.value_eq
                          (Sample.pdf_of Sample.six_grouped)))) /\
    (y < 0)%Q.
Proof.
  eexists. split.
  - vm_compute. do 5 right. left. reflexivity.
  - vm_compute. reflexivity.
Qed.

(** ** Paragraph markup *)

Section MarkupFacts.
Import PDF Trace.

Lemma occurs_app (c : ascii) (a b : string) :
  occurs c (a ++ b) = occurs c a || occurs c b.
Proof.
  induction a as [|x a IH]; cbn [String.append occurs]; [reflexivity|].
  rewrite IH. apply orb_assoc.
Qed.

(** [replace] leaves no occurrence of the character behind, as long as the
    replacement has none. *)
Lemma replace_char_clears (c : ascii) (by_ s : string) :
  occurs c by_ = false -> occurs c (Py.replace_char c by_ s) = false.
Proof.
  intros Hby. induction s as [|x s IH]; cbn [Py.replace_char occurs];
    [reflexivity|].
  destruct (Ascii.eqb x c) eqn:E.
  - rewrite occurs_app, Hby, IH. reflexivity.
  - cbn [occurs]. rewrite E, IH. reflexivity.
Qed.

(** [replace] returns a string without the character as it is. *)
Lemma replace_char_absent (c : ascii) (by_ s : string) :
  occurs c s = false -> Py.replace_char c by_ s = s.
Proof.
  induction s as [|x s IH]; cbn [Py.replace_char occurs]; [reflexivity|].
  destruct (Ascii.eqb x c); cbn [orb]; [discriminate|].
  intros H. now rewrite IH.
Qed.

Lemma info_markup_clear (ttl msg : string) :
  occurs Py.nl ttl = false -> occurs Py.nl (info_markup ttl msg) = false.
Proof.
  intros Ht. unfold info_markup.
  rewrite !occurs_app, Ht, replace_char_clears by reflexivity.
  reflexivity.
Qed.

End MarkupFacts.

(** X11.  No paragraph handed to the backend for a hero contains a newline
    character, whatever the fields of the record hold: every newline of a
    field has become a [<br />] tag.  A field without newline is passed on
    as it is, after its label in bold. *)
Theorem markup_has_no_newline (h : hero) :
  (forall m, In m (PDF.hero_markups h) -> Trace.occurs Py.nl m = false) /\
  (forall ttl msg, Trace.occurs Py.nl msg = false ->
     PDF.info_markup ttl msg = ("<b>" ++ ttl ++ ":</b> " ++ msg)%string).
Proof.
  split.
  - intros m Hm. cbn [PDF.hero_markups In] in Hm.
    destruct Hm as [<-|[<-|[<-|[<-|[]]]]]; apply info_markup_clear;
      reflexivity.
  - intros ttl msg Hmsg. unfold PDF.info_markup.
    now rewrite replace_char_absent.
Qed.

(** A place of birth on two lines. *)
Example markup_two_lines :
  PDF.info_markup "Place of Birth"
    (String.append "Gotham" (String Py.nl "USA"))
  = "<b>Place of Birth:</b> Gotham<br />USA"%string.
Proof. reflexivity. Qed.

(** ** The client: what a request returns *)


(** X13.  What [_make_request] does with the response the session returns.
    It raises exactly for a status from 400 to 599 other than 404, and what
    it raises is the [HTTPError] of that status.  It logs an error exactly
    for a status of 400 or more other than 404, so a status of 600 or more
    is logged as an error and still returns [None].  Status 200 returns the
    decoded JSON, or the raw text of the response when the JSON does not
    decode; every other status that does not raise returns [None]. *)
Theorem make_request_outcome (send : Client.route -> Client.sent)
  (rt : Client.route) (r : Client.response)
  (Hsend : send rt = Client.Returns r) :
  let c := Client.status_code r in
  let res := Client._make_request send rt in
  ((exists e, fst res = inl e) <-> (400 <= c < 600 /\ c <> 404)%Z) /\
  (forall e, fst res = inl e -> e = Client.HTTPError c) /\
  (In (Client.LogError c) (snd res) <-> (400 <= c /\ c <> 404)%Z) /\
  (c = 200%Z ->
     fst res = inr (match Client.json r with
                    | Some res_json => res_json
                    | None => Client.PStr (Client.text r)
                    end)) /\
  (c <> 200%Z -> forall v, fst res = inr v -> v = Client.PNone).
Proof.
  intros c res. unfold res, Client._make_request. rewrite Hsend. fold c.
  destruct (c =? 200)%Z eqn:E200.
  { apply Z.eqb_eq in E200.
    split; [split; [intros [e He]; destruct (Client.json r); discriminate He
                   | lia]|].
    split; [intros e He; destruct (Client.json r); discriminate He|].
    split.
    { split; [|lia]. intros Hin.
      destruct (Client.json r); cbn [snd In] in Hin;
        intuition discriminate. }
    split; [intros _; destruct (Client.json r); reflexivity | lia]. }
  apply Z.eqb_neq in E200.
  destruct (c =? 404)%Z eqn:E404.
  { apply Z.eqb_eq in E404. cbn [fst snd].
    split; [split; [intros [e He]; discriminate He | lia]|].
    split; [intros e He; discriminate He|].
    split; [split; [cbn [In]; intuition discriminate | lia]|].
    split; [lia|]. intros _ v Hv. now injection Hv as <-. }
  apply Z.eqb_neq in E404.
  destruct (c >=? 400)%Z eqn:E400.
  - apply Z.geb_le in E400. unfold Client.raise_for_status.
    destruct ((400 <=? c) && (c <? 600))%Z eqn:Erange.
    + apply andb_true_iff in Erange. destruct Erange as [H1 H2].
      apply Z.leb_le in H1. apply Z.ltb_lt in H2. cbn [fst snd].
      split; [split; [lia | intros _; eexists; reflexivity]|].
      split; [intros e He; now injection He as <-|].
      split; [split; [lia | intros _; right; now left]|].
      split; [lia|]. intros _ v Hv. discriminate Hv.
    + apply andb_false_iff in Erange. cbn [fst snd].
      assert (Hout : (600 <= c)%Z).
      { destruct Erange as [H|H];
          [apply Z.leb_gt in H | apply Z.ltb_ge in H]; lia. }
      split; [split; [intros [e He]; discriminate He | lia]|].
      split; [intros e He; discriminate He|].
      split; [split; [lia | intros _; right; now left]|].
      split; [lia|]. intros _ v Hv. now injection Hv as <-.
  - assert (Hlow : (c < 400)%Z).
    { destruct (Z.lt_ge_cases c 400) as [H|H]; [exact H|].
      apply Z.geb_le in H. congruence. }
    cbn [fst snd].
    split; [split; [intros [e He]; discriminate He | lia]|].
    split; [intros e He; discriminate He|].
    split; [split; [cbn [In]; intuition discriminate | lia]|].
    split; [lia|]. intros _ v Hv. now injection Hv as <-.
Qed.

Lemma make_request_outcome_witness :
  exists e, fst (Client._make_request Sample.source (Client.BiographyRoute 5))
            = inl e.
Proof.
  destruct (make_request_outcome Sample.source (Client.BiographyRoute 5)
              (Client.mkResponse 500 None "Internal Server Error") eq_refl)
    as [[_ Hraise] _].
  apply Hraise. cbn [Client.status_code]. lia.
Defined.

(** ** The fetcher: where a run ends *)

Section VisitFacts.
Import Client Main Visit.
Local Open Scope Z_scope.

Variable send : route -> sent.
Variable from_api : pyval -> exn + hero.

(** The loop body reads [hero_id] and appends to the lists; what it does
    otherwise depends on the identifier alone. *)
Lemma iteration_verdict (s : vars) :
  let i := hero_id s + 1 in
  fst (iteration send from_api s) =
  match verdict_of send from_api i with
  | Appends h =>
      Continue (mkVars (super_heroes s ++ [h]) i (accepted s ++ [i]))
  | Skips => Continue (mkVars (super_heroes s) i (accepted s))
  | Fatal e => Uncaught e (mkVars (super_heroes s) i (accepted s))
  end.
Proof.
  intros i. unfold verdict_of, visit, iteration.
  cbn [hero_id super_heroes accepted app].
  replace (i - 1 + 1) with i by lia. fold i.
  destruct (get_biography send i) as [rb lb].
  destruct rb as [e|biography].
  { unfold handle. destruct (is_HTTPError e); reflexivity. }
  destruct (negb (truthy biography)); [reflexivity|].
  destruct (subscript biography "publisher") as [e|publisher].
  { unfold handle. destruct (is_HTTPError e); reflexivity. }
  destruct (eq_str publisher "DC Comics"); [|reflexivity].
  destruct (get_super_hero send i) as [rh lh].
  destruct rh as [e|h].
  { unfold handle. destruct (is_HTTPError e); reflexivity. }
  destruct (negb (truthy h)); [reflexivity|].
  destruct (from_api h) as [e|super_hero].
  { unfold handle. destruct (is_HTTPError e); reflexivity. }
  reflexivity.
Qed.

Lemma ids_from_S (h : Z) (n : nat) :
  ids_from h (S n) = (h + 1) :: ids_from (h + 1) n.
Proof.
  unfold ids_from. cbn [seq map]. f_equal.
  rewrite <- seq_shift, map_map. apply map_ext. intros k. lia.
Qed.

Lemma ids_from_last (h : Z) (n : nat) :
  ids_from h (S n) = ids_from h n ++ [h + Z.of_nat n + 1].
Proof.
  unfold ids_from. rewrite seq_S, map_app. cbn [map]. do 2 f_equal. lia.
Qed.

Lemma ids_upto_from (n : nat) : ids_upto n = ids_from 0 n.
Proof. unfold ids_upto, ids_from. apply map_ext. intros k. lia. Qed.

Lemma matches_cons (i : Z) (ids : list Z) :
  matches send from_api (i :: ids) =
  match verdict_of send from_api i with
  | Appends h => [h]
  | _ => []
  end ++ matches send from_api ids.
Proof. reflexivity. Qed.

Lemma harmless_cons (i : Z) (ids : list Z) :
  harmless send from_api (i :: ids) ->
  (forall e, verdict_of send from_api i <> Fatal e) /\
  harmless send from_api ids.
Proof.
  intros H. split.
  - intros e. apply H. now left.
  - intros j e Hj. apply H. now right.
Qed.

(** As long as fewer than ten records match and nothing fatal happens, the
    loop is still running when the iterations are used up. *)
Lemma loop_running (fuel : nat) : forall s : vars,
  harmless send from_api (ids_from (hero_id s) fuel) ->
  (List.length (super_heroes s)
   + List.length (matches send from_api (ids_from (hero_id s) fuel)) < 10)%nat ->
  exists s',
    fst (loop send from_api fuel s) = Running s' /\
    super_heroes s' =
      super_heroes s ++ matches send from_api (ids_from (hero_id s) fuel) /\
    hero_id s' = hero_id s + Z.of_nat fuel.
Proof.
  induction fuel as [|fuel IH]; intros s Hh Hlt.
  - cbn [loop].
    assert (E : (Z.of_nat (List.length (super_heroes s)) <? 10) = true)
      by (apply Z.ltb_lt; lia).
    rewrite E. exists s. cbn [fst ids_from seq map matches flat_map].
    rewrite app_nil_r. repeat split. lia.
  - rewrite ids_from_S in Hh, Hlt. rewrite matches_cons in Hlt.
    rewrite ids_from_S, matches_cons.
    apply harmless_cons in Hh. destruct Hh as [Hi Hh].
    cbn [loop].
    assert (E : (Z.of_nat (List.length (super_heroes s)) <? 10) = true)
      by (apply Z.ltb_lt; lia).
    rewrite E. pose proof (iteration_verdict s) as Hv. cbv zeta in Hv.
    destruct (iteration send from_api s) as [st log]. cbn [fst] in Hv.
    subst st.
    destruct (verdict_of send from_api (hero_id s + 1)) as [h| |e].
    + specialize (IH (mkVars (super_heroes s ++ [h]) (hero_id s + 1)
                             (accepted s ++ [hero_id s + 1]))).
      cbn [hero_id super_heroes] in IH.
      destruct IH as [s' [Hrun [Hsh Hid]]]; [exact Hh| |].
      { rewrite length_app in *. cbn [List.length] in *. lia. }
      destruct (loop send from_api fuel _) as [r log']. cbn [fst] in *.
      exists s'. split; [exact Hrun|]. split.
      * rewrite Hsh, <- app_assoc. reflexivity.
      * rewrite Hid. lia.
    + specialize (IH (mkVars (super_heroes s) (hero_id s + 1) (accepted s))).
      cbn [hero_id super_heroes] in IH.
      destruct IH as [s' [Hrun [Hsh Hid]]]; [exact Hh| |].
      { cbn [app List.length] in Hlt. exact Hlt. }
      destruct (loop send from_api fuel _) as [r log']. cbn [fst] in *.
      exists s'. split; [exact Hrun|]. split.
      * exact Hsh.
      * rewrite Hid. lia.
    + exfalso. now apply (Hi e).
Qed.

(** More iterations take a running loop up where it stands. *)
Lemma loop_add (a b : nat) : forall s s' : vars,
  fst (loop send from_api a s) = Running s' ->
  fst (loop send from_api (a + b) s) = fst (loop send from_api b s').
Proof.
  induction a as [|a IH]; intros s s' Hrun.
  - cbn [loop] in Hrun. cbn [Nat.add].
    destruct (Z.of_nat (List.length (super_heroes s)) <? 10);
      cbn [fst] in Hrun; [|discriminate].
    now injection Hrun as <-.
  - cbn [Nat.add loop] in Hrun |- *.
    destruct (Z.of_nat (List.length (super_heroes s)) <? 10);
      cbn [fst] in Hrun; [|discriminate].
    destruct (iteration send from_api s) as [[s1|e s1] log].
    + specialize (IH s1 s').
      destruct (loop send from_api a s1) as [r log'].
      destruct (loop send from_api (a + b) s1) as [r2 log2].
      cbn [fst] in *. now apply IH.
    + cbn [fst] in Hrun. discriminate.
Qed.

(** The loop over a full list ends at once. *)
Lemma loop_full (fuel : nat) (s : vars) :
  List.length (super_heroes s) = 10%nat ->
  fst (loop send from_api fuel s) = Collected s.
Proof.
  intros H.
  assert (E : (Z.of_nat (List.length (super_heroes s)) <? 10) = false)
    by (apply Z.ltb_ge; lia).
  destruct fuel; cbn [loop]; rewrite E; reflexivity.
Qed.

(** The run up to the identifier [n], when it is still going. *)
Lemma fetch_running (n : nat) :
  harmless send from_api (ids_upto n) ->
  (List.length (matches send from_api (ids_upto n)) < 10)%nat ->
  exists s,
    fst (fetch send from_api n) = Running s /\
    super_heroes s = matches send from_api (ids_upto n) /\
    hero_id s = Z.of_nat n.
Proof.
  intros Hh Hlt. rewrite ids_upto_from in *.
  destruct (loop_running n start) as [s [Hrun [Hsh Hid]]];
    [exact Hh | exact Hlt|].
  exists s. split; [exact Hrun|]. split; [exact Hsh | exact Hid].
Qed.

End VisitFacts.

(** X16.  The fetcher returns the first ten matching records.  If the
    identifiers 1 to [n] raise nothing fatal and contribute nine records, and
    the identifier [n + 1] contributes a tenth, then the loop ends after
    [n + 1] iterations, however many more it is allowed, with exactly these
    ten records in the order of their identifiers and the cursor at
    [n + 1]. *)
Theorem fetch_collects_first_ten (send : Client.route -> Client.sent)
  (from_api : Client.pyval -> Client.exn + hero) (n : nat) (h : hero)
  (Hharmless : Visit.harmless send from_api (Main.ids_upto n))
  (Hnine : List.length (Visit.matches send from_api (Main.ids_upto n)) = 9%nat)
  (Htenth : Visit.verdict_of send from_api (Z.of_nat n + 1) = Visit.Appends h) :
  forall fuel, (n < fuel)%nat ->
  exists s,
    fst (Main.fetch send from_api fuel) = Main.Collected s /\
    Main.super_heroes s = Visit.matches send from_api (Main.ids_upto n) ++ [h] /\
    Main.hero_id s = (Z.of_nat n + 1)%Z.
Proof.
  intros fuel Hfuel.
  destruct (fetch_running send from_api n Hharmless) as [s [Hrun [Hsh Hid]]];
    [lia|].
  replace fuel with (n + S (fuel - S n))%nat by lia.
  unfold Main.fetch in *. rewrite (loop_add send from_api _ _ _ _ Hrun).
  cbn [Main.loop].
  assert (E : (Z.of_nat (List.length (Main.super_heroes s)) <? 10)%Z = true)
    by (apply Z.ltb_lt; rewrite Hsh, Hnine; lia).
  rewrite E. pose proof (iteration_verdict send from_api s) as Hv.
  cbv zeta in Hv. rewrite Hid, Htenth in Hv.
  destruct (Main.iteration send from_api s) as [st log]. cbn [fst] in Hv.
  subst st.
  set (s10 := Main.mkVars _ _ _).
  pose proof (loop_full send from_api (fuel - S n) s10) as Hfull.
  destruct (Main.loop send from_api (fuel - S n) s10) as [r log'].
  cbn [fst] in *. exists s10. split.
  - apply Hfull. unfold s10. cbn [Main.super_heroes].
    rewrite length_app, Hsh, Hnine. reflexivity.
  - unfold s10. cbn [Main.super_heroes Main.hero_id]. now rewrite Hsh.
Qed.

Lemma fetch_collects_first_ten_witness :
  exists s,
    fst (Main.fetch Sample.source Sample.from_api 40) = Main.Collected s /\
    Main.hero_id s = 30%Z.
Proof.
  destruct (fetch_collects_first_ten Sample.source Sample.from_api 29
              (SuperHero.mk 30 "Somebody" ["-"] (SuperHero.Str "-")
                 (SuperHero.Str "-") "-" "-")) with (fuel := 40%nat)
    as [s [Hrun [_ Hid]]].
  - intros i e Hin. vm_compute in Hin.
    repeat (destruct Hin as [<-|Hin]; [vm_compute; discriminate|]).
    contradiction.
  - reflexivity.
  - reflexivity.
  - lia.
  - exists s. split; [exact Hrun | exact Hid].
Defined.

(** X17.  The fetcher has no bound on the identifier: when the data source
    never raises anything fatal and fewer than ten of its records match,
    however far one looks, the loop is still running after any number of
    iterations, with the cursor at that number. *)
Theorem fetch_never_ends (send : Client.route -> Client.sent)
  (from_api : Client.pyval -> Client.exn + hero)
  (Hharmless : forall n, Visit.harmless send from_api (Main.ids_upto n))
  (Hfew : forall n,
     (List.length (Visit.matches send from_api (Main.ids_upto n)) < 10)%nat) :
  forall fuel, exists s,
    fst (Main.fetch send from_api fuel) = Main.Running s /\
    Main.hero_id s = Z.of_nat fuel.
Proof.
  intros fuel.
  destruct (fetch_running send from_api fuel (Hharmless fuel) (Hfew fuel))
    as [s [Hrun [_ Hid]]].
  now exists s.
Qed.

(** X18.  An exception other than [HTTPError] ends [main] where it is
    raised: if the identifiers 1 to [n] raise nothing fatal and contribute
    fewer than ten records, and the loop body raises [e] past its handler for
    the identifier [n + 1], the run is aborted by [e] with the cursor at
    [n + 1], and the records collected so far are lost to the caller. *)
Theorem fetch_aborts (send : Client.route -> Client.sent)
  (from_api : Client.pyval -> Client.exn + hero) (n : nat) (e : Client.exn)
  (Hharmless : Visit.harmless send from_api (Main.ids_upto n))
  (Hfew : (List.length (Visit.matches send from_api (Main.ids_upto n)) < 10)%nat)
  (Hfatal : Visit.verdict_of send from_api (Z.of_nat n + 1) = Visit.Fatal e) :
  forall fuel wrap hero_eq, (n < fuel)%nat ->
  (exists s,
     fst (Main.fetch send from_api fuel) = Main.Aborted e s /\
     Main.super_heroes s = Visit.matches send from_api (Main.ids_upto n) /\
     Main.hero_id s = (Z.of_nat n + 1)%Z) /\
  Main.main send from_api wrap hero_eq fuel = None.
Proof.
  intros fuel wrap hero_eq Hfuel.
  destruct (fetch_running send from_api n Hharmless Hfew)
    as [s [Hrun [Hsh Hid]]].
  assert (Hab : fst (Main.fetch send from_api fuel) =
                Main.Aborted e (Main.mkVars (Main.super_heroes s)
                                  (Z.of_nat n + 1) (Main.accepted s))).
  { replace fuel with (n + S (fuel - S n))%nat by lia.
    unfold Main.fetch in *. rewrite (loop_add send from_api _ _ _ _ Hrun).
    cbn [Main.loop].
    assert (E : (Z.of_nat (List.length (Main.super_heroes s)) <? 10)%Z = true)
      by (apply Z.ltb_lt; rewrite Hsh; lia).
    rewrite E. pose proof (iteration_verdict send from_api s) as Hv.
    cbv zeta in Hv. rewrite Hid, Hfatal in Hv.
    destruct (Main.iteration send from_api s) as [st log]. cbn [fst] in Hv.
    subst st. reflexivity. }
  split.
  - eexists. split; [exact Hab|]. split; [exact Hsh | reflexivity].
  - unfold Main.main. now rewrite Hab.
Qed.

Section SampleSources.
Import Client Main Visit.

Lemma marvel_skips (i : Z) :
  verdict_of Sample.marvel_source Sample.from_api i = Skips.
Proof. reflexivity. Qed.

Lemma marvel_matches (ids : list Z) :
  matches Sample.marvel_source Sample.from_api ids = [].
Proof.
  induction ids as [|i ids IH]; [reflexivity|].
  rewrite matches_cons, marvel_skips. exact IH.
Qed.

End SampleSources.

Lemma fetch_never_ends_witness :
  exists s,
    fst (Main.fetch Sample.marvel_source Sample.from_api 1000) = Main.Running s
    /\ Main.hero_id s = Z.of_nat 1000.
Proof.
  apply (fetch_never_ends Sample.marvel_source Sample.from_api).
  - intros n i e _. rewrite marvel_skips. discriminate.
  - intros n. rewrite marvel_matches. simpl. lia.
Defined.

Lemma fetch_aborts_witness :
  (exists s,
     fst (Main.fetch Sample.broken_source Sample.from_api 5) =
       Main.Aborted (Client.KeyError "publisher") s /\
     Main.super_heroes s = [] /\ Main.hero_id s = 1%Z) /\
  Main.main Sample.broken_source Sample.from_api Sample.one_line
            Sample.value_eq 5 = None.
Proof.
  apply (fetch_aborts Sample.broken_source Sample.from_api 0
           (Client.KeyError "publisher")).
  - intros i e [].
  - simpl. lia.
  - reflexivity.
  - lia.
Defined.

(** X14.  What the loop body makes of a biography answered with status 200.
    Text that is not JSON is returned as a string: [main] skips the
    identifier when the text is empty and is ended by a [TypeError] when it
    is not.  A JSON object without the key 'publisher' ends [main] with a
    [KeyError], unless the object is empty, which is skipped like [null].  An
    object whose publisher is not the string 'DC Comics' is skipped, and then
    the full record is not requested. *)
Theorem biography_verdict (send : Client.route -> Client.sent)
  (from_api : Client.pyval -> Client.exn + hero) (i : Z) (r : Client.response)
  (Hsend : send (Client.BiographyRoute i) = Client.Returns r)
  (H200 : Client.status_code r = 200%Z) :
  let verdict := Visit.verdict_of send from_api i in
  (Client.json r = None ->
     verdict = if String.eqb (Client.text r) EmptyString then Visit.Skips
               else Visit.Fatal Client.TypeError) /\
  (forall d, Client.json r = Some (Client.PDict d) -> d <> [] ->
     Main.dict_lookup "publisher" d = None ->
     verdict = Visit.Fatal (Client.KeyError "publisher")) /\
  (Client.json r = Some Client.PNone \/
   Client.json r = Some (Client.PDict []) -> verdict = Visit.Skips) /\
  (forall d p, Client.json r = Some (Client.PDict d) ->
     Main.dict_lookup "publisher" d = Some p ->
     Main.eq_str p "DC Comics" = false ->
     verdict = Visit.Skips /\
     Main.requests (snd (Visit.visit send from_api i)) =
       [Client.BiographyRoute i]).
Proof.
  intros verdict. unfold verdict, Visit.verdict_of, Visit.visit, Main.iteration.
  cbn [Main.hero_id Main.super_heroes Main.accepted].
  replace (i - 1 + 1)%Z with i by lia.
  unfold Client.get_biography, Client._make_request.
  rewrite Hsend, H200. cbn [Z.eqb Pos.eqb].
  split; [|split; [|split]].
  - intros Hj. rewrite Hj. cbn [Client.truthy].
    destruct (String.eqb (Client.text r) EmptyString); reflexivity.
  - intros d Hj Hd Hl. rewrite Hj. destruct d as [|kv d]; [congruence|].
    cbn [Client.truthy negb Main.subscript]. rewrite Hl. reflexivity.
  - intros [Hj|Hj]; rewrite Hj; reflexivity.
  - intros d p Hj Hl Hp. rewrite Hj. destruct d as [|kv d]; [discriminate Hl|].
    cbn [Client.truthy negb Main.subscript]. rewrite Hl, Hp.
    split; reflexivity.
Qed.

Lemma biography_verdict_witness :
  Visit.verdict_of Sample.broken_source Sample.from_api 2 =
    Visit.Fatal Client.TypeError.
Proof.
  destruct (biography_verdict Sample.broken_source Sample.from_api 2
              (Client.mkResponse 200 None "<html>maintenance</html>")
              eq_refl eq_refl) as [Htext _].
  exact (Htext eq_refl).
Defined.

(** X15.  An exception raised by the session itself goes through
    [_make_request] unchanged.  [main] handles it only when it is an
    [HTTPError], in which case the identifier is skipped; any other, such as
    the [RetryError] of used-up retries or a [ConnectionError], ends
    [main]. *)
Theorem transport_error_verdict (send : Client.route -> Client.sent)
  (from_api : Client.pyval -> Client.exn + hero) (i : Z) (e : Client.exn)
  (Hsend : send (Client.BiographyRoute i) = Client.Raises e) :
  fst (Client.get_biography send i) = inl e /\
  Visit.verdict_of send from_api i =
    (if Client.is_HTTPError e then Visit.Skips else Visit.Fatal e) /\
  Main.requests (snd (Visit.visit send from_api i)) = [Client.BiographyRoute i].
Proof.
  unfold Visit.verdict_of, Visit.visit, Main.iteration.
  cbn [Main.hero_id Main.super_heroes Main.accepted].
  replace (i - 1 + 1)%Z with i by lia.
  unfold Client.get_biography, Client._make_request. rewrite Hsend.
  unfold Main.handle. cbn [fst].
  destruct (Client.is_HTTPError e); repeat split.
Qed.

Lemma transport_error_verdict_witness :
  Visit.verdict_of (fun _ => Client.Raises Client.RetryError) Sample.from_api 1
  = Visit.Fatal Client.RetryError.
Proof.
  apply (transport_error_verdict (fun _ => Client.Raises Client.RetryError)
           Sample.from_api 1 Client.RetryError eq_refl).
Defined.

(** ** The whole program *)

(** X19.  When [main] gets as far as the PDF, it has collected ten records.
    If [create_pdf] then returns, it has drawn ten images, one for each
    record, and forty paragraphs, into a canvas opened on
    'super_heroes.pdf'.  If the backend raises, at most ten images and forty
    paragraphs were drawn, each image that of one of the records and none
    twice, and nothing was printed. *)
Theorem main_draws_ten_or_raises (send : Client.route -> Client.sent)
  (from_api : Client.pyval -> Client.exn + hero)
  (raises : list PDF.call -> Render.request -> bool)
  (wrap : string -> Q -> Q -> Q) (hero_eq : hero -> hero -> bool)
  (fuel : nat) (r : PDF.outcome (Render.request + unit))
  (Hmain : Render.main raises wrap hero_eq send from_api fuel = Some r) :
  exists s,
    fst (Main.fetch send from_api fuel) = Main.Collected s /\
    List.length (Main.super_heroes s) = 10%nat /\
    match PDF.value r with
    | inr _ =>
        List.length (Trace.pictures (PDF.calls r)) = 10%nat /\
        List.length (Trace.paragraphs (PDF.calls r)) = 40%nat /\
        hd_error (PDF.calls r) = Some (PDF.NewCanvas "super_heroes.pdf") /\
        Permutation (Trace.pictures (PDF.calls r))
                    (map SuperHero.picture (Main.super_heroes s))
    | inl _ =>
        (List.length (Trace.pictures (PDF.calls r)) <= 10)%nat /\
        (List.length (Trace.paragraphs (PDF.calls r)) <= 40)%nat /\
        (exists pictures_left,
           Permutation (Trace.pictures (PDF.calls r) ++ pictures_left)
                       (map SuperHero.picture (Main.super_heroes s))) /\
        forall line, ~ In (PDF.Print line) (PDF.calls r)
    end.
Proof.
  unfold Render.main in Hmain.
  destruct (invariant_loop send from_api fuel Main.start []
              (invariant_start send from_api)) as [_ Hten].
  fold (Main.fetch send from_api fuel) in Hten.
  destruct (fst (Main.fetch send from_api fuel)) as [s| |] eqn:Hrun;
    try discriminate.
  destruct (PDF.__init__ "super_heroes" "The Super Heroes API - DC Comics"
              (Main.super_heroes s)) as [pdf|] eqn:Hinit; [|discriminate].
  injection Hmain as <-.
  exists s. split; [reflexivity|]. split; [exact Hten|].
  pose proof (init_members _ _ _ _ Hinit) as Hperm.
  destruct (create_pdf_drawn wrap hero_eq pdf) as [Hp Hm].
  assert (Hlen : List.length (Trace.members (PDF.data pdf)) = 10%nat)
    by (rewrite (Permutation_length Hperm); exact Hten).
  assert (Hpics : List.length
                    (Trace.pictures (PDF.calls (PDF.create_pdf wrap hero_eq pdf)))
                  = 10%nat)
    by (rewrite Hp, length_map; exact Hlen).
  assert (Hpars : List.length
                    (Trace.paragraphs
                       (PDF.calls (PDF.create_pdf wrap hero_eq pdf)))
                  = 40%nat).
  { rewrite Hm. clear - Hlen.
    induction (Trace.members (PDF.data pdf)) as [|h l IH] in Hlen |- *.
    - discriminate.
    - do 10 (destruct l as [|? l]; [try discriminate|]);
        [reflexivity | discriminate]. }
  assert (Hname : PDF.file_name pdf = "super_heroes").
  { unfold PDF.__init__ in Hinit.
    destruct (Grouper._prepare_data (Main.super_heroes s)); [|discriminate].
    injection Hinit as <-. reflexivity. }
  pose proof (create_pdf_refines raises wrap hero_eq [] pdf) as H.
  destruct (PDF.value (Render.create_pdf raises wrap hero_eq [] pdf))
    as [e|u].
  - destruct H as [c [rest [Hc Hb]]].
    rewrite Hc, pictures_app, length_app in Hpics.
    rewrite Hc, paragraphs_app, length_app in Hpars.
    split; [lia|]. split; [lia|]. split.
    + exists (Trace.pictures (c :: rest)).
      rewrite <- pictures_app, <- Hc, Hp. now apply Permutation_map.
    + intros line Hin.
      destruct (create_pdf_calls wrap hero_eq pdf) as [body [Hcalls Hbody]].
      rewrite Hcalls in Hc.
      apply (cut_before_closing
               (PDF.NewCanvas (PDF.file_name pdf ++ ".pdf")
                :: PDF.SetFont (PDF._font pdf) 18
                :: PDF.DrawString Units.inch (PDF._bottom pdf) (PDF.title pdf)
                :: body)) in Hc.
      assert (Hfront : forall x,
                In x (PDF.NewCanvas (PDF.file_name pdf ++ ".pdf")
                      :: PDF.SetFont (PDF._font pdf) 18
                      :: PDF.DrawString Units.inch (PDF._bottom pdf)
                           (PDF.title pdf)
                      :: body) ->
                x <> PDF.Print line).
      { intros x [<-|[<-|[<-|Hx]]]; try discriminate.
        pose proof (filter_nil_In _ _ Hbody x Hx) as Hf.
        intros ->. discriminate Hf. }
      destruct Hc as [[rest' Hl]|[[Ht _]|[Ht _]]].
      * apply (Hfront (PDF.Print line)); [|reflexivity].
        rewrite Hl. apply in_or_app. now left.
      * rewrite Ht in Hin. now apply (Hfront (PDF.Print line)).
      * rewrite Ht in Hin. apply in_app_or in Hin. destruct Hin as [Hin|Hin].
        -- now apply (Hfront (PDF.Print line)).
        -- destruct Hin as [Hin|[]]. discriminate Hin.
  - destruct H as [_ [_ ->]].
    split; [exact Hpics|]. split; [exact Hpars|]. split.
    + destruct (create_pdf_calls wrap hero_eq pdf) as [body [-> _]].
      rewrite Hname. reflexivity.
    + rewrite Hp. now apply Permutation_map.
Qed.

Lemma main_draws_ten_or_raises_witness :
  match Render.main Render.never Sample.one_line Sample.value_eq
                    Sample.source Sample.from_api 30 with
  | Some r =>
      PDF.value r = inr tt /\
      exists s,
        fst (Main.fetch Sample.source Sample.from_api 30) = Main.Collected s /\
        List.length (Main.super_heroes s) = 10%nat /\
        match PDF.value r with
        | inr _ =>
            List.length (Trace.pictures (PDF.calls r)) = 10%nat /\
            List.length (Trace.paragraphs (PDF.calls r)) = 40%nat /\
            hd_error (PDF.calls r) = Some (PDF.NewCanvas "super_heroes.pdf") /\
            Permutation (Trace.pictures (PDF.calls r))
                        (map SuperHero.picture (Main.super_heroes s))
        | inl _ =>
            (List.length (Trace.pictures (PDF.calls r)) <= 10)%nat /\
            (List.length (Trace.paragraphs (PDF.calls r)) <= 40)%nat /\
            (exists pictures_left,
               Permutation (Trace.pictures (PDF.calls r) ++ pictures_left)
                           (map SuperHero.picture (Main.super_heroes s))) /\
            forall line, ~ In (PDF.Print line) (PDF.calls r)
        end
  | None => False
  end.
Proof.
  destruct (Render.main Render.never Sample.one_line Sample.value_eq
                        Sample.source Sample.from_api 30) as [r|] eqn:E.
  - split.
    + vm_compute in E. injection E as <-. reflexivity.
    + apply (main_draws_ten_or_raises Sample.source Sample.from_api
               Render.never Sample.one_line Sample.value_eq 30 r E).
  - vm_compute in E. discriminate E.
Defined.

(** ** The level of the logger *)

(** X20.  A [DEBUG] variable that is set to anything but the empty string
    wins: the logger ends at level DEBUG whatever [LOG_LEVEL] holds, valid
    or not, and the only warning is the one about overriding, which is given
    when the upper-cased [LOG_LEVEL] (or its default) is not empty.  Without
    it, a [LOG_LEVEL] that is no level name once upper-cased leaves the
    logger at INFO with a warning. *)
Theorem debug_overrides_log_level (environ : string -> option string)
  (upper : string -> string) :
  let asked := upper (match environ "LOG_LEVEL" with
                      | Some v => v
                      | None => "INFO"
                      end) in
  (forall v, environ "DEBUG" = Some v -> v <> EmptyString ->
     LogConfig.configure environ upper =
     (LogConfig.DEBUG,
      if LogConfig.nonempty asked
      then ["Overriding LOG_LEVEL setting with DEBUG"]
      else [])) /\
  (environ "DEBUG" = None \/ environ "DEBUG" = Some EmptyString ->
   LogConfig.configure environ upper =
   match LogConfig.level_of_name asked with
   | Some l => (l, [])
   | None => (LogConfig.INFO,
              ["LOG_LEVEL is not valid - Log Level set to INFO"])
   end).
Proof.
  intros asked. unfold LogConfig.configure. fold asked. split.
  - intros v Hv Hne. rewrite Hv.
    assert (E : LogConfig.nonempty v = true).
    { unfold LogConfig.nonempty. apply negb_true_iff.
      now apply String.eqb_neq. }
    rewrite E. reflexivity.
  - intros [H|H]; rewrite H; cbn [LogConfig.nonempty String.eqb negb];
      destruct (LogConfig.level_of_name asked); reflexivity.
Qed.

(** [DEBUG=1] with [LOG_LEVEL=error]. *)
Example debug_environment :
  LogConfig.configure Sample.debug_environ (fun s => s) =
  (LogConfig.DEBUG, ["Overriding LOG_LEVEL setting with DEBUG"]).
Proof. reflexivity. Qed.

(** ** The page break of one hero *)

(** X9.  Placing a hero signals a page break exactly when the hero is the
    fifth item of its page, that is when the counter was 4 before it: the
    counter is then 0 and the cursor at the top of the page, 11 inches.  In
    every other case no break is signalled and the counter has gone up by
    one, also past 5. *)
Theorem page_break_at_fifth_item (wrap : string -> Q -> Q -> Q)
  (hero_eq : hero -> hero -> bool) (key : string) (heroes : list hero)
  (h : hero) (st : PDF.t) :
  let r := PDF.place_hero wrap hero_eq key heroes h st in
  (Trace.page_breaks (PDF.calls r) = 1%nat <-> PDF._page_items st = 4%Z) /\
  (Trace.page_breaks (PDF.calls r) = 0%nat <-> PDF._page_items st <> 4%Z) /\
  (PDF._page_items st = 4%Z ->
     PDF._page_items (PDF.state r) = 0%Z /\
     PDF._bottom (PDF.state r) = (11 * Units.inch)%Q) /\
  (PDF._page_items st <> 4%Z ->
     PDF._page_items (PDF.state r) = (PDF._page_items st + 1)%Z).
Proof.
  intros r.
  destruct (place_hero_page_break wrap hero_eq key heroes h st) as [Hb Hn].
  fold r in Hb, Hn. unfold Trace.page_breaks.
  destruct (Z.eq_dec (PDF._page_items st) 4) as [E|E].
  - destruct (Hb E) as [Hc [Hp Hy]]. rewrite Hc. cbn [List.length].
    split; [tauto|]. split; [split; [discriminate | contradiction]|].
    split; [intros _; now split | contradiction].
  - destruct (Hn E) as [Hc Hp]. rewrite Hc. cbn [List.length].
    split; [split; [discriminate | contradiction]|].
    split; [tauto|]. split; [contradiction | intros _; exact Hp].
Qed.
